(** * libnice: the network address value and the STUN message builder

    A shallow embedding of [address/address.c], [stun/stunsend.c] and
    [stun/hmac.c] and the properties of their specification.

    Conventions of the embedding.
    - A [uint8_t] is a [byte]; a buffer is a [list byte] indexed from 0.
      Wider unsigned integers are [Z] with their wrap-around written out
      ([uint16], [uint32], [uint64], [size_t]).
    - A store outside the buffer is undefined behaviour in C; here it is
      dropped (the buffer keeps its length), and a load outside the buffer
      reads 0.  The theorems that read a byte back assume that the declared
      buffer size does not exceed the real one.
    - [assert] and [g_assert_not_reached] abort the process: the outcome
      [Abort].
    - What the C library, OpenSSL and the STUN parser provide is collected in
      the classes [Host], [StunEnv] and [StunParser]; nothing is assumed about
      them beyond their types unless a theorem says so.  [libc_host] is the
      host whose [inet_aton] is that of the GNU C library. *)

From Stdlib Require Import ZArith Lia.
From Stdlib.Strings Require Import Byte String.
From stdpp Require Import base list vector.

Local Open Scope Z_scope.

(** ** Bytes and machine integers *)

Definition Z_of_byte (b : byte) : Z := Z.of_N (Byte.to_N b).

(** Conversion to [uint8_t]: the value modulo 256. *)
Definition byte_of_Z (z : Z) : byte :=
  default Byte.x00 (Byte.of_N (Z.to_N (z mod 256))).

#[global] Instance byte_eq_dec : EqDecision byte.
Proof.
  intros a b. destruct (decide (Byte.to_N a = Byte.to_N b)) as [E|E].
  - left. apply (f_equal Byte.of_N) in E. rewrite !Byte.of_to_N in E.
    congruence.
  - right. congruence.
Defined.

Definition uint8 (z : Z) : Z := z mod 2 ^ 8.
Definition uint16 (z : Z) : Z := z mod 2 ^ 16.
Definition uint32 (z : Z) : Z := z mod 2 ^ 32.
Definition uint64 (z : Z) : Z := z mod 2 ^ 64.

(** Conversion to [int] of a value of a 32-bit integer type, signed or
    unsigned: a value of the unsigned type from 2^31 on wraps around. *)
Definition to_int (z : Z) : Z := if z <? 2 ^ 31 then z else z - 2 ^ 32.

(** [size_t] on an LP64 host. *)
Definition SIZE_BITS : Z := 64.
Definition size_t (z : Z) : Z := z mod 2 ^ SIZE_BITS.

(** The [n] bytes of [v], least significant first. *)
Fixpoint le_bytes (n : nat) (v : Z) : list byte :=
  match n with
  | O => []
  | S n' => byte_of_Z v :: le_bytes n' (v / 256)
  end.

Definition be_bytes (n : nat) (v : Z) : list byte := rev (le_bytes n v).

Fixpoint le_value (l : list byte) : Z :=
  match l with
  | [] => 0
  | b :: l' => Z_of_byte b + 256 * le_value l'
  end.

Definition be_value (l : list byte) : Z := le_value (rev l).

(** What the platform and the C library provide to [address.c]. *)
Class Host := {
  (** byte order of integers in memory *)
  host_little_endian : bool;
  (** [inet_aton (str, &iaddr)]: [Some s_addr] when it returns non-zero,
      [s_addr] being the [uint32_t] it stores (network byte order) *)
  inet_aton : list byte -> option Z
}.

Section HostOrder.
Context `{Host}.

(** The object representation of an [n]-byte unsigned integer. *)
Definition host_bytes (n : nat) (v : Z) : list byte :=
  if host_little_endian then le_bytes n v else be_bytes n v.

Definition host_value (l : list byte) : Z :=
  if host_little_endian then le_value l else be_value l.

(** [htonl], [htons], [ntohl], [ntohs]: the host integer whose bytes in
    memory are the big-endian bytes of the argument, and back. *)
Definition htonl (x : Z) : Z := host_value (be_bytes 4 x).
Definition htons (x : Z) : Z := host_value (be_bytes 2 x).
Definition ntohl (x : Z) : Z := be_value (host_bytes 4 x).
Definition ntohs (x : Z) : Z := be_value (host_bytes 2 x).
End HostOrder.

(** ** The C library's [inet_aton]

    The parser of the GNU C library, as inet_aton(3) describes it: one to
    four numbers separated by dots, each written as in C (decimal, octal
    with a leading 0, hexadecimal with a leading 0x); all but the last are
    bytes of the address, the last fills the bytes that remain; the number
    ends at the end of the string or at white space. *)

(** [isdigit (c)] and [isspace (c)] in the C locale. *)
Definition isdigit (c : byte) : bool :=
  (48 <=? Z_of_byte c) && (Z_of_byte c <=? 57).

Definition isspace (c : byte) : bool :=
  (Z_of_byte c =? 32) || ((9 <=? Z_of_byte c) && (Z_of_byte c <=? 13)).

(** The value of a character as a digit, up to base 16. *)
Definition digit_value (c : byte) : option Z :=
  let z := Z_of_byte c in
  if (48 <=? z) && (z <=? 57) then Some (z - 48)
  else if (97 <=? z) && (z <=? 102) then Some (z - 87)
  else if (65 <=? z) && (z <=? 70) then Some (z - 55)
  else None.

(** The digits of base [base] at the start of [s], after the value [acc]:
    the number and what follows it. *)
Fixpoint strtoul_digits (base acc : Z) (s : list byte) : Z * list byte :=
  match s with
  | c :: s' =>
      match digit_value c with
      | Some d =>
          if d <? base then strtoul_digits base (acc * base + d) s'
          else (acc, s)
      | None => (acc, s)
      end
  | [] => (acc, s)
  end.

(** [strtoul (cp, &endp, 0)] on a string that starts with a digit: the
    number, not yet limited to [unsigned long], and [endp]. *)
Definition strtoul (cp : list byte) : Z * list byte :=
  match cp with
  | c0 :: s1 =>
      if decide (c0 = Byte.x30) then
        match s1 with
        | x :: s2 =>
            if bool_decide (x = Byte.x78 \/ x = Byte.x58) then
              match s2 with
              | h :: _ =>
                  match digit_value h with
                  | Some _ => strtoul_digits 16 0 s2
                  | None => (0, s1)
                  end
              | [] => (0, s1)
              end
            else strtoul_digits 8 0 s1
        | [] => (0, s1)
        end
      else strtoul_digits 10 0 cp
  | [] => (0, cp)
  end.

(** What one round of the loop of [inet_aton] comes to. *)
Inductive aton_round :=
  | aton_fail
  | aton_done (s_addr : Z)
  | aton_next (parts cp : list byte).

(** One round: a number, and then a dot with more to come, or the end.
    [parts] are the bytes stored so far; the address is returned as the
    integer that its four bytes are in the memory of the host. *)
Definition inet_aton_round (le : bool) (parts cp : list byte) : aton_round :=
  match cp with
  | c :: _ =>
      if isdigit c then
        let '(val, cp') := strtoul cp in
        if val >? 0xffffffff then aton_fail
        else
          let last :=
            if val <? 256 ^ (4 - Z.of_nat (length parts)) then
              let bytes :=
                parts ++ be_bytes (4 - length parts) val in
              aton_done (if le then le_value bytes else be_value bytes)
            else aton_fail in
          match cp' with
          | c' :: cp'' =>
              if decide (c' = Byte.x2e) then
                if (2 <? Z.of_nat (length parts)) || (val >? 0xff)
                then aton_fail
                else aton_next (parts ++ [byte_of_Z val]) cp''
              else if bool_decide (c' = Byte.x00) || isspace c' then last
              else aton_fail
          | [] => last
          end
      else aton_fail
  | [] => aton_fail
  end.

(** The loop, for at most [fuel] rounds. *)
Fixpoint inet_aton_rounds (fuel : nat) (le : bool) (parts cp : list byte)
  : option Z :=
  match fuel with
  | O => None
  | S fuel' =>
      match inet_aton_round le parts cp with
      | aton_fail => None
      | aton_done s_addr => Some s_addr
      | aton_next parts' cp' => inet_aton_rounds fuel' le parts' cp'
      end
  end.

(** [inet_aton (cp, &addr)] on a host of the given byte order.  A round
    that goes on has read at least two characters, so the loop ends before
    the rounds run out. *)
Definition libc_inet_aton (le : bool) (cp : list byte) : option Z :=
  inet_aton_rounds (S (length cp)) le [] cp.

Definition libc_host (le : bool) : Host :=
  {| host_little_endian := le; inet_aton := libc_inet_aton le |}.

(** ** Dotted quads *)

(** Modelled from the spec: "a valid dotted-quad", the "canonical
    dotted-quad" that the textual form of an IPv4 address is: four decimal
    numbers from 0 to 255, without leading zeros, separated by dots. *)
Definition decimal_digit (d : Z) : byte := byte_of_Z (48 + d).

Definition decimal (n : Z) : list byte :=
  if n <? 10 then [decimal_digit n]
  else if n <? 100 then [decimal_digit (n / 10); decimal_digit (n mod 10)]
  else [decimal_digit (n / 100); decimal_digit (n / 10 mod 10);
        decimal_digit (n mod 10)].

Definition dotted_quad (a b c d : Z) : list byte :=
  decimal a ++ Byte.x2e :: decimal b ++ Byte.x2e :: decimal c
    ++ Byte.x2e :: decimal d.

Definition valid_dotted_quad (s : list byte) : Prop :=
  exists a b c d,
    (0 <= a < 256 /\ 0 <= b < 256 /\ 0 <= c < 256 /\ 0 <= d < 256) /\
    s = dotted_quad a b c d.

(** What a number of a dotted quad is followed by: the end of the string
    or a dot. *)
Definition number_end (s : list byte) : Prop :=
  s = [] \/ exists r, s = Byte.x2e :: r.

(** ** Outcomes *)

(** A call returns normally or the process is aborted by a failed
    assertion. *)
Inductive outcome (A : Type) : Type :=
  | Normal (a : A)
  | Abort.
Arguments Normal {A} a.
Arguments Abort {A}.

(** ** Socket addresses

    [struct sockaddr_in] and [struct sockaddr_in6] as the code overlays them
    on one [struct sockaddr *]: the family and the port are at the same place
    in both; [sin_addr.s_addr] (the bytes after the port) and [sin6_addr] do
    not overlap.  Port and [s_addr] are the integers as stored, that is in
    network byte order. *)
Record sockaddr := mk_sockaddr {
  sa_family : Z;
  sin_port : Z;
  sin_addr : Z;
  sin6_addr : vec byte 16
}.

(** [<sys/socket.h>] on Linux. *)
Definition AF_INET : Z := 2.
Definition AF_INET6 : Z := 10.
Definition sizeof_sockaddr : Z := 16.
Definition sizeof_sockaddr_in : Z := 16.
Definition sizeof_sockaddr_in6 : Z := 28.

(** ** address/address.c *)

Module Address.

(** Modelled from the spec: [address.h], which declares the enumeration
    and the structure, is not among the sources.  "A tagged network
    endpoint (IPv4 or IPv6 + port)"; the enumerators are numbered in the
    order the spec names them. *)
Definition NICE_ADDRESS_TYPE_IPV4 : Z := 0.
Definition NICE_ADDRESS_TYPE_IPV6 : Z := 1.

(** Modelled from the spec: [struct _NiceAddress] of the absent
    [address.h], with the four members the code names: "IPv4 (32-bit
    host-order address) and IPv6 (128-bit address in network byte order as
    stored). Both variants carry a 16-bit port in host byte order."
    The two address members are kept apart; every function of [address.c]
    reads only the one that [type] selects. *)
Record NiceAddress := mk_NiceAddress {
  type : Z;
  addr_ipv4 : Z;
  addr_ipv6 : vec byte 16;
  port : Z
}.

(** [INET_ADDRSTRLEN] of [<netinet/in.h>]. *)
Definition INET_ADDRSTRLEN : Z := 16.

(** [g_slice_new0 (NiceAddress)]: all members zero. *)
Definition nice_address_new : NiceAddress :=
  mk_NiceAddress 0 0 (vreplicate 16 Byte.x00) 0.

Definition nice_address_set_ipv4 (addr : NiceAddress) (addr_ipv4' : Z)
  : NiceAddress :=
  mk_NiceAddress NICE_ADDRESS_TYPE_IPV4 (uint32 addr_ipv4')
                 (addr_ipv6 addr) (port addr).

Definition nice_address_set_ipv6 (addr : NiceAddress)
    (addr_ipv6' : vec byte 16) : NiceAddress :=
  mk_NiceAddress NICE_ADDRESS_TYPE_IPV6 (addr_ipv4 addr)
                 addr_ipv6' (port addr).

(** The stores [addr->type = t] and [addr->port = p]. *)
Definition set_type (addr : NiceAddress) (t : Z) : NiceAddress :=
  mk_NiceAddress t (addr_ipv4 addr) (addr_ipv6 addr) (port addr).

Definition set_port (addr : NiceAddress) (p : Z) : NiceAddress :=
  mk_NiceAddress (type addr) (addr_ipv4 addr) (addr_ipv6 addr) (uint16 p).

(** [memcmp (a, b, n) == 0]. *)
Definition memcmp_eq (a b : list byte) (n : Z) : bool :=
  bool_decide (take (Z.to_nat n) a = take (Z.to_nat n) b).

Section WithHost.
Context `{Host}.

Definition nice_address_set_ipv4_from_string (addr : NiceAddress)
    (str : list byte) : bool * NiceAddress :=
  match inet_aton str with
  | Some s_addr => (true, nice_address_set_ipv4 addr (ntohl s_addr))
  | None => (false, addr)
  end.

Definition nice_address_set_from_sockaddr (addr : NiceAddress)
    (sin : sockaddr) : outcome NiceAddress :=
  if sa_family sin =? AF_INET then
    let addr := set_type addr NICE_ADDRESS_TYPE_IPV4 in
    let addr := nice_address_set_ipv4 addr (ntohl (sin_addr sin)) in
    Normal (set_port addr (ntohs (sin_port sin)))
  else if sa_family sin =? AF_INET6 then
    let addr := set_type addr NICE_ADDRESS_TYPE_IPV6 in
    let addr := nice_address_set_ipv6 addr (sin6_addr sin) in
    Normal (set_port addr (ntohs (sin_port sin)))
  else Abort.

Definition nice_address_copy_to_sockaddr (addr : NiceAddress)
    (sin : sockaddr) : outcome sockaddr :=
  if type addr =? NICE_ADDRESS_TYPE_IPV4 then
    Normal (mk_sockaddr AF_INET (htons (port addr))
                        (htonl (addr_ipv4 addr)) (sin6_addr sin))
  else if type addr =? NICE_ADDRESS_TYPE_IPV6 then
    Normal (mk_sockaddr AF_INET6 (htons (port addr))
                        (sin_addr sin) (addr_ipv6 addr))
  else Abort.
End WithHost.

Definition nice_address_equal (a b : NiceAddress) : outcome bool :=
  if negb (type a =? type b) then Normal false
  else if type a =? NICE_ADDRESS_TYPE_IPV4 then
    Normal ((addr_ipv4 a =? addr_ipv4 b) && (port a =? port b))
  else if type a =? NICE_ADDRESS_TYPE_IPV6 then
    Normal (memcmp_eq (vec_to_list (addr_ipv6 a)) (vec_to_list (addr_ipv6 b))
                      INET_ADDRSTRLEN
            && (port a =? port b))
  else Abort.

(** The members hold values of their C types. *)
Definition NiceAddress_wf (a : NiceAddress) : Prop :=
  0 <= addr_ipv4 a < 2 ^ 32 /\ 0 <= port a < 2 ^ 16.

(** [nice_address_dup]: [*dup = *a] in fresh storage. *)
Definition nice_address_dup (a : NiceAddress) : NiceAddress := a.

(** [ipv4_address_is_private (addr)]. *)
Definition ipv4_address_is_private (addr : Z) : bool :=
  (Z.land addr 0xff000000 =? 0x0a000000) ||
  (Z.land addr 0xfff00000 =? 0xac100000) ||
  (Z.land addr 0xffff0000 =? 0xc0a80000) ||
  (Z.land addr 0xff000000 =? 0x7f000000).

Definition nice_address_is_private (a : NiceAddress) : outcome bool :=
  if type a =? NICE_ADDRESS_TYPE_IPV4 then
    Normal (ipv4_address_is_private (addr_ipv4 a))
  else Abort.

End Address.

(** ** Message buffers *)

(** [msg[off]]. *)
Definition load8 (msg : list byte) (off : Z) : Z :=
  from_option Z_of_byte 0 (msg !! Z.to_nat off).

(** [memcpy (msg + off, src, |src|)]. *)
Definition memcpy_at (msg : list byte) (off : Z) (src : list byte)
  : list byte :=
  list_inserts (Z.to_nat off) src msg.

(** The [n] bytes of [msg] from offset [off]. *)
Definition bytes_at (msg : list byte) (off n : Z) : list byte :=
  take (Z.to_nat n) (drop (Z.to_nat off) msg).

(** [strlen]: the bytes before the first NUL (the list ends with one that
    is not written). *)
Fixpoint strlen (str : list byte) : Z :=
  match str with
  | [] => 0
  | c :: str' => if decide (c = Byte.x00) then 0 else 1 + strlen str'
  end.

(** A computation on the message buffer that may abort. *)
Definition M (A : Type) : Type := list byte -> outcome (A * list byte).

#[global] Instance M_ret : MRet M := fun A a msg => Normal (a, msg).

#[global] Instance M_bind : MBind M := fun A B f c msg =>
  match c msg with
  | Normal (a, msg') => f a msg'
  | Abort => Abort
  end.

(** [assert (b)]. *)
Definition assert (b : bool) : M unit :=
  fun msg => if b then Normal (tt, msg) else Abort.

(** The buffer as it is now. *)
Definition buffer : M (list byte) := fun msg => Normal (msg, msg).

Definition store (off : Z) (src : list byte) : M unit :=
  fun msg => Normal (tt, memcpy_at msg off src).

(** [memset (msg + off, c, n)]. *)
Definition memset (off : Z) (c : Z) (n : Z) : M unit :=
  store off (replicate (Z.to_nat n) (byte_of_Z c)).

Definition lift {A} (o : outcome A) : M A :=
  fun msg => match o with Normal a => Normal (a, msg) | Abort => Abort end.

(** ** stun/stunsend.c and stun/hmac.c *)

Module Stun.

(** The [int] results: 0 or an [errno] value. *)
Inductive status := Success | ENOBUFS | EINVAL | EAFNOSUPPORT.

#[global] Instance status_eq_dec : EqDecision status.
Proof. solve_decision. Defined.

(** What [stun-msg.h], OpenSSL and the STUN parser provide. *)
Class StunEnv := {
  (** the largest message the builder produces *)
  STUN_MAXMSG : Z;
  (** [HMAC (EVP_sha1 (), key, keylen, data, n, md, NULL)]: the digest
      written to [md] *)
  HMAC_SHA1 : list byte -> list byte -> vec byte 20;
  (** [stun_fingerprint (msg)] of the parser *)
  stun_fingerprint : list byte -> Z;
  (** [stun_xor_address (msg, addr, addrlen)] of the parser: its result
      and the address it leaves in [addr] *)
  stun_xor_address : list byte -> sockaddr -> Z -> status * sockaddr
}.

(** Modelled from the spec: the enumerations of the absent [stun-msg.h].
    "class ∈ {0=REQUEST, 1=INDICATION, 2=RESPONSE, 3=ERROR}". *)
Definition STUN_REQUEST : Z := 0.
Definition STUN_INDICATION : Z := 1.
Definition STUN_RESPONSE : Z := 2.
Definition STUN_ERROR : Z := 3.

(** Modelled from the spec: the attribute types of the absent
    [stun-msg.h]; the spec names them and follows RFC 5389, whose
    numbers these are. *)
Definition STUN_USERNAME : Z := 0x0006.
Definition STUN_MESSAGE_INTEGRITY : Z := 0x0008.
Definition STUN_ERROR_CODE : Z := 0x0009.
Definition STUN_UNKNOWN_ATTRIBUTES : Z := 0x000A.
Definition STUN_REALM : Z := 0x0014.
Definition STUN_NONCE : Z := 0x0015.
Definition STUN_FINGERPRINT : Z := 0x8028.

(** Modelled from the spec: the error codes of the absent [stun-msg.h],
    with the numbers of the spec's error catalog. *)
Definition STUN_TRY_ALTERNATE : Z := 300.
Definition STUN_BAD_REQUEST : Z := 400.
Definition STUN_UNAUTHORIZED : Z := 401.
Definition STUN_UNKNOWN_ATTRIBUTE : Z := 420.
Definition STUN_STALE_CREDENTIALS : Z := 430.
Definition STUN_INTEGRITY_CHECK_FAILURE : Z := 431.
Definition STUN_MISSING_USERNAME : Z := 432.
Definition STUN_USE_TLS : Z := 433.
Definition STUN_MISSING_REALM : Z := 434.
Definition STUN_MISSING_NONCE : Z := 435.
Definition STUN_UNKNOWN_USERNAME : Z := 436.
Definition STUN_STALE_NONCE : Z := 438.
Definition STUN_ROLE_CONFLICT : Z := 487.
Definition STUN_SERVER_ERROR : Z := 500.
Definition STUN_GLOBAL_FAILURE : Z := 600.

(** Modelled from the spec: [stun_getw] of the absent [stun-msg.h], the
    "fixed-width big-endian read" of a 16-bit word at [ptr]. *)
Definition stun_getw (msg : list byte) (ptr : Z) : Z :=
  Z.lor (Z.shiftl (load8 msg ptr) 8) (load8 msg (ptr + 1)).

(** Modelled from the spec: [stun_length] of the absent [stun-msg.h],
    "two bytes of message length (attributes only, not including the
    20-byte header)" after the two bytes of type. *)
Definition stun_length (msg : list byte) : Z := stun_getw msg 2.

(** Modelled from the spec: [stun_padding] of the absent [stun-msg.h],
    "pad_len(n) = (4 − (n mod 4)) mod 4". *)
Definition stun_padding (l : Z) : Z := (4 - (l mod 4)) mod 4.

(** Modelled from the spec: [stun_id] of the absent [stun-msg.h], the
    "twelve bytes of transaction ID" after the magic cookie. *)
Definition stun_id (msg : list byte) : list byte := bytes_at msg 8 12.

(** Modelled from the spec: [stun_get_class] and [stun_get_method] of the
    absent [stun-msg.h], the inverse of the layout
    "buf[0] = (class >> 1) | ((method >> 6) & 0x3E);
     buf[1] = ((class << 4) & 0x10) | ((method << 1) & 0xE0)
              | (method & 0x0F)". *)
Definition class_bits (t : Z) : Z :=
  Z.lor (Z.shiftr (Z.land t 0x0100) 7) (Z.shiftr (Z.land t 0x0010) 4).

Definition method_bits (t : Z) : Z :=
  Z.lor (Z.lor (Z.shiftr (Z.land t 0x3e00) 2) (Z.shiftr (Z.land t 0x00e0) 1))
        (Z.land t 0x000f).

Definition stun_get_class (msg : list byte) : Z :=
  class_bits (stun_getw msg 0).

Definition stun_get_method (msg : list byte) : Z :=
  method_bits (stun_getw msg 0).

(** [stun_setw (msg + ptr, value)]; returns the advanced pointer. *)
Definition stun_setw (ptr : Z) (value : Z) : M Z :=
  let value := uint16 value in
  store ptr [byte_of_Z (Z.shiftr value 8)];;
  store (ptr + 1) [byte_of_Z (Z.land value 0xff)];;
  mret (ptr + 2).

(** [stun_set_type (h, c, m)] with [h] the start of the buffer. *)
Definition stun_set_type (c m : Z) : M unit :=
  assert (c <? 4);;
  assert (m <? Z.shiftl 1 12);;
  store 0 [byte_of_Z (Z.lor (Z.shiftr c 1) (Z.land (Z.shiftr m 6) 0x3e))];;
  store 1 [byte_of_Z (Z.lor (Z.lor (Z.land (Z.shiftl c 4) 0x10)
                                   (Z.land (Z.shiftl m 1) 0xe0))
                            (Z.land m 0x0f))];;
  h ← buffer;
  assert (stun_getw h 0 <? Z.shiftl 1 14);;
  assert (stun_get_class h =? c);;
  assert (stun_get_method h =? m).

Section WithHost.
Context `{Host}.

(** [stun_make_transid (id)]: the identifier and the new value of the
    static [store.counter], from its old value.  The mutex makes the
    read and increment one step. *)
Definition stun_make_transid (store_counter : Z) : list byte * Z :=
  let counter := store_counter in
  (replicate 4 Byte.x00 ++ host_bytes 8 counter,
   uint64 (store_counter + 1)).
End WithHost.

(** [stun_init (msg, c, m, id)].  When [id] is [msg + 8] the C code skips
    the copy of the bytes onto themselves; copying them gives the same
    buffer. *)
Definition stun_init (c m : Z) (id : list byte) : M unit :=
  let init := [Byte.x00; Byte.x00; Byte.x00; Byte.x00;
               Byte.x21; Byte.x12; Byte.xa4; Byte.x42] in
  store 0 init;;
  stun_set_type c m;;
  store 8 (take 12 id).

Section WithHost.
Context `{Host}.

(** Returns the new value of the transaction counter. *)
Definition stun_init_request (store_counter : Z) (m : Z) : M Z :=
  let '(id, store_counter') := stun_make_transid store_counter in
  stun_init STUN_REQUEST m id;;
  mret store_counter'.
End WithHost.

Definition stun_init_response (req : list byte) : M unit :=
  assert (stun_get_class req =? STUN_REQUEST);;
  stun_init STUN_RESPONSE (stun_get_method req) (stun_id req).

(** The error catalog of [stun_strerror]: [tab], with its terminating
    entry. *)
Definition tab : list (Z * string) :=
  [ (STUN_TRY_ALTERNATE, "Try alternate server");
    (STUN_BAD_REQUEST, "Bad request");
    (STUN_UNAUTHORIZED, "Authorization required");
    (STUN_UNKNOWN_ATTRIBUTE, "Unknown attribute");
    (STUN_STALE_CREDENTIALS, "Authentication expired");
    (STUN_INTEGRITY_CHECK_FAILURE, "Incorrect username/password");
    (STUN_MISSING_USERNAME, "Username required");
    (STUN_USE_TLS, "Secure connection required");
    (STUN_MISSING_REALM, "Authentication domain required");
    (STUN_MISSING_NONCE, "Authentication token missing");
    (STUN_UNKNOWN_USERNAME, "Unknown user name");
    (STUN_STALE_NONCE, "Authentication token expired");
    (STUN_ROLE_CONFLICT, "Role conflict");
    (STUN_SERVER_ERROR, "Temporary server error");
    (STUN_GLOBAL_FAILURE, "Unrecoverable failure");
    (0, "") ]%string.

(** The loop of [stun_strerror] from entry [i] on: it stops at the first
    entry whose phrase is empty. *)
Fixpoint stun_strerror_from (t : list (Z * string)) (code : Z) : string :=
  match t with
  | [] => "Unknown error"
  | (c, phrase) :: t' =>
      match phrase with
      | EmptyString => "Unknown error"
      | _ => if c =? code then phrase else stun_strerror_from t' code
      end
  end.

(** The bytes of the string returned (its NUL excluded). *)
Definition stun_strerror (code : Z) : list byte :=
  list_byte_of_string (stun_strerror_from tab code).

Section WithEnv.
Context `{Host} `{StunEnv}.

(** [stun_append (msg, msize, type, length)]: [None] is the NULL
    pointer, [Some a] the offset of the payload in [msg]. *)
Definition stun_append (msize : Z) (type : Z) (len : Z) : M (option Z) :=
  msg ← buffer;
  let mlen := uint16 (stun_length msg) in
  assert (stun_padding mlen =? 0);;
  let msize := if msize >? STUN_MAXMSG then STUN_MAXMSG else msize in
  if size_t (mlen + 24 + len) >? msize then mret None
  else
    assert (len <? 0xffff);;
    let a := 20 + mlen in
    a ← stun_setw a type;
    a ← stun_setw a len;
    let mlen := uint16 (mlen + (4 + len)) in
    memset (a + len) 32 (stun_padding len);;
    let mlen := uint16 (mlen + stun_padding len) in
    stun_setw 2 mlen;;
    mret (Some a).

Definition stun_append_bytes (msize : Z) (type : Z) (data : list byte)
    (len : Z) : M status :=
  ptr ← stun_append msize type len;
  match ptr with
  | None => mret ENOBUFS
  | Some ptr =>
      store ptr (take (Z.to_nat len) data);;
      mret Success
  end.

Definition stun_append_flag (msize : Z) (type : Z) : M status :=
  stun_append_bytes msize type [] 0.

Definition stun_append32 (msize : Z) (type : Z) (value : Z) : M status :=
  let value := htonl (uint32 value) in
  stun_append_bytes msize type (host_bytes 4 value) 4.

Definition stun_append64 (msize : Z) (type : Z) (value : Z) : M status :=
  let value := uint64 value in
  let tab0 := htonl (uint32 (Z.shiftr value 32)) in
  let tab1 := htonl (uint32 value) in
  stun_append_bytes msize type (host_bytes 4 tab0 ++ host_bytes 4 tab1) 8.

Definition stun_append_string (msize : Z) (type : Z) (str : list byte)
  : M status :=
  stun_append_bytes msize type str (strlen str).

Definition stun_append_error (msize : Z) (code : Z) : M status :=
  let str := stun_strerror code in
  let len := strlen str in
  let d_quot := Z.quot (to_int code) 100 in
  let d_rem := Z.rem (to_int code) 100 in
  ptr ← stun_append msize STUN_ERROR_CODE (size_t (4 + len));
  match ptr with
  | None => mret ENOBUFS
  | Some ptr =>
      memset ptr 0 2;;
      assert (d_quot <=? 0x7);;
      store (ptr + 2) [byte_of_Z d_quot];;
      store (ptr + 3) [byte_of_Z d_rem];;
      store (ptr + 4) (take (Z.to_nat len) str);;
      mret Success
  end.

Definition stun_init_error (msize : Z) (req : list byte) (err : Z)
  : M status :=
  stun_init STUN_ERROR (stun_get_method req) (stun_id req);;
  stun_append_error msize err.

Definition stun_append_addr (msize : Z) (type : Z) (addr : sockaddr)
    (addrlen : Z) : M status :=
  if addrlen <? sizeof_sockaddr then mret EINVAL
  else
    let append (family : Z) (port : Z) (alen : Z) (pa : list byte) :=
      ptr ← stun_append msize type (4 + alen);
      match ptr with
      | None => mret ENOBUFS
      | Some ptr =>
          store ptr [byte_of_Z 0];;
          store (ptr + 1) [byte_of_Z family];;
          store (ptr + 2) (host_bytes 2 port);;
          store (ptr + 4) (take (Z.to_nat alen) pa);;
          mret Success
      end in
    if sa_family addr =? AF_INET then
      assert (addrlen >=? sizeof_sockaddr_in);;
      append 1 (sin_port addr) 4 (host_bytes 4 (sin_addr addr))
    else if sa_family addr =? AF_INET6 then
      if addrlen <? sizeof_sockaddr_in6 then mret EINVAL
      else append 2 (sin_port addr) 16 (vec_to_list (sin6_addr addr))
    else mret EAFNOSUPPORT.

Definition stun_append_xor_addr (msize : Z) (type : Z) (addr : sockaddr)
    (addrlen : Z) : M status :=
  msg ← buffer;
  let '(val, xor) := stun_xor_address msg addr addrlen in
  match val with
  | Success => stun_append_addr msize type xor addrlen
  | _ => mret val
  end.

(** [stun_sha1 (msg, sha, key, keylen)] of [hmac.c]: the digest written
    to [sha]. *)
Definition stun_sha1 (msg : list byte) (key : list byte) (keylen : Z)
  : outcome (vec byte 20) :=
  let mlen := stun_length msg in
  if mlen >=? 32 then
    let mlen := size_t (mlen - 12) in
    Normal (HMAC_SHA1 (take (Z.to_nat keylen) key)
                      (take (Z.to_nat mlen) msg))
  else Abort.

(** [if (val) return val;] with [*plen] as it is. *)
Definition or_return (plen : Z) (c : M status) (k : M (status * Z))
  : M (status * Z) :=
  val ← c;
  match val with
  | Success => k
  | _ => mret (val, plen)
  end.

(** [stun_finish_long]: the result and the final [*plen].  A pointer
    argument is [None] when it is NULL. *)
Definition stun_finish_long (plen : Z)
    (realm username : option (list byte))
    (key : option (list byte)) (keylen : Z)
    (nonce : option (list byte)) (noncelen : Z) : M (status * Z) :=
  let len := plen in
  or_return plen
    (match realm with
     | Some realm => stun_append_string len STUN_REALM realm
     | None => mret Success
     end)
  (or_return plen
    (match username with
     | Some username => stun_append_string len STUN_USERNAME username
     | None => mret Success
     end)
  (or_return plen
    (match nonce with
     | Some nonce => stun_append_bytes len STUN_NONCE nonce noncelen
     | None => mret Success
     end)
  (let finish (sha : option Z) : M (status * Z) :=
     crc ← stun_append len STUN_FINGERPRINT 4;
     match crc with
     | None => mret (ENOBUFS, plen)
     | Some crc =>
         match sha with
         | Some sha =>
             msg ← buffer;
             digest ← lift (stun_sha1 msg (default [] key) keylen);
             store sha (vec_to_list digest)
         | None => mret tt
         end;;
         msg ← buffer;
         let fpr := htonl (uint32 (stun_fingerprint msg)) in
         store crc (host_bytes 4 fpr);;
         msg ← buffer;
         mret (Success, size_t (20 + stun_length msg))
     end in
   match key with
   | Some _ =>
       sha ← stun_append len STUN_MESSAGE_INTEGRITY 20;
       match sha with
       | None => mret (ENOBUFS, plen)
       | Some _ => finish sha
       end
   | None => finish None
   end))).

Definition stun_finish_short (plen : Z)
    (username password : option (list byte))
    (nonce : option (list byte)) (noncelen : Z) : M (status * Z) :=
  let passlen :=
    match password with Some p => strlen p | None => 0 end in
  stun_finish_long plen None username password passlen nonce noncelen.

Definition stun_finish (plen : Z) : M (status * Z) :=
  stun_finish_short plen None None None 0.
End WithEnv.

(** What the STUN parser provides to [stun_init_error_unknown]. *)
Class StunParser := {
  (** [stun_find_unknown (req, ids, max)]: the identifiers it stores in
      [ids], as many as the count it returns *)
  stun_find_unknown : list byte -> Z -> list Z
}.

Section WithParser.
Context `{Host} `{StunEnv} `{StunParser}.

(** [stun_init_error_unknown (ans, msize, req)].  The array [ids] has
    [stun_length (req) / 4] elements of 16 bits; [counter] is [unsigned]. *)
Definition stun_init_error_unknown (msize : Z) (req : list byte) : M status :=
  let max := stun_length req / 4 in
  assert (stun_get_class req =? STUN_REQUEST);;
  let ids := stun_find_unknown req max in
  let counter := uint32 (Z.of_nat (length ids)) in
  assert (counter >? 0);;
  val ← stun_init_error msize req STUN_UNKNOWN_ATTRIBUTE;
  match val with
  | Success =>
      let ids := map (fun id => htons (uint16 id)) ids in
      stun_append_bytes msize STUN_UNKNOWN_ATTRIBUTES
        (flat_map (host_bytes 2) ids) (uint32 (counter * 2))
  | _ => mret ENOBUFS
  end.
End WithParser.

End Stun.

(** ** Vocabulary of the properties *)

(** The size of an object in memory, which is what the [size_t] arguments
    of the builder are (at most [PTRDIFF_MAX]). *)
Definition object_size (n : Z) : Prop := 0 <= n < 2 ^ (SIZE_BITS - 1).

Section Vocabulary.
Import Stun.
Context `{Host} `{StunEnv}.

(** The buffer that a successful [stun_append (msg, msize, type, len)]
    leaves: the attribute header at the end of the message, the padding
    after the payload slot, the new length in the message header. *)
Definition reserved (msg : list byte) (type len : Z) : list byte :=
  let mlen := stun_length msg in
  let msg := memcpy_at msg (20 + mlen) (be_bytes 2 type) in
  let msg := memcpy_at msg (22 + mlen) (be_bytes 2 len) in
  let msg := memcpy_at msg (24 + mlen + len)
               (replicate (Z.to_nat (stun_padding len)) (byte_of_Z 32)) in
  memcpy_at msg 2 (be_bytes 2 (mlen + 4 + len + stun_padding len)).

(** [msg'] is [msg] with one more attribute of the given type and payload
    length: the length field has advanced over it, its header is where
    the message ended, and the message before it is as it was. *)
Definition appended (msg msg' : list byte) (type len : Z) : Prop :=
  length msg' = length msg /\
  stun_length msg' = stun_length msg + 4 + len + stun_padding len /\
  stun_getw msg' (20 + stun_length msg) = uint16 type /\
  stun_getw msg' (20 + stun_length msg + 2) = len /\
  forall i, 0 <= i < 2 \/ 4 <= i < 20 + stun_length msg ->
            load8 msg' i = load8 msg i.

(** The attributes of [msg] between two offsets, as (type, length) pairs
    in the order of the buffer: each is a 4-byte header, [length] bytes of
    payload and the padding to the next 4-byte boundary. *)
Inductive attrs_between (msg : list byte) : Z -> Z -> list (Z * Z) -> Prop :=
  | attrs_nil (off : Z) : attrs_between msg off off []
  | attrs_cons (off stop type len : Z) (l : list (Z * Z)) :
      0 <= off ->
      stun_getw msg off = type ->
      stun_getw msg (off + 2) = len ->
      attrs_between msg (off + 4 + len + stun_padding len) stop l ->
      attrs_between msg off stop ((type, len) :: l).

(** The attribute append operations of [stunsend.c], with their
    arguments. *)
Inductive append_op :=
  | op_append (type len : Z)
  | op_append_bytes (type : Z) (data : list byte) (len : Z)
  | op_append_flag (type : Z)
  | op_append32 (type value : Z)
  | op_append64 (type value : Z)
  | op_append_string (type : Z) (str : list byte)
  | op_append_error (code : Z)
  | op_append_addr (type : Z) (addr : sockaddr) (addrlen : Z)
  | op_append_xor_addr (type : Z) (addr : sockaddr) (addrlen : Z).

(** The call of an operation; the NULL of [stun_append] is its
    no-buffer-space result. *)
Definition run_append (msize : Z) (op : append_op) : M status :=
  match op with
  | op_append type len =>
      ptr ← stun_append msize type len;
      mret (match ptr with None => ENOBUFS | Some _ => Success end)
  | op_append_bytes type data len => stun_append_bytes msize type data len
  | op_append_flag type => stun_append_flag msize type
  | op_append32 type value => stun_append32 msize type value
  | op_append64 type value => stun_append64 msize type value
  | op_append_string type str => stun_append_string msize type str
  | op_append_error code => stun_append_error msize code
  | op_append_addr type addr addrlen =>
      stun_append_addr msize type addr addrlen
  | op_append_xor_addr type addr addrlen =>
      stun_append_xor_addr msize type addr addrlen
  end.

(** The payload of an address attribute: 4 bytes and the address. *)
Definition addr_payload_length (addr : sockaddr) : Z :=
  if sa_family addr =? AF_INET then 8 else 20.

(** The payload length of the attribute an operation appends to [msg]. *)
Definition payload_length (msg : list byte) (op : append_op) : Z :=
  match op with
  | op_append _ len | op_append_bytes _ _ len => len
  | op_append_flag _ => 0
  | op_append32 _ _ => 4
  | op_append64 _ _ => 8
  | op_append_string _ str => strlen str
  | op_append_error code => 4 + strlen (stun_strerror code)
  | op_append_addr _ addr _ => addr_payload_length addr
  | op_append_xor_addr _ addr addrlen =>
      addr_payload_length (stun_xor_address msg addr addrlen).2
  end.

Definition is_addr_op (op : append_op) : bool :=
  match op with
  | op_append_addr _ _ _ | op_append_xor_addr _ _ _ => true
  | _ => false
  end.

(** What the code asserts or takes for granted about the arguments: a
    length is the size of an object, an error code has a class of at
    most 7. *)
Definition op_precondition (op : append_op) : Prop :=
  match op with
  | op_append _ len | op_append_bytes _ _ len => object_size len
  | op_append_string _ str => object_size (strlen str)
  | op_append_error code => Z.quot code 100 <= 7
  | _ => True
  end.

(** The contract of the append operations as the specification words it:
    no buffer space and the length field unchanged, or success and the
    length field advanced over the attribute. *)
Definition append_contract_stated (msg : list byte) (op : append_op)
    (r : outcome (status * list byte)) : Prop :=
  exists st msg', r = Normal (st, msg') /\
    ((st = ENOBUFS /\ stun_length msg' = stun_length msg) \/
     (st = Success /\
      stun_length msg' = stun_length msg + 4 + payload_length msg op
                         + stun_padding (payload_length msg op) /\
      stun_length msg' mod 4 = 0)).

(** The contract the code keeps: a failure leaves the whole message as it
    was, and only the address appenders fail otherwise than for lack of
    space. *)
Definition append_contract (msg : list byte) (op : append_op)
    (r : outcome (status * list byte)) : Prop :=
  exists st msg', r = Normal (st, msg') /\
    ((st <> Success /\ msg' = msg /\ stun_length msg' = stun_length msg /\
      (is_addr_op op = false -> st = ENOBUFS)) \/
     (st = Success /\
      stun_length msg' = stun_length msg + 4 + payload_length msg op
                         + stun_padding (payload_length msg op) /\
      stun_length msg' mod 4 = 0)).

(** The two bytes that [stun_set_type] stores. *)
Definition type_byte0 (c m : Z) : Z :=
  Z.lor (Z.shiftr c 1) (Z.land (Z.shiftr m 6) 0x3e).

Definition type_byte1 (c m : Z) : Z :=
  Z.lor (Z.lor (Z.land (Z.shiftl c 4) 0x10) (Z.land (Z.shiftl m 1) 0xe0))
        (Z.land m 0x0f).

(** They are bytes, and the word they form passes the three assertions that
    end [stun_set_type]. *)
Definition set_type_ok (c m : Z) : bool :=
  let t := type_byte0 c m * 256 + type_byte1 c m in
  (0 <=? type_byte0 c m) && (type_byte0 c m <? 256) &&
  (0 <=? type_byte1 c m) && (type_byte1 c m <? 256) &&
  (t <? Z.shiftl 1 14) && (class_bits t =? c) && (method_bits t =? m).

(** The error catalog in the words of the specification (section 4.6), to
    compare [stun_strerror] with: the required entries, and "Unknown error"
    for every other code. *)
Definition error_catalog : list (Z * string) :=
  [ (300, "Try alternate server"); (400, "Bad request");
    (401, "Authorization required"); (420, "Unknown attribute");
    (430, "Authentication expired"); (431, "Incorrect username/password");
    (432, "Username required"); (433, "Secure connection required");
    (434, "Authentication domain required");
    (435, "Authentication token missing"); (436, "Unknown user name");
    (438, "Authentication token expired"); (487, "Role conflict");
    (500, "Temporary server error"); (600, "Unrecoverable failure") ]%string.

Fixpoint catalog_phrase (cat : list (Z * string)) (code : Z) : string :=
  match cat with
  | [] => "Unknown error"
  | (c, phrase) :: cat' =>
      if c =? code then phrase else catalog_phrase cat' code
  end.

(** The attributes that [stun_finish_long] appends, in its order. *)
Definition finish_attrs (realm username key nonce : option (list byte))
    (noncelen : Z) : list (Z * Z) :=
  match realm with Some r => [(STUN_REALM, strlen r)] | None => [] end ++
  match username with Some u => [(STUN_USERNAME, strlen u)] | None => [] end ++
  match nonce with Some _ => [(STUN_NONCE, noncelen)] | None => [] end ++
  match key with Some _ => [(STUN_MESSAGE_INTEGRITY, 20)] | None => [] end ++
  [(STUN_FINGERPRINT, 4)].

(** [msg] is [msg0] with the attributes [l] appended: the buffer has kept
    its size, the length field is aligned, and the attributes between the
    end of [msg0] and the end of [msg] are [l]. *)
Definition built (msg0 msg : list byte) (l : list (Z * Z)) : Prop :=
  length msg = length msg0 /\
  stun_padding (stun_length msg) = 0 /\
  attrs_between msg (20 + stun_length msg0) (20 + stun_length msg) l.

(** The identifiers that [n] successive calls of [stun_make_transid]
    produce. *)
Fixpoint transids (n : nat) (store_counter : Z) : list (list byte) :=
  match n with
  | O => []
  | S n' =>
      let '(id, store_counter') := stun_make_transid store_counter in
      id :: transids n' store_counter'
  end.

(** The bytes that an attribute of payload length [len] takes in a message:
    its header, its payload and its padding. *)
Definition attr_size (len : Z) : Z := 4 + len + stun_padding len.

Definition attrs_size (l : list (Z * Z)) : Z :=
  foldr (fun a s => attr_size a.2 + s) 0 l.

(** The attributes of [full] whose reservation succeeds, one after the
    other, in a message whose length field is [mlen] under the size limit
    [cap]: [stun_append] reserves an attribute of payload length [len] when
    [mlen + 24 + len] is within the limit, and the first one that is not
    ends the sequence. *)
Fixpoint reserved_attrs (cap mlen : Z) (full : list (Z * Z))
  : list (Z * Z) :=
  match full with
  | [] => []
  | (type, len) :: rest =>
      if mlen + 24 + len <=? cap
      then (type, len) :: reserved_attrs cap (mlen + attr_size len) rest
      else []
  end.

(** [msg] is [msg0] grown by the attributes [l]: it is built from it, and
    the message type, the cookie, the transaction identifier and the
    attributes of [msg0] are as they were. *)
Definition grown (msg0 msg : list byte) (l : list (Z * Z)) : Prop :=
  built msg0 msg l /\
  forall i, 0 <= i < 2 \/ 4 <= i < 20 + stun_length msg0 ->
            load8 msg i = load8 msg0 i.

(** The payloads that [stun_finish_long] computes, in a finished message:
    the digest of the bytes before the MESSAGE-INTEGRITY attribute under
    the key, and the fingerprint of the message as it stood before the
    fingerprint was stored. *)
Definition sealed (key : option (list byte)) (keylen : Z) (msg : list byte)
  : Prop :=
  let L := stun_length msg in
  (forall k, key = Some k ->
     bytes_at msg (L - 8) 20
     = vec_to_list (HMAC_SHA1 (take (Z.to_nat keylen) k)
                              (take (Z.to_nat (L - 12)) msg))) /\
  exists before,
    msg = memcpy_at before (L + 16) (be_bytes 4 (stun_fingerprint before)) /\
    stun_length before = L /\
    bytes_at msg (L + 16) 4 = be_bytes 4 (stun_fingerprint before).

(** The result of [stun_finish_long] on [msg0] with [*plen = plen], [full]
    being the attributes it is to append: the message has grown by those
    whose reservation succeeded; they all fit under the size limit, all are
    appended and [*plen] is the size of the message; or they do not, and
    the first ones only are appended. *)
Definition finish_result (msg0 : list byte) (plen : Z) (full : list (Z * Z))
    (Q : list byte -> Prop) (r : outcome ((status * Z) * list byte)) : Prop :=
  let cap := Z.min plen STUN_MAXMSG in
  exists ret plen' msg' l,
    r = Normal ((ret, plen'), msg') /\ grown msg0 msg' l /\
    l = reserved_attrs cap (stun_length msg0) full /\
    ((20 + stun_length msg0 + attrs_size full <= cap /\
      ret = Success /\ l = full /\ plen' = 20 + stun_length msg' /\ Q msg') \/
     (cap < 20 + stun_length msg0 + attrs_size full /\
      ret = ENOBUFS /\ plen' = plen /\ l <> full /\ l `prefix_of` full)).

(** The attributes [attrs], each a type and its payload, appended one after
    the other with [stun_append_bytes]; the first failure ends the sequence,
    as it does for a caller that checks each result. *)
Fixpoint append_all (msize : Z) (attrs : list (Z * list byte)) : M status :=
  match attrs with
  | [] => mret Success
  | (type, data) :: attrs' =>
      val ← stun_append_bytes msize type data (Z.of_nat (length data));
      match val with
      | Success => append_all msize attrs'
      | _ => mret val
      end
  end.

(** The attributes of [msg] between two offsets, with their payloads. *)
Inductive payloads_between (msg : list byte)
  : Z -> Z -> list (Z * list byte) -> Prop :=
  | payloads_nil (off : Z) : payloads_between msg off off []
  | payloads_cons (off stop type : Z) (data : list byte)
      (l : list (Z * list byte)) :
      0 <= off ->
      stun_getw msg off = type ->
      stun_getw msg (off + 2) = Z.of_nat (length data) ->
      bytes_at msg (off + 4) (Z.of_nat (length data)) = data ->
      payloads_between msg (off + attr_size (Z.of_nat (length data))) stop l ->
      payloads_between msg off stop ((type, data) :: l).

(** The bytes that the attributes take in a message. *)
Definition payloads_size (attrs : list (Z * list byte)) : Z :=
  attrs_size (map (fun a => (a.1, Z.of_nat (length a.2))) attrs).
End Vocabulary.

(** ** Hosts and environments of the examples *)

Definition little_endian_host : Host :=
  {| host_little_endian := true; inet_aton := fun _ => None |}.

Definition big_endian_host : Host :=
  {| host_little_endian := false; inet_aton := fun _ => None |}.

(** [STUN_MAXMSG] of libnice; the digest and the fingerprint are stand-ins,
    the examples do not depend on them. *)
Definition example_env : Stun.StunEnv :=
  {| Stun.STUN_MAXMSG := 65552;
     Stun.HMAC_SHA1 := fun _ _ => vreplicate 20 Byte.x00;
     Stun.stun_fingerprint := fun _ => 0;
     Stun.stun_xor_address := fun _ addr _ => (Stun.Success, addr) |}.

(** A digest function that tells its inputs of different lengths apart. *)
Definition length_env : Stun.StunEnv :=
  {| Stun.STUN_MAXMSG := 65552;
     Stun.HMAC_SHA1 := fun _ data =>
       vreplicate 20 (byte_of_Z (Z.of_nat (length data)));
     Stun.stun_fingerprint := fun _ => 0;
     Stun.stun_xor_address := fun _ addr _ => (Stun.Success, addr) |}.

(** A buffer of [n] zero bytes: after the header length field is read, an
    empty message. *)
Definition zero_buffer (n : nat) : list byte := replicate n Byte.x00.

(** A parser that finds the same two unknown attributes in every request. *)
Definition example_parser : Stun.StunParser :=
  {| Stun.stun_find_unknown := fun _ _ => [0x0042; 0x8030] |}.

(** A request with an empty transaction identifier whose length field says
    8 bytes of attributes. *)
Definition example_request : list byte :=
  memcpy_at (zero_buffer 28) 2 (be_bytes 2 8).

(** * Properties *)

(** ** Bytes and encodings *)

Lemma Z_of_byte_range (b : byte) : 0 <= Z_of_byte b < 256.
Proof.
  unfold Z_of_byte. pose proof (Byte.to_N_bounded b). lia.
Qed.

Lemma Z_of_byte_of_Z (z : Z) : Z_of_byte (byte_of_Z z) = z mod 256.
Proof.
  unfold Z_of_byte, byte_of_Z.
  pose proof (Z.mod_pos_bound z 256 eq_refl) as Hr.
  destruct (Byte.of_N (Z.to_N (z mod 256))) as [b|] eqn:E; simpl.
  - apply Byte.to_of_N in E. rewrite E. lia.
  - apply Byte.of_N_None_iff in E. lia.
Qed.

Lemma byte_of_Z_of_byte (b : byte) : byte_of_Z (Z_of_byte b) = b.
Proof.
  unfold byte_of_Z, Z_of_byte.
  pose proof (Byte.to_N_bounded b).
  rewrite Z.mod_small by lia.
  rewrite N2Z.id, Byte.of_to_N. reflexivity.
Qed.

Lemma Z_of_byte_inj (a b : byte) : Z_of_byte a = Z_of_byte b -> a = b.
Proof.
  intros E. rewrite <- (byte_of_Z_of_byte a), <- (byte_of_Z_of_byte b).
  now rewrite E.
Qed.

Lemma uint16_small (x : Z) : 0 <= x < 2 ^ 16 -> uint16 x = x.
Proof. apply Z.mod_small. Qed.

Lemma uint32_small (x : Z) : 0 <= x < 2 ^ 32 -> uint32 x = x.
Proof. apply Z.mod_small. Qed.

Lemma uint64_small (x : Z) : 0 <= x < 2 ^ 64 -> uint64 x = x.
Proof. apply Z.mod_small. Qed.

Lemma uint16_range (x : Z) : 0 <= uint16 x < 2 ^ 16.
Proof. apply Z.mod_pos_bound. reflexivity. Qed.

Lemma length_le_bytes (n : nat) (v : Z) : length (le_bytes n v) = n.
Proof. revert v. induction n as [|n IH]; intros v; simpl; auto. Qed.

Lemma length_be_bytes (n : nat) (v : Z) : length (be_bytes n v) = n.
Proof. unfold be_bytes. now rewrite length_rev, length_le_bytes. Qed.

Lemma le_value_range (l : list byte) : 0 <= le_value l < 256 ^ Z.of_nat (length l).
Proof.
  induction l as [|b l IH]; simpl le_value; simpl length.
  - simpl. lia.
  - pose proof (Z_of_byte_range b).
    rewrite Nat2Z.inj_succ, Z.pow_succ_r by lia. lia.
Qed.

Lemma le_value_le_bytes (n : nat) (v : Z) :
  le_value (le_bytes n v) = v mod 256 ^ Z.of_nat n.
Proof.
  revert v. induction n as [|n IH]; intros v.
  - simpl. now rewrite Z.mod_1_r.
  - simpl le_bytes. simpl le_value. rewrite IH, Z_of_byte_of_Z.
    rewrite Nat2Z.inj_succ, Z.pow_succ_r by lia.
    rewrite Z.rem_mul_r by lia. lia.
Qed.

Lemma le_bytes_le_value (l : list byte) :
  le_bytes (length l) (le_value l) = l.
Proof.
  induction l as [|b l IH]; simpl; [reflexivity|].
  pose proof (Z_of_byte_range b) as Hb.
  f_equal.
  - apply Z_of_byte_inj. rewrite Z_of_byte_of_Z.
    rewrite (Z.mul_comm 256), Z.mod_add by lia.
    now rewrite Z.mod_small.
  - rewrite (Z.mul_comm 256), Z.div_add by lia.
    rewrite Z.div_small by lia. simpl. exact IH.
Qed.

Lemma le_value_inj (l k : list byte) :
  length l = length k -> le_value l = le_value k -> l = k.
Proof.
  intros Hlen E. rewrite <- (le_bytes_le_value l), <- (le_bytes_le_value k).
  now rewrite Hlen, E.
Qed.

Section HostOrderFacts.
Context `{Host}.

Lemma length_host_bytes (n : nat) (v : Z) : length (host_bytes n v) = n.
Proof.
  unfold host_bytes.
  destruct host_little_endian; auto using length_le_bytes, length_be_bytes.
Qed.

Lemma host_bytes_host_value (l : list byte) :
  host_bytes (length l) (host_value l) = l.
Proof.
  unfold host_bytes, host_value, be_bytes, be_value.
  destruct host_little_endian.
  - apply le_bytes_le_value.
  - rewrite <- (length_rev l), le_bytes_le_value. apply rev_involutive.
Qed.

Lemma host_value_host_bytes (n : nat) (v : Z) :
  host_value (host_bytes n v) = v mod 256 ^ Z.of_nat n.
Proof.
  unfold host_bytes, host_value, be_bytes, be_value.
  destruct host_little_endian.
  - apply le_value_le_bytes.
  - rewrite rev_involutive. apply le_value_le_bytes.
Qed.

Lemma host_bytes_inj (n : nat) (v w : Z) :
  0 <= v < 256 ^ Z.of_nat n -> 0 <= w < 256 ^ Z.of_nat n ->
  host_bytes n v = host_bytes n w -> v = w.
Proof.
  intros Hv Hw E. apply (f_equal host_value) in E.
  rewrite !host_value_host_bytes in E.
  now rewrite !Z.mod_small in E by assumption.
Qed.

(** The bytes in memory of [htonl x] are the big-endian bytes of [x]. *)
Lemma host_bytes_htonl (x : Z) : host_bytes 4 (htonl x) = be_bytes 4 x.
Proof.
  unfold htonl.
  rewrite <- (length_be_bytes 4 x) at 1. apply host_bytes_host_value.
Qed.

Lemma host_bytes_htons (x : Z) : host_bytes 2 (htons x) = be_bytes 2 x.
Proof.
  unfold htons.
  rewrite <- (length_be_bytes 2 x) at 1. apply host_bytes_host_value.
Qed.

Lemma ntohl_htonl (x : Z) : ntohl (htonl x) = uint32 x.
Proof.
  unfold ntohl. rewrite host_bytes_htonl.
  unfold be_value, be_bytes. rewrite rev_involutive.
  now rewrite le_value_le_bytes.
Qed.

Lemma ntohs_htons (x : Z) : ntohs (htons x) = uint16 x.
Proof.
  unfold ntohs. rewrite host_bytes_htons.
  unfold be_value, be_bytes. rewrite rev_involutive.
  now rewrite le_value_le_bytes.
Qed.

Lemma ntohl_range (x : Z) : 0 <= ntohl x < 2 ^ 32.
Proof.
  unfold ntohl, be_value.
  pose proof (le_value_range (rev (host_bytes 4 x))) as Hr.
  rewrite length_rev, length_host_bytes in Hr. exact Hr.
Qed.

Lemma ntohs_range (x : Z) : 0 <= ntohs x < 2 ^ 16.
Proof.
  unfold ntohs, be_value.
  pose proof (le_value_range (rev (host_bytes 2 x))) as Hr.
  rewrite length_rev, length_host_bytes in Hr. exact Hr.
Qed.
End HostOrderFacts.

(** ** The C library's [inet_aton] on dotted quads *)

Lemma decimal_digit_value (d : Z) :
  0 <= d <= 9 ->
  Z_of_byte (decimal_digit d) = 48 + d /\
  digit_value (decimal_digit d) = Some d /\
  isdigit (decimal_digit d) = true.
Proof.
  intros Hd. unfold decimal_digit.
  assert (E : Z_of_byte (byte_of_Z (48 + d)) = 48 + d)
    by (rewrite Z_of_byte_of_Z; apply Z.mod_small; lia).
  unfold digit_value, isdigit. rewrite E. split; [reflexivity|].
  destruct (Z.leb_spec 48 (48 + d)); [|lia].
  destruct (Z.leb_spec (48 + d) 57); [|lia].
  simpl. split; [f_equal; lia|reflexivity].
Qed.

Lemma strtoul_digits_digit (base acc d : Z) (s : list byte) :
  0 <= d <= 9 -> d < base ->
  strtoul_digits base acc (decimal_digit d :: s)
  = strtoul_digits base (acc * base + d) s.
Proof.
  intros Hd Hb. simpl.
  destruct (decimal_digit_value d Hd) as (_ & -> & _).
  destruct (Z.ltb_spec d base); [reflexivity|lia].
Qed.

Lemma strtoul_digits_end (base acc : Z) (s : list byte) :
  number_end s -> strtoul_digits base acc s = (acc, s).
Proof. intros [->|[r ->]]; reflexivity. Qed.

Lemma decimal_digit_zero (d : Z) :
  0 <= d <= 9 -> decimal_digit d = Byte.x30 <-> d = 0.
Proof.
  intros Hd. split; [|intros ->; reflexivity].
  intros E. apply (f_equal Z_of_byte) in E.
  destruct (decimal_digit_value d Hd) as (Ev & _). rewrite Ev in E.
  change (Z_of_byte Byte.x30) with 48 in E. lia.
Qed.

Lemma strtoul_decimal (n : Z) (s : list byte) :
  0 <= n < 256 -> number_end s -> strtoul (decimal n ++ s) = (n, s).
Proof.
  intros Hn Hs. unfold decimal.
  destruct (Z.ltb_spec n 10) as [H10|H10];
    [|destruct (Z.ltb_spec n 100) as [H100|H100]].
  - simpl app. unfold strtoul.
    destruct (decide (decimal_digit n = Byte.x30)) as [E|E].
    + assert (Hn0 : 0 <= n <= 9) by lia.
      pose proof (proj1 (decimal_digit_zero n Hn0) E) as ->.
      destruct Hs as [->|[r ->]]; reflexivity.
    + rewrite strtoul_digits_digit by lia.
      rewrite strtoul_digits_end by exact Hs. f_equal; lia.
  - simpl app. unfold strtoul.
    assert (Hd : 1 <= n / 10 <= 9 /\ 0 <= n mod 10 <= 9)
      by (Z.to_euclidean_division_equations; lia).
    destruct (decide (decimal_digit (n / 10) = Byte.x30)) as [E|E].
    { assert (Hn0 : 0 <= n / 10 <= 9) by lia.
      pose proof (proj1 (decimal_digit_zero _ Hn0) E). lia. }
    rewrite !strtoul_digits_digit by lia.
    rewrite strtoul_digits_end by exact Hs.
    f_equal; Z.to_euclidean_division_equations; lia.
  - simpl app. unfold strtoul.
    assert (Hd : 1 <= n / 100 <= 9 /\ 0 <= n / 10 mod 10 <= 9
                 /\ 0 <= n mod 10 <= 9)
      by (Z.to_euclidean_division_equations; lia).
    destruct (decide (decimal_digit (n / 100) = Byte.x30)) as [E|E].
    { assert (Hn0 : 0 <= n / 100 <= 9) by lia.
      pose proof (proj1 (decimal_digit_zero _ Hn0) E). lia. }
    rewrite !strtoul_digits_digit by lia.
    rewrite strtoul_digits_end by exact Hs.
    f_equal; Z.to_euclidean_division_equations; lia.
Qed.

Lemma decimal_head (n : Z) :
  0 <= n < 256 ->
  exists d tl, decimal n = decimal_digit d :: tl /\ 0 <= d <= 9.
Proof.
  intros Hn. unfold decimal.
  destruct (Z.ltb_spec n 10); [|destruct (Z.ltb_spec n 100)];
    eexists _, _; (split; [reflexivity|]);
    Z.to_euclidean_division_equations; lia.
Qed.

Lemma inet_aton_round_dot (le : bool) (parts : list byte) (n : Z)
    (r : list byte) :
  0 <= n < 256 -> (length parts <= 2)%nat ->
  inet_aton_round le parts (decimal n ++ Byte.x2e :: r)
  = aton_next (parts ++ [byte_of_Z n]) r.
Proof.
  intros Hn Hp. unfold inet_aton_round.
  rewrite strtoul_decimal by (eauto; right; eauto).
  destruct (decimal_head n Hn) as (d & tl & -> & Hd). simpl app.
  destruct (decimal_digit_value d Hd) as (_ & _ & ->).
  destruct (Z.gtb_spec n 0xffffffff); [lia|].
  destruct (decide (Byte.x2e = Byte.x2e)); [|congruence].
  destruct (Z.ltb_spec 2 (Z.of_nat (length parts))); [lia|].
  destruct (Z.gtb_spec n 0xff); [lia|]. reflexivity.
Qed.

Lemma inet_aton_round_last (le : bool) (parts : list byte) (n : Z) :
  0 <= n < 256 -> length parts = 3%nat ->
  inet_aton_round le parts (decimal n)
  = aton_done (let bytes := parts ++ [byte_of_Z n] in
               if le then le_value bytes else be_value bytes).
Proof.
  intros Hn Hp.
  assert (Es : strtoul (decimal n) = (n, [])).
  { rewrite <- (app_nil_r (decimal n)).
    apply strtoul_decimal; [exact Hn|now left]. }
  unfold inet_aton_round. rewrite Es.
  destruct (decimal_head n Hn) as (d & tl & -> & Hd).
  destruct (decimal_digit_value d Hd) as (_ & _ & ->).
  destruct (Z.gtb_spec n 0xffffffff); [lia|].
  rewrite Hp. change (256 ^ (4 - Z.of_nat 3)) with 256.
  destruct (Z.ltb_spec n 256); [|lia]. reflexivity.
Qed.

Lemma length_decimal (n : Z) : (1 <= length (decimal n))%nat.
Proof.
  unfold decimal. destruct (n <? 10); [|destruct (n <? 100)]; simpl; lia.
Qed.

Lemma libc_inet_aton_dotted_quad (le : bool) (a b c d : Z) :
  0 <= a < 256 -> 0 <= b < 256 -> 0 <= c < 256 -> 0 <= d < 256 ->
  libc_inet_aton le (dotted_quad a b c d)
  = Some (let bytes := [byte_of_Z a; byte_of_Z b; byte_of_Z c; byte_of_Z d] in
          if le then le_value bytes else be_value bytes).
Proof.
  intros Ha Hb Hc Hd. unfold libc_inet_aton.
  assert (Hlen : (3 <= length (dotted_quad a b c d))%nat).
  { unfold dotted_quad. repeat (rewrite length_app; simpl length).
    pose proof (length_decimal a). lia. }
  replace (S (length (dotted_quad a b c d)))
    with (S (S (S (S (length (dotted_quad a b c d) - 3))))) by lia.
  unfold dotted_quad. cbn [inet_aton_rounds].
  rewrite inet_aton_round_dot by (simpl; lia).
  rewrite inet_aton_round_dot by (simpl; lia).
  rewrite inet_aton_round_dot by (simpl; lia).
  rewrite inet_aton_round_last by (simpl; lia). reflexivity.
Qed.

(** A round that goes on has read at least two characters: the rounds never
    run out. *)
Lemma strtoul_digits_suffix (base acc : Z) (s : list byte) :
  (length (strtoul_digits base acc s).2 <= length s)%nat.
Proof.
  revert acc. induction s as [|c s IH]; intros acc; simpl; [lia|].
  destruct (digit_value c) as [d|]; [|simpl; lia].
  destruct (d <? base); [|simpl; lia].
  specialize (IH (acc * base + d)). lia.
Qed.

Lemma strtoul_suffix (cp : list byte) :
  (length (strtoul cp).2 <= length cp)%nat.
Proof.
  unfold strtoul. destruct cp as [|c0 s1]; [simpl; lia|].
  destruct (decide (c0 = Byte.x30)); [|apply strtoul_digits_suffix].
  destruct s1 as [|x s2]; [simpl; lia|].
  destruct (bool_decide (x = Byte.x78 \/ x = Byte.x58)).
  - destruct s2 as [|h s3]; [simpl; lia|].
    destruct (digit_value h); [|simpl; lia].
    pose proof (strtoul_digits_suffix 16 0 (h :: s3)). simpl in *. lia.
  - pose proof (strtoul_digits_suffix 8 0 (x :: s2)). simpl in *. lia.
Qed.

Lemma inet_aton_round_next (le : bool) (parts cp parts' cp' : list byte) :
  inet_aton_round le parts cp = aton_next parts' cp' ->
  (length cp' < length cp)%nat.
Proof.
  unfold inet_aton_round. destruct cp as [|c cp0]; [discriminate|].
  destruct (isdigit c); [|discriminate].
  pose proof (strtoul_suffix (c :: cp0)) as Hs.
  destruct (strtoul (c :: cp0)) as [val cp1]. simpl in Hs.
  destruct (val >? 0xffffffff); [discriminate|].
  destruct cp1 as [|c' cp'']. 
  { destruct (val <? _); discriminate. }
  destruct (decide (c' = Byte.x2e)).
  - destruct (_ || _); [discriminate|]. intros [= _ <-]. simpl in *. lia.
  - destruct (_ || _); [|discriminate]. destruct (val <? _); discriminate.
Qed.

Lemma inet_aton_rounds_fuel (n m : nat) (le : bool) (parts cp : list byte) :
  (length cp < n)%nat -> (length cp < m)%nat ->
  inet_aton_rounds n le parts cp = inet_aton_rounds m le parts cp.
Proof.
  revert m parts cp. induction n as [|n IH]; intros m parts cp Hn Hm; [lia|].
  destruct m as [|m]; [lia|]. simpl.
  destruct (inet_aton_round le parts cp) as [| |parts' cp'] eqn:E;
    [reflexivity..|].
  apply inet_aton_round_next in E. apply IH; lia.
Qed.

(** ** address/address.c *)

Section AddressFacts.
Import Address.
Context `{Host}.

Lemma memcmp_eq_refl (a : list byte) (n : Z) : memcmp_eq a a n = true.
Proof. unfold memcmp_eq. now apply bool_decide_eq_true. Qed.

(** C8. For every address [a] whose type is IPv4 or IPv6, copying it to a
    socket address with [nice_address_copy_to_sockaddr] and reading that
    back with [nice_address_set_from_sockaddr] into any address gives an
    address [a'] with [nice_address_equal (a, a')] true: same type, same
    address bytes, same port. *)
Theorem nice_address_sockaddr_roundtrip
    (a fresh : NiceAddress) (sin : sockaddr) :
  NiceAddress_wf a ->
  type a = NICE_ADDRESS_TYPE_IPV4 \/ type a = NICE_ADDRESS_TYPE_IPV6 ->
  exists sin' a',
    nice_address_copy_to_sockaddr a sin = Normal sin' /\
    nice_address_set_from_sockaddr fresh sin' = Normal a' /\
    nice_address_equal a a' = Normal true /\
    type a' = type a /\ port a' = port a /\
    (type a = NICE_ADDRESS_TYPE_IPV4 -> addr_ipv4 a' = addr_ipv4 a) /\
    (type a = NICE_ADDRESS_TYPE_IPV6 -> addr_ipv6 a' = addr_ipv6 a).
Proof.
  intros [Hv4 Hport] Hty.
  unfold nice_address_copy_to_sockaddr, nice_address_set_from_sockaddr,
    nice_address_equal.
  destruct Hty as [Hty|Hty]; rewrite Hty; simpl;
    (eexists _, _; split; [reflexivity|]; simpl; split; [reflexivity|]);
    simpl; rewrite ?ntohl_htonl, ntohs_htons;
    rewrite ?(uint32_small (addr_ipv4 a)), ?(uint16_small (port a))
      by assumption;
    rewrite ?Hty; simpl;
    rewrite !Z.eqb_refl, ?memcmp_eq_refl; simpl;
    (repeat split; auto; intros E; discriminate E).
Qed.

Lemma be_value_quad (a b c d : Z) :
  0 <= a < 256 -> 0 <= b < 256 -> 0 <= c < 256 -> 0 <= d < 256 ->
  be_value [byte_of_Z a; byte_of_Z b; byte_of_Z c; byte_of_Z d]
  = a * 2 ^ 24 + b * 2 ^ 16 + c * 2 ^ 8 + d.
Proof.
  intros Ha Hb Hc Hd. unfold be_value. simpl rev. simpl le_value.
  rewrite !Z_of_byte_of_Z, !Z.mod_small by lia.
  change (2 ^ 24) with 16777216. change (2 ^ 16) with 65536.
  change (2 ^ 8) with 256. lia.
Qed.

(** C9. [nice_address_set_ipv4_from_string (addr, s)] returns TRUE exactly
    when [inet_aton] accepts [s].  With the [inet_aton] of the C library it
    returns TRUE on every valid dotted quad [a.b.c.d], and the address
    becomes IPv4 and holds the value [a * 2^24 + b * 2^16 + c * 2^8 + d] in
    host order, on a host of either byte order, its IPv6 member and its
    port untouched.  Whenever it returns TRUE the address is IPv4 and holds
    [ntohl] of the address that [inet_aton] stored; when it returns FALSE
    every field of the address (type, address, port) is left unchanged. *)
Theorem nice_address_set_ipv4_from_string_spec (le : bool)
    (addr : NiceAddress) (s : list byte) :
  (forall a b c d,
     0 <= a < 256 -> 0 <= b < 256 -> 0 <= c < 256 -> 0 <= d < 256 ->
     s = dotted_quad a b c d ->
     @nice_address_set_ipv4_from_string (libc_host le) addr s
     = (true, mk_NiceAddress NICE_ADDRESS_TYPE_IPV4
                (a * 2 ^ 24 + b * 2 ^ 16 + c * 2 ^ 8 + d)
                (addr_ipv6 addr) (port addr))) /\
  (let '(ret, addr') := nice_address_set_ipv4_from_string addr s in
   (ret = true ->
      exists s_addr, inet_aton s = Some s_addr /\
        type addr' = NICE_ADDRESS_TYPE_IPV4 /\
        addr_ipv4 addr' = ntohl s_addr /\
        addr_ipv6 addr' = addr_ipv6 addr /\ port addr' = port addr) /\
   (ret = false ->
      inet_aton s = None /\ addr' = addr /\ type addr' = type addr /\
      addr_ipv4 addr' = addr_ipv4 addr /\
      addr_ipv6 addr' = addr_ipv6 addr /\ port addr' = port addr)).
Proof.
  split.
  - intros a b c d Ha Hb Hc Hd ->.
    unfold nice_address_set_ipv4_from_string.
    change (@inet_aton (libc_host le) (dotted_quad a b c d))
      with (libc_inet_aton le (dotted_quad a b c d)).
    rewrite libc_inet_aton_dotted_quad by assumption. cbv zeta.
    unfold nice_address_set_ipv4. do 2 f_equal.
    set (bytes := [byte_of_Z a; byte_of_Z b; byte_of_Z c; byte_of_Z d]).
    change (if le then le_value bytes else be_value bytes)
      with (@host_value (libc_host le) bytes).
    rewrite uint32_small by apply ntohl_range.
    unfold ntohl. change 4%nat with (length bytes).
    rewrite host_bytes_host_value. now apply be_value_quad.
  - unfold nice_address_set_ipv4_from_string.
    destruct (inet_aton s) as [v|] eqn:E.
    + split; [|discriminate]. intros _. exists v. simpl.
      rewrite uint32_small by apply ntohl_range. auto.
    + split; [discriminate|]. intros _. repeat split.
Qed.

(** C10. [nice_address_set_ipv4] and [nice_address_set_ipv6] leave the
    port as it was, whatever the address held before; so setting the port
    and setting the address give the same address in either order. *)
Theorem nice_address_set_keeps_port
    (addr : NiceAddress) (v4 : Z) (v6 : vec byte 16) (p : Z) :
  port (nice_address_set_ipv4 addr v4) = port addr /\
  port (nice_address_set_ipv6 addr v6) = port addr /\
  nice_address_set_ipv4 (set_port addr p) v4
    = set_port (nice_address_set_ipv4 addr v4) p /\
  nice_address_set_ipv6 (set_port addr p) v6
    = set_port (nice_address_set_ipv6 addr v6) p.
Proof. repeat split. Qed.
End AddressFacts.

(** ** Message buffers *)

Lemma byte_of_Z_mod (a b : Z) : a mod 256 = b mod 256 -> byte_of_Z a = byte_of_Z b.
Proof. unfold byte_of_Z. now intros ->. Qed.

Lemma lor_shiftl_8 (a b : Z) : 0 <= b < 256 -> Z.lor (Z.shiftl a 8) b = a * 256 + b.
Proof.
  intros Hb.
  assert (Hland : Z.land (Z.shiftl a 8) b = 0).
  { apply Z.bits_inj'. intros n Hn.
    rewrite Z.land_spec, Z.bits_0.
    destruct (Z.ltb_spec n 8) as [Hlt|Hge].
    - rewrite Z.shiftl_spec_low by lia. reflexivity.
    - rewrite (Z.bits_above_log2 b n); [apply andb_false_r|lia|].
      destruct (Z.eq_dec b 0) as [->|Hnz]; [simpl; lia|].
      apply Z.log2_lt_pow2; [lia|].
      apply Z.lt_le_trans with (2 ^ 8); [simpl; lia|].
      apply Z.pow_le_mono_r; lia. }
  rewrite <- Z.lxor_lor by exact Hland.
  rewrite <- Z.add_nocarry_lxor by exact Hland.
  rewrite Z.shiftl_mul_pow2 by lia. reflexivity.
Qed.

Lemma mod4_advance (l n p : Z) :
  l mod 4 = 0 -> (n + p) mod 4 = 0 -> (l + 4 + n + p) mod 4 = 0.
Proof. intros Hl Hn. Z.to_euclidean_division_equations. lia. Qed.

Lemma length_memcpy_at (msg : list byte) (off : Z) (src : list byte) :
  length (memcpy_at msg off src) = length msg.
Proof. apply length_inserts. Qed.

Lemma load8_range (msg : list byte) (i : Z) : 0 <= load8 msg i < 256.
Proof.
  unfold load8. destruct (msg !! Z.to_nat i); simpl.
  - apply Z_of_byte_range.
  - lia.
Qed.

(** A store does not change the bytes outside of its range. *)
Lemma load8_memcpy_at_out (msg : list byte) (off : Z) (src : list byte) (i : Z) :
  0 <= off -> 0 <= i -> i < off \/ off + Z.of_nat (length src) <= i ->
  load8 (memcpy_at msg off src) i = load8 msg i.
Proof.
  intros Hoff Hi Hout. unfold load8, memcpy_at.
  destruct Hout as [Hlt|Hge].
  - rewrite list_lookup_inserts_lt by lia. reflexivity.
  - rewrite list_lookup_inserts_ge by lia. reflexivity.
Qed.

(** Inside the range, and inside the buffer, it reads the byte stored. *)
Lemma load8_memcpy_at_in (msg : list byte) (off : Z) (src : list byte) (i : Z) :
  0 <= off <= i -> i < off + Z.of_nat (length src) ->
  i < Z.of_nat (length msg) ->
  load8 (memcpy_at msg off src) i
    = from_option Z_of_byte 0 (src !! Z.to_nat (i - off)).
Proof.
  intros Hoff Hi Hlen. unfold load8, memcpy_at.
  rewrite list_lookup_inserts by lia.
  replace (Z.to_nat i - Z.to_nat off)%nat with (Z.to_nat (i - off)) by lia.
  reflexivity.
Qed.

(** Two adjacent stores are one store. *)
Lemma memcpy_at_app (msg : list byte) (off : Z) (a b : list byte) :
  0 <= off ->
  memcpy_at (memcpy_at msg off a) (off + Z.of_nat (length a)) b
    = memcpy_at msg off (a ++ b).
Proof.
  intros Hoff. unfold memcpy_at. rewrite list_inserts_app_l.
  f_equal. lia.
Qed.

Lemma bytes_at_memcpy_at (msg : list byte) (off : Z) (src : list byte) :
  0 <= off -> off + Z.of_nat (length src) <= Z.of_nat (length msg) ->
  bytes_at (memcpy_at msg off src) off (Z.of_nat (length src)) = src.
Proof.
  intros Hoff Hlen. unfold bytes_at, memcpy_at.
  apply list_eq. intros i.
  destruct (decide (i < length src)%nat) as [Hi|Hi].
  - rewrite lookup_take_lt by lia. rewrite lookup_drop.
    rewrite list_lookup_inserts by lia. f_equal. lia.
  - rewrite lookup_take_ge by lia. symmetry. apply lookup_ge_None. lia.
Qed.

(** Bytes outside of a store are read as before. *)
Lemma bytes_at_memcpy_at_out (msg : list byte) (off : Z) (src : list byte)
    (p n : Z) :
  0 <= off -> 0 <= p -> 0 <= n ->
  p + n <= off \/ off + Z.of_nat (length src) <= p ->
  bytes_at (memcpy_at msg off src) p n = bytes_at msg p n.
Proof.
  intros Hoff Hp Hn Hout. unfold bytes_at, memcpy_at.
  apply list_eq. intros i.
  destruct (decide (i < Z.to_nat n)%nat) as [Hi|Hi].
  - rewrite !lookup_take_lt by lia. rewrite !lookup_drop.
    destruct Hout as [Hlt|Hge].
    + apply list_lookup_inserts_lt. lia.
    + apply list_lookup_inserts_ge. lia.
  - rewrite !lookup_take_ge by lia. reflexivity.
Qed.

(** ** stun/stunsend.c: reading and writing the header *)

Section StunFacts.
Import Stun.
Context `{Host} `{StunEnv}.

Lemma stun_padding_range (n : Z) : 0 <= stun_padding n < 4.
Proof. unfold stun_padding. Z.to_euclidean_division_equations. lia. Qed.

Lemma stun_padding_aligns (n : Z) : (n + stun_padding n) mod 4 = 0.
Proof. unfold stun_padding. Z.to_euclidean_division_equations. lia. Qed.

Lemma stun_padding_0 (n : Z) : stun_padding n = 0 <-> n mod 4 = 0.
Proof. unfold stun_padding. Z.to_euclidean_division_equations. lia. Qed.

Lemma stun_getw_eq (msg : list byte) (p : Z) :
  stun_getw msg p = load8 msg p * 256 + load8 msg (p + 1).
Proof. unfold stun_getw. apply lor_shiftl_8, load8_range. Qed.

Lemma stun_getw_range (msg : list byte) (p : Z) : 0 <= stun_getw msg p < 65536.
Proof.
  rewrite stun_getw_eq.
  pose proof (load8_range msg p). pose proof (load8_range msg (p + 1)). lia.
Qed.

Lemma stun_length_range (msg : list byte) : 0 <= stun_length msg < 65536.
Proof. apply stun_getw_range. Qed.

(** Words that no store touched are read as before. *)
Lemma stun_getw_frame (msg msg' : list byte) (p : Z) :
  load8 msg' p = load8 msg p -> load8 msg' (p + 1) = load8 msg (p + 1) ->
  stun_getw msg' p = stun_getw msg p.
Proof. intros E0 E1. unfold stun_getw. now rewrite E0, E1. Qed.

Lemma stun_getw_memcpy_at_out (msg : list byte) (off : Z) (src : list byte)
    (p : Z) :
  0 <= off -> 0 <= p -> p + 2 <= off \/ off + Z.of_nat (length src) <= p ->
  stun_getw (memcpy_at msg off src) p = stun_getw msg p.
Proof.
  intros Hoff Hp Hout.
  apply stun_getw_frame; apply load8_memcpy_at_out; lia.
Qed.

(** [stun_setw] stores the two bytes of the value, high byte first. *)
Lemma stun_setw_run (ptr value : Z) (msg : list byte) :
  0 <= ptr ->
  stun_setw ptr value msg
    = Normal (ptr + 2, memcpy_at msg ptr (be_bytes 2 value)).
Proof.
  intros Hptr. unfold stun_setw, store, mbind, M_bind, mret, M_ret.
  f_equal. f_equal.
  change [byte_of_Z (Z.shiftr (uint16 value) 8)]
    with ([byte_of_Z (Z.shiftr (uint16 value) 8)] ++ []).
  replace (ptr + 1)
    with (ptr + Z.of_nat (length [byte_of_Z (Z.shiftr (uint16 value) 8)]))
    by (simpl; lia).
  rewrite memcpy_at_app by lia. f_equal.
  unfold be_bytes. simpl. f_equal; [|f_equal]; apply byte_of_Z_mod.
  - rewrite Z.shiftr_div_pow2 by lia. unfold uint16.
    change (2 ^ 16) with 65536. change (2 ^ 8) with 256.
    Z.to_euclidean_division_equations. lia.
  - change 255 with (Z.ones 8). rewrite Z.land_ones by lia. unfold uint16.
    change (2 ^ 16) with 65536. change (2 ^ 8) with 256.
    Z.to_euclidean_division_equations. lia.
Qed.

Lemma stun_getw_setw (msg : list byte) (p value : Z) :
  0 <= p -> p + 2 <= Z.of_nat (length msg) ->
  stun_getw (memcpy_at msg p (be_bytes 2 value)) p = uint16 value.
Proof.
  intros Hp Hlen. rewrite stun_getw_eq.
  rewrite !load8_memcpy_at_in by (rewrite ?length_be_bytes; lia).
  replace (Z.to_nat (p - p)) with 0%nat by lia.
  replace (Z.to_nat (p + 1 - p)) with 1%nat by lia.
  unfold be_bytes. simpl. rewrite !Z_of_byte_of_Z. unfold uint16.
  change (2 ^ 16) with 65536.
  Z.to_euclidean_division_equations. lia.
Qed.
(** ** stun/stunsend.c: [stun_append] *)

Lemma size_t_small (x : Z) : 0 <= x < 2 ^ 64 -> size_t x = x.
Proof. apply Z.mod_small. Qed.

Lemma cap_min (msize m : Z) : (if msize >? m then m else msize) = Z.min msize m.
Proof. destruct (Z.gtb_spec msize m); lia. Qed.

Lemma stun_append_success (msize type len : Z) (msg : list byte) :
  stun_padding (stun_length msg) = 0 -> object_size len ->
  STUN_MAXMSG <= 65552 ->
  stun_length msg + 24 + len <= Z.min msize STUN_MAXMSG ->
  stun_append msize type len msg
    = Normal (Some (24 + stun_length msg), reserved msg type len).
Proof.
  intros Hal [Hl0 Hl1] Hmax Hfit.
  pose proof (stun_length_range msg) as HL.
  pose proof (stun_padding_range len) as Hpad.
  change (2 ^ (SIZE_BITS - 1)) with 9223372036854775808 in Hl1.
  unfold stun_append, mbind, M_bind, buffer.
  rewrite (uint16_small (stun_length msg)) by exact HL.
  rewrite Hal, cap_min. unfold assert at 1. simpl (0 =? 0).
  rewrite size_t_small by (change (2 ^ 64) with 18446744073709551616; lia).
  destruct (Z.gtb_spec (stun_length msg + 24 + len) (Z.min msize STUN_MAXMSG))
    as [Hgt|_]; [lia|].
  unfold assert. destruct (Z.ltb_spec len 65535) as [_|Hge]; [|lia].
  rewrite !stun_setw_run by lia. unfold memset, store, mret, M_ret.
  rewrite !stun_setw_run by lia.
  unfold reserved.
  rewrite (uint16_small (stun_length msg + (4 + len))) by lia.
  rewrite uint16_small by lia.
  replace (20 + stun_length msg + 2 + 2 + len)
    with (24 + stun_length msg + len) by lia.
  replace (20 + stun_length msg + 2 + 2) with (24 + stun_length msg) by lia.
  replace (20 + stun_length msg + 2) with (22 + stun_length msg) by lia.
  replace (stun_length msg + (4 + len) + stun_padding len)
    with (stun_length msg + 4 + len + stun_padding len) by lia.
  reflexivity.
Qed.

Lemma stun_append_nospace (msize type len : Z) (msg : list byte) :
  stun_padding (stun_length msg) = 0 -> object_size len ->
  stun_length msg + 24 + len > Z.min msize STUN_MAXMSG ->
  stun_append msize type len msg = Normal (None, msg).
Proof.
  intros Hal [Hl0 Hl1] Hfit.
  pose proof (stun_length_range msg) as HL.
  change (2 ^ (SIZE_BITS - 1)) with 9223372036854775808 in Hl1.
  unfold stun_append, mbind, M_bind, buffer.
  rewrite (uint16_small (stun_length msg)) by exact HL.
  rewrite Hal, cap_min. unfold assert at 1. simpl (0 =? 0).
  rewrite size_t_small by (change (2 ^ 64) with 18446744073709551616; lia).
  destruct (Z.gtb_spec (stun_length msg + 24 + len) (Z.min msize STUN_MAXMSG))
    as [_|Hle]; [reflexivity|lia].
Qed.

Lemma length_reserved (msg : list byte) (type len : Z) :
  length (reserved msg type len) = length msg.
Proof. unfold reserved. now rewrite !length_memcpy_at. Qed.

Ltac side := rewrite ?length_be_bytes, ?length_replicate, ?length_memcpy_at; lia.

Lemma stun_length_reserved (msg : list byte) (type len : Z) :
  4 <= Z.of_nat (length msg) -> 0 <= len ->
  stun_length msg + 4 + len + stun_padding len < 65536 ->
  stun_length (reserved msg type len)
    = stun_length msg + 4 + len + stun_padding len.
Proof.
  intros Hlen Hl Hsmall.
  pose proof (stun_length_range msg) as HL.
  pose proof (stun_padding_range len) as Hpad.
  unfold reserved, stun_length at 1.
  rewrite stun_getw_setw by side.
  apply uint16_small. lia.
Qed.

Lemma load8_reserved (msg : list byte) (type len i : Z) :
  0 <= len -> 0 <= i < 2 \/ 4 <= i < 20 + stun_length msg ->
  load8 (reserved msg type len) i = load8 msg i.
Proof.
  intros Hl Hi.
  pose proof (stun_length_range msg) as HL.
  unfold reserved.
  rewrite !load8_memcpy_at_out by side. reflexivity.
Qed.

Lemma stun_getw_reserved (msg : list byte) (type len : Z) :
  0 <= len -> 24 + stun_length msg <= Z.of_nat (length msg) ->
  stun_getw (reserved msg type len) (20 + stun_length msg) = uint16 type /\
  stun_getw (reserved msg type len) (20 + stun_length msg + 2) = uint16 len.
Proof.
  intros Hl Hlen.
  pose proof (stun_length_range msg) as HL.
  unfold reserved. split.
  - rewrite !stun_getw_memcpy_at_out by side.
    apply stun_getw_setw; side.
  - rewrite !(stun_getw_memcpy_at_out _ _ _ (20 + stun_length msg + 2)) by side.
    replace (20 + stun_length msg + 2) with (22 + stun_length msg) by lia.
    apply stun_getw_setw; side.
Qed.

Lemma appended_reserved (msg : list byte) (type len : Z) :
  0 <= len -> 24 + stun_length msg <= Z.of_nat (length msg) ->
  stun_length msg + 4 + len + stun_padding len < 65536 ->
  appended msg (reserved msg type len) type len.
Proof.
  intros Hl Hlen Hsmall. pose proof (stun_length_range msg) as HL.
  destruct (stun_getw_reserved msg type len Hl Hlen) as [Ht Hn].
  repeat split.
  - apply length_reserved.
  - apply stun_length_reserved; lia.
  - exact Ht.
  - rewrite Hn. apply uint16_small.
    pose proof (stun_padding_range len). lia.
  - intros i Hi. apply load8_reserved; assumption.
Qed.

(** Writing the payload, or anything after the attribute header, keeps
    the attribute. *)
Lemma appended_store (msg msg' : list byte) (type len off : Z)
    (src : list byte) :
  appended msg msg' type len -> 24 + stun_length msg <= off ->
  appended msg (memcpy_at msg' off src) type len.
Proof.
  intros (Hlen & HL & Ht & Hn & Hframe) Hoff.
  pose proof (stun_length_range msg) as Hr.
  repeat split.
  - now rewrite length_memcpy_at.
  - unfold stun_length at 1. rewrite stun_getw_memcpy_at_out by lia. exact HL.
  - rewrite stun_getw_memcpy_at_out by lia. exact Ht.
  - rewrite stun_getw_memcpy_at_out by lia. exact Hn.
  - intros i Hi. rewrite load8_memcpy_at_out by lia. now apply Hframe.
Qed.

Lemma appended_aligned (msg msg' : list byte) (type len : Z) :
  appended msg msg' type len -> stun_padding (stun_length msg) = 0 ->
  stun_padding (stun_length msg') = 0.
Proof.
  intros (_ & HL & _) Hal. rewrite HL.
  apply (proj2 (stun_padding_0 _)).
  apply mod4_advance; [|apply stun_padding_aligns].
  exact (proj1 (stun_padding_0 _) Hal).
Qed.

(** The two outcomes of [stun_append] on an aligned message. *)
Lemma stun_append_cases (msize type len : Z) (msg : list byte) :
  stun_padding (stun_length msg) = 0 -> object_size len ->
  STUN_MAXMSG <= 65552 -> msize <= Z.of_nat (length msg) ->
  (stun_length msg + 24 + len > Z.min msize STUN_MAXMSG /\
   stun_append msize type len msg = Normal (None, msg)) \/
  (stun_length msg + 24 + len <= Z.min msize STUN_MAXMSG /\
   stun_append msize type len msg
     = Normal (Some (24 + stun_length msg), reserved msg type len) /\
   appended msg (reserved msg type len) type len).
Proof.
  intros Hal Hsz Hmax Hreal.
  pose proof (stun_padding_range len) as Hpad.
  destruct (Z_gt_le_dec (stun_length msg + 24 + len)
                        (Z.min msize STUN_MAXMSG)) as [Hgt|Hle].
  - left. split; [exact Hgt|]. now apply stun_append_nospace.
  - right. split; [exact Hle|]. split; [now apply stun_append_success|].
    destruct Hsz as [Hl0 _]. apply appended_reserved; lia.
Qed.
End StunFacts.

(** ** stun/stunsend.c: the typed appenders *)

Section StunAppenders.
Import Stun.
Context `{Host} `{StunEnv}.

(** Running a computation whose first step is known. *)
Lemma bind_run {A B} (c : M A) (f : A -> M B) (msg msg' : list byte) (a : A) :
  c msg = Normal (a, msg') -> (c ≫= f) msg = f a msg'.
Proof. intros E. unfold mbind, M_bind. now rewrite E. Qed.

Lemma strlen_range (str : list byte) : 0 <= strlen str <= Z.of_nat (length str).
Proof.
  induction str as [|c str IH]; simpl; [lia|].
  destruct (decide (c = "000"%byte)); lia.
Qed.

Lemma stun_append_bytes_cases (msize type : Z) (data : list byte) (len : Z)
    (msg : list byte) :
  stun_padding (stun_length msg) = 0 -> object_size len ->
  STUN_MAXMSG <= 65552 -> msize <= Z.of_nat (length msg) ->
  (stun_length msg + 24 + len > Z.min msize STUN_MAXMSG /\
   stun_append_bytes msize type data len msg = Normal (ENOBUFS, msg)) \/
  (stun_length msg + 24 + len <= Z.min msize STUN_MAXMSG /\
   exists msg',
     msg' = memcpy_at (reserved msg type len) (24 + stun_length msg)
                      (take (Z.to_nat len) data) /\
     stun_append_bytes msize type data len msg = Normal (Success, msg') /\
     appended msg msg' type len).
Proof.
  intros Hal Hsz Hmax Hreal. unfold stun_append_bytes.
  destruct (stun_append_cases msize type len msg Hal Hsz Hmax Hreal)
    as [[Hgt E]|(Hle & E & Happ)]; rewrite (bind_run _ _ _ _ _ E).
  - left. split; [exact Hgt|reflexivity].
  - right. split; [exact Hle|]. eexists. split; [reflexivity|].
    split; [reflexivity|]. apply appended_store; [exact Happ|lia].
Qed.

Lemma memcpy_at_app' (msg : list byte) (off off' : Z) (a b : list byte) :
  0 <= off -> off' = off + Z.of_nat (length a) ->
  memcpy_at (memcpy_at msg off a) off' b = memcpy_at msg off (a ++ b).
Proof. intros Hoff ->. now apply memcpy_at_app. Qed.

Lemma object_size_small (n : Z) : 0 <= n < 65536 -> object_size n.
Proof.
  intros Hn. unfold object_size.
  change (2 ^ (SIZE_BITS - 1)) with 9223372036854775808. lia.
Qed.

(** The phrases of the catalog are short and hold no NUL. *)
Lemma stun_strerror_length (code : Z) :
  strlen (stun_strerror code) = Z.of_nat (length (stun_strerror code)) /\
  0 < strlen (stun_strerror code) <= 31.
Proof.
  unfold stun_strerror, tab. cbn [stun_strerror_from].
  repeat match goal with
         | |- context [?c =? code] => destruct (c =? code)
         end;
    vm_compute; (split; [reflexivity|split; [reflexivity|discriminate]]).
Qed.

Lemma stun_append_error_cases (msize code : Z) (msg : list byte) :
  stun_padding (stun_length msg) = 0 -> Z.quot code 100 <= 7 ->
  STUN_MAXMSG <= 65552 -> msize <= Z.of_nat (length msg) ->
  let str := stun_strerror code in
  let len := 4 + strlen str in
  (stun_length msg + 24 + len > Z.min msize STUN_MAXMSG /\
   stun_append_error msize code msg = Normal (ENOBUFS, msg)) \/
  (stun_length msg + 24 + len <= Z.min msize STUN_MAXMSG /\
   exists msg',
     msg' = memcpy_at (reserved msg STUN_ERROR_CODE len)
              (24 + stun_length msg)
              ([Byte.x00; Byte.x00; byte_of_Z (Z.quot code 100);
                byte_of_Z (Z.rem code 100)] ++ str) /\
     stun_append_error msize code msg = Normal (Success, msg') /\
     appended msg msg' STUN_ERROR_CODE len).
Proof.
  intros Hal Hq Hmax Hreal str len.
  destruct (stun_strerror_length code) as [Hlen Hshort].
  fold str in Hlen, Hshort.
  pose proof (stun_length_range msg) as HL.
  assert (Hsz : object_size len) by (apply object_size_small; lia).
  assert (Ei : to_int code = code).
  { unfold to_int. change (2 ^ 31) with 2147483648.
    destruct (Z.ltb_spec code 2147483648) as [_|Hbig]; [reflexivity|].
    exfalso. Z.to_euclidean_division_equations; lia. }
  unfold stun_append_error. rewrite Ei. fold str.
  rewrite size_t_small by (change (2 ^ 64) with 18446744073709551616; lia).
  fold len.
  destruct (stun_append_cases msize STUN_ERROR_CODE len msg Hal Hsz Hmax Hreal)
    as [[Hgt E]|(Hle & E & Happ)]; rewrite (bind_run _ _ _ _ _ E).
  - left. split; [exact Hgt|reflexivity].
  - right. split; [exact Hle|].
    unfold memset, store, assert, mbind, M_bind, mret, M_ret.
    destruct (Z.leb_spec (Z.quot code 100) 7) as [_|Hbad]; [|lia].
    rewrite Hlen, Nat2Z.id, firstn_all.
    rewrite !memcpy_at_app' by (simpl; lia).
    eexists. split; [reflexivity|]. split; [reflexivity|].
    apply appended_store; [exact Happ|lia].
Qed.

Lemma small_object (n : Z) : (0 <=? n) && (n <? 65536) = true -> object_size n.
Proof. intros Hn. apply object_size_small. lia. Qed.

Lemma stun_append_addr_cases (msize type : Z) (addr : sockaddr)
    (addrlen : Z) (msg : list byte) :
  stun_padding (stun_length msg) = 0 ->
  STUN_MAXMSG <= 65552 -> msize <= Z.of_nat (length msg) ->
  exists st msg',
    stun_append_addr msize type addr addrlen msg = Normal (st, msg') /\
    ((st <> Success /\ msg' = msg) \/
     (st = Success /\ appended msg msg' type (addr_payload_length addr))).
Proof.
  intros Hal Hmax Hreal. unfold stun_append_addr, addr_payload_length.
  destruct (Z.ltb_spec addrlen sizeof_sockaddr) as [Hshort|Hlong].
  { eexists _, _. split; [reflexivity|]. left. split; [discriminate|reflexivity]. }
  destruct (sa_family addr =? AF_INET).
  - unfold assert at 1.
    destruct (Z.geb_spec addrlen sizeof_sockaddr_in) as [_|Hbad];
      [|unfold sizeof_sockaddr, sizeof_sockaddr_in in *; lia].
    unfold mbind at 1, M_bind at 1.
    destruct (stun_append_cases msize type (4 + 4) msg Hal
                (small_object (4 + 4) eq_refl) Hmax Hreal)
      as [[Hgt E]|(Hle & E & Happ)]; rewrite (bind_run _ _ _ _ _ E).
    + eexists _, _. split; [reflexivity|]. left. split; [discriminate|reflexivity].
    + unfold store, mbind, M_bind, mret, M_ret.
      eexists _, _. split; [reflexivity|]. right. split; [reflexivity|].
      do 4 (apply appended_store; [|lia]). exact Happ.
  - destruct (sa_family addr =? AF_INET6).
    + destruct (Z.ltb_spec addrlen sizeof_sockaddr_in6) as [Hshort|_].
      { eexists _, _. split; [reflexivity|]. left. split; [discriminate|reflexivity]. }
      destruct (stun_append_cases msize type (4 + 16) msg Hal
                  (small_object (4 + 16) eq_refl) Hmax Hreal)
        as [[Hgt E]|(Hle & E & Happ)]; rewrite (bind_run _ _ _ _ _ E).
      * eexists _, _. split; [reflexivity|]. left. split; [discriminate|reflexivity].
      * unfold store, mbind, M_bind, mret, M_ret.
        eexists _, _. split; [reflexivity|]. right. split; [reflexivity|].
        do 4 (apply appended_store; [|lia]). exact Happ.
    + eexists _, _. split; [reflexivity|]. left. split; [discriminate|reflexivity].
Qed.

Lemma appended_contract (msg msg' : list byte) (type len : Z) :
  stun_padding (stun_length msg) = 0 -> appended msg msg' type len ->
  stun_length msg' = stun_length msg + 4 + len + stun_padding len /\
  stun_length msg' mod 4 = 0.
Proof.
  intros Hal Happ. split; [apply Happ|].
  apply stun_padding_0. eapply appended_aligned; eauto.
Qed.

(** C3 (amended). For every attribute append operation ([stun_append] and
    every typed appender built on it), on a message whose length field is
    a multiple of 4 and in a buffer at least as large as declared: either
    the call fails and the message, so its header length field, is
    unchanged - for lack of buffer space, or, for the two address
    appenders only, with another error (invalid argument, unsupported
    family) - or it succeeds and the header length field advances by
    exactly 4 + length + pad_len(length) and stays a multiple of 4. *)
Theorem run_append_contract (msize : Z) (op : append_op) (msg : list byte) :
  stun_padding (stun_length msg) = 0 ->
  STUN_MAXMSG <= 65552 -> msize <= Z.of_nat (length msg) ->
  op_precondition op ->
  append_contract msg op (run_append msize op msg).
Proof.
  intros Hal Hmax Hreal Hpre. unfold append_contract.
  assert (Hbytes : forall type data len, object_size len ->
    exists st msg', stun_append_bytes msize type data len msg = Normal (st, msg') /\
      ((st <> Success /\ msg' = msg /\ stun_length msg' = stun_length msg /\ st = ENOBUFS) \/
       (st = Success /\
        stun_length msg' = stun_length msg + 4 + len + stun_padding len /\
        stun_length msg' mod 4 = 0))).
  { intros type data len Hsz.
    destruct (stun_append_bytes_cases msize type data len msg Hal Hsz Hmax Hreal)
      as [[_ E]|(_ & msg' & _ & E & Happ)]; rewrite E; eexists _, _;
      (split; [reflexivity|]).
    - left. repeat split; discriminate.
    - right. split; [reflexivity|]. eapply appended_contract; eauto. }
  assert (Hlift : forall len (r : outcome (status * list byte)),
    (exists st msg', r = Normal (st, msg') /\
      ((st <> Success /\ msg' = msg /\ stun_length msg' = stun_length msg /\ st = ENOBUFS) \/
       (st = Success /\
        stun_length msg' = stun_length msg + 4 + len + stun_padding len /\
        stun_length msg' mod 4 = 0))) ->
    payload_length msg op = len ->
    exists st msg', r = Normal (st, msg') /\
      ((st <> Success /\ msg' = msg /\ stun_length msg' = stun_length msg /\
        (is_addr_op op = false -> st = ENOBUFS)) \/
       (st = Success /\
        stun_length msg' = stun_length msg + 4 + payload_length msg op
                           + stun_padding (payload_length msg op) /\
        stun_length msg' mod 4 = 0))).
  { intros len r (st & msg' & E & Hr) ->. exists st, msg'. split; [exact E|].
    destruct Hr as [(? & ? & ? & ?)|?]; [left|right]; auto. }
  destruct op as [type len|type data len|type|type value|type value|type str
                 |code|type addr addrlen|type addr addrlen];
    simpl in Hpre; simpl run_append.
  - (* stun_append *)
    destruct (stun_append_cases msize type len msg Hal Hpre Hmax Hreal)
      as [[_ E]|(_ & E & Happ)]; rewrite (bind_run _ _ _ _ _ E);
      eexists _, _; (split; [reflexivity|]).
    + left. repeat split; auto; discriminate.
    + right. split; [reflexivity|]. eapply appended_contract; eauto.
  - apply (Hlift len); [apply Hbytes; exact Hpre|reflexivity].
  - apply (Hlift 0); [apply Hbytes, object_size_small; lia|reflexivity].
  - apply (Hlift 4); [apply Hbytes, object_size_small; lia|reflexivity].
  - apply (Hlift 8); [apply Hbytes, object_size_small; lia|reflexivity].
  - apply (Hlift (strlen str)); [apply Hbytes; exact Hpre|reflexivity].
  - (* stun_append_error *)
    destruct (stun_append_error_cases msize code msg Hal Hpre Hmax Hreal)
      as [[_ E]|(_ & msg' & _ & E & Happ)]; rewrite E; eexists _, _;
      (split; [reflexivity|]).
    + left. repeat split; auto; discriminate.
    + right. split; [reflexivity|]. eapply appended_contract; eauto.
  - (* stun_append_addr *)
    destruct (stun_append_addr_cases msize type addr addrlen msg Hal Hmax Hreal)
      as (st & msg' & E & [[Hst ->]|[-> Happ]]); rewrite E; eexists _, _;
      (split; [reflexivity|]).
    + left. repeat split; auto. discriminate.
    + right. split; [reflexivity|]. eapply appended_contract; eauto.
  - (* stun_append_xor_addr *)
    unfold stun_append_xor_addr, payload_length.
    unfold mbind at 1, M_bind at 1, buffer at 1.
    destruct (stun_xor_address msg addr addrlen) as [val xor] eqn:Exor.
    destruct val; simpl snd;
      try (eexists _, _; split; [reflexivity|]; left; repeat split; auto;
           discriminate).
    destruct (stun_append_addr_cases msize type xor addrlen msg Hal Hmax Hreal)
      as (st & msg' & E & [[Hst ->]|[-> Happ]]); rewrite E; eexists _, _;
      (split; [reflexivity|]).
    + left. repeat split; auto. discriminate.
    + right. split; [reflexivity|]. eapply appended_contract; eauto.
Qed.

(** When the attribute fits, [stun_append] returns its payload slot,
    unless the assertion on the length stops it. *)
Lemma stun_append_fits (msize type len : Z) (msg : list byte) :
  stun_padding (stun_length msg) = 0 -> object_size len ->
  stun_length msg + 24 + len <= Z.min msize STUN_MAXMSG ->
  stun_append msize type len msg = Abort \/
  exists msg',
    stun_append msize type len msg = Normal (Some (24 + stun_length msg), msg').
Proof.
  intros Hal [Hl0 Hl1] Hfit.
  pose proof (stun_length_range msg) as HL.
  change (2 ^ (SIZE_BITS - 1)) with 9223372036854775808 in Hl1.
  unfold stun_append, mbind, M_bind, buffer.
  rewrite (uint16_small (stun_length msg)) by exact HL.
  rewrite Hal, cap_min. unfold assert at 1. simpl (0 =? 0).
  rewrite size_t_small by (change (2 ^ 64) with 18446744073709551616; lia).
  destruct (Z.gtb_spec (stun_length msg + 24 + len) (Z.min msize STUN_MAXMSG))
    as [Hgt|_]; [lia|].
  unfold assert. destruct (Z.ltb_spec len 65535) as [_|Hge]; [|now left].
  right. rewrite !stun_setw_run by lia. unfold memset, store, mret, M_ret.
  rewrite !stun_setw_run by lia.
  eexists. f_equal. f_equal. f_equal. lia.
Qed.

(** C4 (amended). On a message whose length field [mlen] is a multiple
    of 4, [stun_append (msg, msize, type, length)] fails with
    no-buffer-space if and only if
    [mlen + 24 + length > min (msize, STUN_MAXMSG)].  The 24 is the
    20-byte message header and the 4-byte attribute header: a successful
    append returns the slot at [24 + mlen] and guarantees that the payload
    ends within [min (msize, STUN_MAXMSG)].  No room is kept for
    MESSAGE-INTEGRITY: its later reservation fails exactly when the new
    length field plus 44 exceeds [min (msize, STUN_MAXMSG)]. *)
Theorem stun_append_no_space_iff (msize type len : Z) (msg : list byte) :
  stun_padding (stun_length msg) = 0 -> object_size len ->
  ((exists msg', stun_append msize type len msg = Normal (None, msg')) <->
   stun_length msg + 24 + len > Z.min msize STUN_MAXMSG) /\
  (forall a msg', stun_append msize type len msg = Normal (Some a, msg') ->
     a = 24 + stun_length msg /\ a + len <= Z.min msize STUN_MAXMSG) /\
  (STUN_MAXMSG <= 65552 -> msize <= Z.of_nat (length msg) ->
   forall a msg', stun_append msize type len msg = Normal (Some a, msg') ->
     ((exists msg'',
         stun_append msize STUN_MESSAGE_INTEGRITY 20 msg' = Normal (None, msg''))
      <-> stun_length msg + 4 + len + stun_padding len + 44
            > Z.min msize STUN_MAXMSG)).
Proof.
  intros Hal Hsz.
  assert (Hcases :
    stun_length msg + 24 + len > Z.min msize STUN_MAXMSG /\
    stun_append msize type len msg = Normal (None, msg) \/
    stun_length msg + 24 + len <= Z.min msize STUN_MAXMSG /\
    (stun_append msize type len msg = Abort \/
     exists msg', stun_append msize type len msg
                  = Normal (Some (24 + stun_length msg), msg'))).
  { destruct (Z_gt_le_dec (stun_length msg + 24 + len)
                          (Z.min msize STUN_MAXMSG)) as [Hgt|Hle].
    - left. split; [exact Hgt|]. now apply stun_append_nospace.
    - right. split; [exact Hle|]. now apply stun_append_fits. }
  split; [|split].
  - split.
    + intros [msg' E].
      destruct Hcases as [[Hgt _]|[_ [E'|[m E']]]]; [exact Hgt| |];
        rewrite E' in E; discriminate E.
    + intros Hgt. exists msg. now apply stun_append_nospace.
  - intros a msg' E.
    destruct Hcases as [[_ E']|[Hle [E'|[m E']]]]; rewrite E' in E;
      try discriminate E.
    injection E as <- _. lia.
  - intros Hmax Hreal a msg' E.
    destruct (stun_append_cases msize type len msg Hal Hsz Hmax Hreal)
      as [[_ E']|(Hle & E' & Happ)]; rewrite E' in E; [discriminate E|].
    injection E as _ <-.
    pose proof (appended_aligned _ _ _ _ Happ Hal) as Hal'.
    destruct Happ as (Hlen' & HL' & _).
    rewrite <- Hlen' in Hreal.
    destruct (stun_append_cases msize STUN_MESSAGE_INTEGRITY 20
                (reserved msg type len) Hal' (small_object 20 eq_refl)
                Hmax Hreal) as [[Hgt E2]|(Hle2 & E2 & _)].
    + split; [intros _; lia|]. intros _. eexists. exact E2.
    + split; [|intros Hgt; lia].
      intros [m E3]. rewrite E2 in E3. discriminate E3.
Qed.
End StunAppenders.

(** ** stun/stunsend.c: transaction identifiers and the header *)

Section StunInit.
Import Stun.
Context `{Host} `{StunEnv}.

Lemma transids_spec (n : nat) (c : Z) :
  0 <= c -> c + Z.of_nat n <= 2 ^ 64 ->
  NoDup (transids n c) /\
  forall id, id ∈ transids n c ->
    exists k, c <= k < c + Z.of_nat n /\
              id = replicate 4 Byte.x00 ++ host_bytes 8 k.
Proof.
  revert c. induction n as [|n IH]; intros c Hc Hn; simpl.
  - split; [constructor|]. intros id Hid. inversion Hid.
  - destruct (Z.eq_dec (c + 1) (2 ^ 64)) as [Hwrap|Hnowrap].
    + assert (n = 0%nat) as -> by lia. simpl.
      split.
      * constructor; [intros Hin; inversion Hin|constructor].
      * intros id Hid. apply list_elem_of_singleton in Hid as ->.
        exists c. split; [lia|reflexivity].
    + rewrite uint64_small by lia.
      destruct (IH (c + 1)) as [Hnd Hel]; [lia|lia|].
      split.
      * constructor; [|exact Hnd].
        intros Hin. apply Hel in Hin as (k & Hk & E).
        simpl in E. injection E as E.
        apply host_bytes_inj in E; [lia| |];
          change (256 ^ Z.of_nat 8) with (2 ^ 64); lia.
      * intros id Hid. apply elem_of_cons in Hid as [->|Hid].
        -- exists c. split; [lia|reflexivity].
        -- apply Hel in Hid as (k & Hk & E). exists k. split; [lia|exact E].
Qed.

(** C7 (amended). Every call of the transaction-ID source yields a 12-byte
    identifier whose bytes 0..3 are zero and whose bytes 4..11 hold the
    shared 64-bit counter in host byte order, as it lies in memory:
    big-endian on a big-endian host, little-endian on a little-endian one.
    The counter increments by one (modulo 2^64) per call, so any two of the
    first 2^64 identifiers of a process are distinct. *)
Theorem stun_make_transid_unique (store_counter : Z) (n : nat) :
  Z.of_nat n <= 2 ^ 64 ->
  (let '(id, store_counter') := stun_make_transid store_counter in
   length id = 12%nat /\
   take 4 id = [Byte.x00; Byte.x00; Byte.x00; Byte.x00] /\
   drop 4 id = host_bytes 8 store_counter /\
   (host_little_endian = false -> drop 4 id = be_bytes 8 store_counter) /\
   (host_little_endian = true -> drop 4 id = le_bytes 8 store_counter) /\
   store_counter' = (store_counter + 1) mod 2 ^ 64) /\
  NoDup (transids n 0).
Proof.
  intros Hn. split.
  - unfold stun_make_transid. simpl.
    rewrite length_host_bytes. unfold host_bytes.
    repeat split; try reflexivity; intros ->; reflexivity.
  - apply transids_spec; lia.
Qed.

(** Checking a boolean property of two small numbers case by case. *)
Lemma forallb_below (P : Z -> Z -> bool) (n m : nat) :
  forallb (fun a => forallb (fun b => P (Z.of_nat a) (Z.of_nat b)) (seq 0 m))
          (seq 0 n) = true ->
  forall a b, 0 <= a < Z.of_nat n -> 0 <= b < Z.of_nat m -> P a b = true.
Proof.
  intros Hall a b Ha Hb.
  rewrite forallb_forall in Hall.
  assert (Hain : In (Z.to_nat a) (seq 0 n)) by (apply in_seq; lia).
  apply Hall in Hain. rewrite forallb_forall in Hain.
  assert (Hbin : In (Z.to_nat b) (seq 0 m)) by (apply in_seq; lia).
  apply Hain in Hbin. now rewrite !Z2Nat.id in Hbin by lia.
Qed.

Lemma set_type_ok_all (c m : Z) :
  0 <= c < 4 -> 0 <= m < 4096 -> set_type_ok c m = true.
Proof.
  intros Hc Hm. apply (forallb_below set_type_ok 4 4096); [|lia|lia].
  vm_compute. reflexivity.
Qed.

Lemma method_bits_range (t : Z) : 0 <= t < 65536 -> 0 <= method_bits t < 4096.
Proof.
  intros Ht.
  pose proof (forallb_below
    (fun a b => (0 <=? method_bits (a * 256 + b))
                && (method_bits (a * 256 + b) <? 4096)) 256 256) as Hall.
  specialize (Hall ltac:(vm_compute; reflexivity) (t / 256) (t mod 256)).
  cbv beta in Hall.
  replace (t / 256 * 256 + t mod 256) with t in Hall
    by (Z.to_euclidean_division_equations; lia).
  assert (0 <= t / 256 < 256 /\ 0 <= t mod 256 < 256) as [H1 H2]
    by (Z.to_euclidean_division_equations; lia).
  specialize (Hall ltac:(lia) ltac:(lia)). lia.
Qed.

Lemma stun_set_type_run (c m : Z) (msg : list byte) :
  0 <= c < 4 -> 0 <= m < 4096 -> 2 <= Z.of_nat (length msg) ->
  stun_set_type c m msg
    = Normal (tt, memcpy_at msg 0 [byte_of_Z (type_byte0 c m);
                                   byte_of_Z (type_byte1 c m)]).
Proof.
  intros Hc Hm Hlen.
  pose proof (set_type_ok_all c m Hc Hm) as Hok.
  unfold set_type_ok in Hok.
  apply andb_prop in Hok as [Hok Hmeth]. apply andb_prop in Hok as [Hok Hclass].
  apply andb_prop in Hok as [Hok Hword].
  assert (Hb : 0 <= type_byte0 c m < 256 /\ 0 <= type_byte1 c m < 256) by lia.
  clear Hok.
  unfold stun_set_type, store, buffer, mbind, M_bind, mret, M_ret.
  unfold assert at 1. destruct (Z.ltb_spec c 4) as [_|?]; [|lia].
  unfold assert at 1. change (Z.shiftl 1 12) with 4096.
  destruct (Z.ltb_spec m 4096) as [_|?]; [|lia].
  fold (type_byte0 c m). fold (type_byte1 c m).
  rewrite (memcpy_at_app' msg 0 1 [_] [_]) by (simpl; lia).
  simpl app.
  assert (Hw : stun_getw (memcpy_at msg 0 [byte_of_Z (type_byte0 c m);
                                           byte_of_Z (type_byte1 c m)]) 0
               = type_byte0 c m * 256 + type_byte1 c m).
  { rewrite stun_getw_eq.
    rewrite !load8_memcpy_at_in by (simpl; lia). simpl.
    rewrite !Z_of_byte_of_Z, !Z.mod_small by lia. reflexivity. }
  unfold stun_get_class, stun_get_method. rewrite Hw.
  unfold assert. rewrite Hword, Hclass, Hmeth. reflexivity.
Qed.

Lemma stun_init_run (c m : Z) (id msg : list byte) :
  0 <= c < 4 -> 0 <= m < 4096 -> 2 <= Z.of_nat (length msg) ->
  stun_init c m id msg
    = Normal (tt,
        memcpy_at
          (memcpy_at
             (memcpy_at msg 0 [Byte.x00; Byte.x00; Byte.x00; Byte.x00;
                               Byte.x21; Byte.x12; Byte.xa4; Byte.x42])
             0 [byte_of_Z (type_byte0 c m); byte_of_Z (type_byte1 c m)])
          8 (take 12 id)).
Proof.
  intros Hc Hm Hlen. unfold stun_init.
  unfold mbind at 1, M_bind at 1, store at 1.
  unfold mbind at 1, M_bind at 1.
  rewrite stun_set_type_run by (rewrite ?length_memcpy_at; lia).
  reflexivity.
Qed.

Lemma bytes_at_memcpy_at_sub (msg : list byte) (off : Z) (src : list byte)
    (p n : Z) :
  0 <= off <= p -> 0 <= n -> p + n <= off + Z.of_nat (length src) ->
  off + Z.of_nat (length src) <= Z.of_nat (length msg) ->
  bytes_at (memcpy_at msg off src) p n = bytes_at src (p - off) n.
Proof.
  intros Hoff Hn Hsrc Hlen. unfold bytes_at, memcpy_at.
  apply list_eq. intros i.
  destruct (decide (i < Z.to_nat n)%nat) as [Hi|Hi].
  - rewrite !lookup_take_lt by lia. rewrite !lookup_drop.
    rewrite list_lookup_inserts by lia. f_equal. lia.
  - rewrite !lookup_take_ge by lia. reflexivity.
Qed.

(** The header that [stun_init] leaves. *)
Lemma stun_init_spec (c m : Z) (id msg : list byte) :
  0 <= c < 4 -> 0 <= m < 4096 -> 20 <= Z.of_nat (length msg) ->
  exists msg',
    stun_init c m id msg = Normal (tt, msg') /\
    length msg' = length msg /\
    load8 msg' 0 = type_byte0 c m /\ load8 msg' 1 = type_byte1 c m /\
    stun_get_class msg' = c /\ stun_get_method msg' = m /\
    bytes_at msg' 2 2 = [Byte.x00; Byte.x00] /\ stun_length msg' = 0 /\
    bytes_at msg' 4 4 = [Byte.x21; Byte.x12; Byte.xa4; Byte.x42] /\
    (length id = 12%nat -> bytes_at msg' 8 12 = id).
Proof.
  intros Hc Hm Hlen.
  pose proof (set_type_ok_all c m Hc Hm) as Hok.
  unfold set_type_ok in Hok.
  apply andb_prop in Hok as [Hok Hmeth]. apply andb_prop in Hok as [Hok Hclass].
  apply andb_prop in Hok as [Hok _].
  assert (Hb : 0 <= type_byte0 c m < 256 /\ 0 <= type_byte1 c m < 256) by lia.
  clear Hok.
  eexists. split; [apply stun_init_run; lia|].
  generalize (take 12 id) (firstn_all2 id (n:=12)). intros id' Hid'.
  assert (Hw : forall init,
    length init = 8%nat ->
    stun_getw (memcpy_at (memcpy_at (memcpy_at msg 0 init) 0
        [byte_of_Z (type_byte0 c m); byte_of_Z (type_byte1 c m)]) 8 id') 0
    = type_byte0 c m * 256 + type_byte1 c m).
  { intros init Hinit. rewrite stun_getw_memcpy_at_out by lia.
    rewrite stun_getw_eq.
    rewrite !load8_memcpy_at_in by (rewrite ?length_memcpy_at; simpl; lia).
    simpl. rewrite !Z_of_byte_of_Z, !Z.mod_small by lia. reflexivity. }
  split; [now rewrite !length_memcpy_at|].
  split; [|split].
  - rewrite load8_memcpy_at_out by lia.
    rewrite load8_memcpy_at_in by (rewrite ?length_memcpy_at; simpl; lia).
    simpl. rewrite Z_of_byte_of_Z. apply Z.mod_small. lia.
  - rewrite load8_memcpy_at_out by lia.
    rewrite load8_memcpy_at_in by (rewrite ?length_memcpy_at; simpl; lia).
    simpl. rewrite Z_of_byte_of_Z. apply Z.mod_small. lia.
  - unfold stun_get_class, stun_get_method. rewrite Hw by reflexivity.
    split; [lia|]. split; [lia|].
    assert (Hlenf : bytes_at (memcpy_at (memcpy_at (memcpy_at msg 0
        [Byte.x00; Byte.x00; Byte.x00; Byte.x00;
         Byte.x21; Byte.x12; Byte.xa4; Byte.x42]) 0
        [byte_of_Z (type_byte0 c m); byte_of_Z (type_byte1 c m)]) 8 id') 2 2
      = [Byte.x00; Byte.x00]).
    { rewrite !bytes_at_memcpy_at_out by (simpl; lia).
      rewrite bytes_at_memcpy_at_sub by (simpl; lia). reflexivity. }
    split; [exact Hlenf|]. split; [|split].
    + unfold stun_length. rewrite !stun_getw_memcpy_at_out by (simpl; lia).
      rewrite stun_getw_eq.
      rewrite !load8_memcpy_at_in by (simpl; lia). reflexivity.
    + rewrite !bytes_at_memcpy_at_out by (simpl; lia).
      rewrite bytes_at_memcpy_at_sub by (simpl; lia). reflexivity.
    + intros Hid. rewrite Hid' by lia.
      replace 12 with (Z.of_nat (length id)) by lia.
      apply bytes_at_memcpy_at; rewrite ?length_memcpy_at; lia.
Qed.

(** C5. After [stun_init_request (req, m)] for any method [m] in
    [0, 0x0FFF], bytes 4..7 of the buffer are 0x21 0x12 0xA4 0x42, bytes
    2..3 (the message length) are zero, and the two type bytes are
    [(class >> 1) | ((m >> 6) & 0x3E)] and
    [((class << 4) & 0x10) | ((m << 1) & 0xE0) | (m & 0x0F)] for the class
    REQUEST, which decode to class REQUEST and method [m]; the call
    returns, and bytes 8..19 hold the transaction identifier. *)
Theorem stun_init_request_header (store_counter m : Z) (req : list byte) :
  0 <= m <= 0x0FFF -> 20 <= Z.of_nat (length req) ->
  exists store_counter' req',
    stun_init_request store_counter m req = Normal (store_counter', req') /\
    bytes_at req' 4 4 = [Byte.x21; Byte.x12; Byte.xa4; Byte.x42] /\
    bytes_at req' 2 2 = [Byte.x00; Byte.x00] /\ stun_length req' = 0 /\
    load8 req' 0
      = Z.lor (Z.shiftr STUN_REQUEST 1) (Z.land (Z.shiftr m 6) 0x3E) /\
    load8 req' 1
      = Z.lor (Z.lor (Z.land (Z.shiftl STUN_REQUEST 4) 0x10)
                     (Z.land (Z.shiftl m 1) 0xE0))
              (Z.land m 0x0F) /\
    stun_get_class req' = STUN_REQUEST /\ stun_get_method req' = m /\
    bytes_at req' 8 12 = (stun_make_transid store_counter).1.
Proof.
  intros Hm Hlen. unfold stun_init_request.
  destruct (stun_make_transid store_counter) as [id store_counter'] eqn:Eid.
  assert (Hid : length id = 12%nat).
  { unfold stun_make_transid in Eid. injection Eid as <- _.
    simpl. now rewrite length_host_bytes. }
  destruct (stun_init_spec STUN_REQUEST m id req)
    as (req' & E & _ & H0' & H1' & Hcl & Hme & Hl2 & Hl & Hck & Hidb);
    [unfold STUN_REQUEST; lia|lia|exact Hlen|].
  specialize (Hidb Hid).
  exists store_counter', req'. split.
  - unfold mbind, M_bind. rewrite E. reflexivity.
  - simpl fst. repeat split; assumption.
Qed.
End StunInit.

(** ** stun/stunsend.c: the ERROR-CODE attribute *)

Section StunError.
Import Stun.
Context `{Host} `{StunEnv}.

(** [stun_strerror] is the catalog of the specification. *)
Lemma stun_strerror_catalog (code : Z) :
  stun_strerror_from tab code = catalog_phrase error_catalog code.
Proof.
  unfold tab, error_catalog. cbn [stun_strerror_from catalog_phrase].
  unfold STUN_TRY_ALTERNATE, STUN_BAD_REQUEST, STUN_UNAUTHORIZED,
    STUN_UNKNOWN_ATTRIBUTE, STUN_STALE_CREDENTIALS,
    STUN_INTEGRITY_CHECK_FAILURE, STUN_MISSING_USERNAME, STUN_USE_TLS,
    STUN_MISSING_REALM, STUN_MISSING_NONCE, STUN_UNKNOWN_USERNAME,
    STUN_STALE_NONCE, STUN_ROLE_CONFLICT, STUN_SERVER_ERROR,
    STUN_GLOBAL_FAILURE.
  repeat match goal with
         | |- context [?c =? code] => destruct (c =? code)
         end; reflexivity.
Qed.

(** C6. For every error code (from 0 to 799, the codes whose class passes
    the assertion), the ERROR-CODE attribute that [stun_append_error]
    writes when there is room has a payload of two zero bytes, one byte
    code / 100, one byte code % 100, and then the reason phrase of the
    catalog without a NUL ("Unknown error" for a code outside of the
    catalog), the attribute length being 4 plus the length of the phrase.
    In particular the payload that [stun_init_error (ans, bufsize, req,
    401)] writes, at offset 24 of an error response with the method of the
    request, begins 00 00 04 01 and goes on with the ASCII bytes of
    "Authorization required". *)
Theorem stun_append_error_payload (msize code : Z) (msg req : list byte) :
  0 <= code < 800 -> STUN_MAXMSG <= 65552 ->
  msize <= Z.of_nat (length msg) ->
  let phrase := stun_strerror code in
  let len := Z.of_nat (length phrase) in
  let payload := [Byte.x00; Byte.x00; byte_of_Z (code / 100);
                  byte_of_Z (code mod 100)] ++ phrase in
  phrase = list_byte_of_string (catalog_phrase error_catalog code) /\
  (stun_padding (stun_length msg) = 0 ->
   stun_length msg + 24 + (4 + len) <= Z.min msize STUN_MAXMSG ->
   exists msg',
     stun_append_error msize code msg = Normal (Success, msg') /\
     stun_getw msg' (20 + stun_length msg) = STUN_ERROR_CODE /\
     stun_getw msg' (20 + stun_length msg + 2) = 4 + len /\
     bytes_at msg' (24 + stun_length msg) (4 + len) = payload) /\
  (24 + (4 + len) <= Z.min msize STUN_MAXMSG ->
   exists ans',
     stun_init_error msize req code msg = Normal (Success, ans') /\
     stun_get_class ans' = STUN_ERROR /\
     stun_get_method ans' = stun_get_method req /\
     stun_getw ans' 20 = STUN_ERROR_CODE /\
     stun_length ans' = 4 + (4 + len) + stun_padding (4 + len) /\
     bytes_at ans' 24 (4 + len) = payload /\
     (code = 401 ->
      bytes_at ans' 24 26
        = [Byte.x00; Byte.x00; Byte.x04; Byte.x01]
          ++ list_byte_of_string "Authorization required")).
Proof.
  intros Hcode Hmax Hreal phrase len payload.
  destruct (stun_strerror_length code) as [Hlen Hshort].
  fold phrase in Hlen, Hshort. fold len in Hlen.
  assert (Hq : Z.quot code 100 = code / 100) by (apply Z.quot_div_nonneg; lia).
  assert (Hr : Z.rem code 100 = code mod 100) by (apply Z.rem_mod_nonneg; lia).
  assert (Hq7 : Z.quot code 100 <= 7)
    by (rewrite Hq; Z.to_euclidean_division_equations; lia).
  assert (Hpl : Z.of_nat (length payload) = 4 + len).
  { unfold payload. rewrite length_app. simpl length. lia. }
  assert (Happend : forall m : list byte,
    stun_padding (stun_length m) = 0 -> msize <= Z.of_nat (length m) ->
    stun_length m + 24 + (4 + len) <= Z.min msize STUN_MAXMSG ->
    exists m',
      stun_append_error msize code m = Normal (Success, m') /\
      appended m m' STUN_ERROR_CODE (4 + len) /\
      bytes_at m' (24 + stun_length m) (4 + len) = payload).
  { intros m Hal Hm Hfit.
    pose proof (stun_append_error_cases msize code m Hal Hq7 Hmax Hm) as Hc.
    cbv zeta in Hc. fold phrase in Hc. rewrite Hlen in Hc.
    destruct Hc as [[Hgt _]|(_ & m' & Em' & E & Happ)]; [lia|].
    exists m'. split; [exact E|]. split; [exact Happ|].
    rewrite Em', Hq, Hr. fold payload. rewrite <- Hpl.
    apply bytes_at_memcpy_at; [pose proof (stun_length_range m); lia|].
    rewrite length_reserved. lia. }
  split; [|split].
  - unfold phrase, stun_strerror. now rewrite stun_strerror_catalog.
  - intros Hal Hfit.
    destruct (Happend msg Hal Hreal Hfit) as (msg' & E & Happ & Hbytes).
    exists msg'. split; [exact E|].
    destruct Happ as (_ & _ & Ht & Hn & _).
    rewrite Ht, Hn. repeat split; auto.
  - intros Hfit. unfold stun_init_error.
    pose proof (method_bits_range (stun_getw req 0) (stun_getw_range req 0))
      as Hmeth. fold (stun_get_method req) in Hmeth.
    destruct (stun_init_spec STUN_ERROR (stun_get_method req) (stun_id req) msg)
      as (m1 & E1 & Hlen1 & _ & _ & Hcl & Hme & _ & HL1 & _);
      [unfold STUN_ERROR; lia|lia|lia|].
    rewrite (bind_run _ _ _ _ _ E1).
    destruct (Happend m1) as (ans' & E & Happ & Hbytes);
      [rewrite HL1; reflexivity|lia|rewrite HL1; lia|].
    exists ans'. split; [exact E|].
    destruct Happ as (_ & HL & Ht & _ & Hframe).
    rewrite HL1 in Hbytes, HL, Ht, Hframe.
    change (24 + 0) with 24 in Hbytes. change (20 + 0) with 20 in Ht.
    change (0 + 4) with 4 in HL.
    assert (Hw : stun_getw ans' 0 = stun_getw m1 0).
    { apply stun_getw_frame; apply Hframe; lia. }
    unfold stun_get_class, stun_get_method in *. rewrite Hw.
    split; [exact Hcl|]. split; [exact Hme|].
    split; [exact Ht|]. split; [exact HL|].
    split; [exact Hbytes|].
    intros ->. replace 26 with (4 + len) by (vm_compute; reflexivity).
    rewrite Hbytes. reflexivity.
Qed.
End StunError.

(** ** stun/hmac.c and the attributes of a message *)

Section StunIntegrity.
Import Stun.
Context `{Host} `{StunEnv}.

Lemma attrs_between_le (msg : list byte) (a b : Z) (l : list (Z * Z)) :
  attrs_between msg a b l -> a <= b.
Proof.
  induction 1 as [off|off stop type len l Hoff Ht Hn _ IH]; [lia|].
  pose proof (stun_getw_range msg (off + 2)).
  pose proof (stun_padding_range len). lia.
Qed.

(** The attributes of a range are read from the bytes of the range. *)
Lemma attrs_between_frame (msg msg' : list byte) (a b : Z) (l : list (Z * Z)) :
  attrs_between msg a b l ->
  (forall i, a <= i < b -> load8 msg' i = load8 msg i) ->
  attrs_between msg' a b l.
Proof.
  induction 1 as [off|off stop type len l Hoff Ht Hn Hrest IH]; intros Hframe.
  - constructor.
  - pose proof (attrs_between_le _ _ _ _ Hrest) as Hle.
    pose proof (stun_getw_range msg (off + 2)) as Hr.
    pose proof (stun_padding_range len) as Hp.
    constructor; [exact Hoff| | |].
    + rewrite <- Ht. apply stun_getw_frame; apply Hframe; lia.
    + rewrite <- Hn. apply stun_getw_frame; apply Hframe; lia.
    + apply IH. intros i Hi. apply Hframe. lia.
Qed.

Lemma attrs_between_snoc (msg : list byte) (a b type len : Z)
    (l : list (Z * Z)) :
  attrs_between msg a b l -> 0 <= b ->
  stun_getw msg b = type -> stun_getw msg (b + 2) = len ->
  attrs_between msg a (b + 4 + len + stun_padding len) (l ++ [(type, len)]).
Proof.
  induction 1 as [off|off stop type' len' l Hoff Ht Hn Hrest IH];
    intros Hb Htype Hlen; simpl.
  - constructor; [exact Hb|exact Htype|exact Hlen|constructor].
  - constructor; auto.
Qed.

(** Taking the last two attributes off, of 20 and 4 bytes of payload. *)
Lemma attrs_between_integrity (msg : list byte) (a b t1 t2 : Z)
    (l : list (Z * Z)) :
  attrs_between msg a b (l ++ [(t1, 20); (t2, 4)]) ->
  attrs_between msg a (b - 32) l.
Proof.
  revert a. induction l as [|[t n] l IH]; intros a Hl; simpl in Hl.
  - inversion Hl as [|? ? ? ? ? _ _ _ Hl1]; subst.
    inversion Hl1 as [|? ? ? ? ? _ _ _ Hl2]; subst.
    inversion Hl2; subst.
    change (stun_padding 20) with 0. change (stun_padding 4) with 0.
    replace (a + 4 + 20 + 0 + 4 + 4 + 0 - 32) with a by lia. constructor.
  - inversion Hl as [|? ? ? ? ? Hoff Ht Hn Hrest]; subst.
    constructor; auto.
Qed.

Lemma stun_sha1_run (msg key : list byte) (keylen : Z) :
  32 <= stun_length msg ->
  stun_sha1 msg key keylen
    = Normal (HMAC_SHA1 (take (Z.to_nat keylen) key)
                        (take (Z.to_nat (stun_length msg - 12)) msg)).
Proof.
  intros Hlen. pose proof (stun_length_range msg) as HL.
  unfold stun_sha1.
  destruct (Z.geb_spec (stun_length msg) 32) as [_|Hlt]; [|lia].
  rewrite size_t_small by (change (2 ^ 64) with 18446744073709551616; lia).
  reflexivity.
Qed.

(** C1 (amended). For every message buffer with [stun_length (msg) >= 32],
    [stun_sha1 (msg, sha, key, keylen)] writes into [sha] the 20-byte
    HMAC-SHA1, keyed with [key], of exactly the first
    [stun_length (msg) - 12] bytes of [msg].  When the message ends with a
    MESSAGE-INTEGRITY attribute of 20 bytes followed by a FINGERPRINT
    attribute of 4 bytes, this prefix ends exactly where the
    MESSAGE-INTEGRITY attribute begins: it holds the attributes before it
    and neither its header nor its payload. *)
Theorem stun_sha1_prefix (msg key : list byte) (keylen : Z) :
  32 <= stun_length msg ->
  let data := take (Z.to_nat (stun_length msg - 12)) msg in
  stun_sha1 msg key keylen
    = Normal (HMAC_SHA1 (take (Z.to_nat keylen) key) data) /\
  length (vec_to_list (HMAC_SHA1 (take (Z.to_nat keylen) key) data)) = 20%nat /\
  (stun_length msg - 12 <= Z.of_nat (length msg) ->
   Z.of_nat (length data) = stun_length msg - 12) /\
  (forall start l,
     attrs_between msg start (20 + stun_length msg)
       (l ++ [(STUN_MESSAGE_INTEGRITY, 20); (STUN_FINGERPRINT, 4)]) ->
     attrs_between msg start (stun_length msg - 12) l).
Proof.
  intros Hlen data. pose proof (stun_length_range msg) as HL.
  split; [|split; [|split]].
  - now apply stun_sha1_run.
  - apply length_vec_to_list.
  - intros Hbuf. unfold data. rewrite length_take. lia.
  - intros start l Hl.
    replace (stun_length msg - 12) with (20 + stun_length msg - 32) by lia.
    eapply attrs_between_integrity. exact Hl.
Qed.
End StunIntegrity.

(** ** stun/stunsend.c: attributes built on a message *)

Section StunFinish.
Import Stun.
Context `{Host} `{StunEnv}.

Lemma built_refl (msg0 : list byte) :
  stun_padding (stun_length msg0) = 0 -> built msg0 msg0 [].
Proof. intros Hal. repeat split; [exact Hal|constructor]. Qed.

Lemma built_le (msg0 msg : list byte) (l : list (Z * Z)) :
  built msg0 msg l -> stun_length msg0 <= stun_length msg.
Proof. intros (_ & _ & Hl). apply attrs_between_le in Hl. lia. Qed.

(** An attribute appended to what was built is built. *)
Lemma built_step (msg0 msg msg' : list byte) (l : list (Z * Z)) (type len : Z) :
  built msg0 msg l -> appended msg msg' type len -> uint16 type = type ->
  built msg0 msg' (l ++ [(type, len)]).
Proof.
  intros Hb Happ Hty.
  pose proof (built_le _ _ _ Hb) as Hle.
  pose proof (stun_length_range msg0) as HL0.
  destruct Hb as (Hlen & Hal & Hl).
  pose proof (appended_aligned _ _ _ _ Happ Hal) as Hal'.
  destruct Happ as (Hlen' & HL' & Ht & Hn & Hframe).
  repeat split; [congruence|exact Hal'|].
  rewrite HL'.
  replace (20 + (stun_length msg + 4 + len + stun_padding len))
    with (20 + stun_length msg + 4 + len + stun_padding len) by lia.
  apply attrs_between_snoc; [|lia|congruence|exact Hn].
  eapply attrs_between_frame; [exact Hl|].
  intros i Hi. apply Hframe. lia.
Qed.

Lemma or_return_success (plen : Z) (c : M status) (k : M (status * Z))
    (msg msg' : list byte) :
  c msg = Normal (Success, msg') -> or_return plen c k msg = k msg'.
Proof. intros E. unfold or_return. now rewrite (bind_run _ _ _ _ _ E). Qed.

Lemma or_return_failure (plen : Z) (c : M status) (k : M (status * Z))
    (msg msg' : list byte) :
  c msg = Normal (ENOBUFS, msg') ->
  or_return plen c k msg = Normal ((ENOBUFS, plen), msg').
Proof. intros E. unfold or_return. now rewrite (bind_run _ _ _ _ _ E). Qed.

Lemma proper_prefix {A} (l k : list A) (x : A) :
  l <> l ++ x :: k /\ l `prefix_of` l ++ x :: k.
Proof.
  split; [|now exists (x :: k)].
  intros E. apply (f_equal length) in E. rewrite length_app in E.
  simpl in E. lia.
Qed.

Lemma list_lookup_inserts_out {A} (l k : list A) (i j : nat) :
  (j < i \/ i + length k <= j)%nat -> list_inserts i k l !! j = l !! j.
Proof.
  intros [Hlt|Hge];
    [now apply list_lookup_inserts_lt|now apply list_lookup_inserts_ge].
Qed.

(** Stores to disjoint ranges commute. *)
Lemma memcpy_at_comm (msg : list byte) (a b : Z) (x y : list byte) :
  0 <= a -> 0 <= b ->
  a + Z.of_nat (length x) <= b \/ b + Z.of_nat (length y) <= a ->
  memcpy_at (memcpy_at msg a x) b y = memcpy_at (memcpy_at msg b y) a x.
Proof.
  intros Ha Hb Hdis. unfold memcpy_at. apply list_eq. intros i.
  destruct (decide (i < length msg)%nat) as [Hi|Hi].
  - destruct (decide (Z.to_nat a <= i < Z.to_nat a + length x)%nat) as [Hx|Hx];
      [|destruct (decide (Z.to_nat b <= i < Z.to_nat b + length y)%nat)
          as [Hy|Hy]].
    + rewrite (list_lookup_inserts_out _ y) by lia.
      rewrite !(list_lookup_inserts _ (Z.to_nat a))
        by (rewrite ?length_inserts; lia).
      reflexivity.
    + rewrite (list_lookup_inserts_out _ x) by lia.
      rewrite !(list_lookup_inserts _ (Z.to_nat b))
        by (rewrite ?length_inserts; lia).
      reflexivity.
    + rewrite !list_lookup_inserts_out by lia. reflexivity.
  - rewrite !lookup_ge_None_2 by (rewrite !length_inserts; lia). reflexivity.
Qed.

(** A store into the attributes of a message commutes with the reservation
    of the next attribute. *)
Lemma reserved_store_comm (msg : list byte) (off : Z) (src : list byte)
    (type len : Z) :
  4 <= off -> off + Z.of_nat (length src) <= 20 + stun_length msg -> 0 <= len ->
  memcpy_at (reserved msg type len) off src
    = reserved (memcpy_at msg off src) type len.
Proof.
  intros Hoff Hend Hlen. pose proof (stun_length_range msg) as HL.
  unfold reserved.
  assert (E : stun_length (memcpy_at msg off src) = stun_length msg).
  { unfold stun_length. apply stun_getw_memcpy_at_out; lia. }
  rewrite E.
  rewrite (memcpy_at_comm _ 2 off) by (rewrite ?length_be_bytes; lia).
  f_equal.
  rewrite (memcpy_at_comm _ (24 + stun_length msg + len) off)
    by (rewrite ?length_be_bytes; lia).
  f_equal.
  rewrite (memcpy_at_comm _ (22 + stun_length msg) off)
    by (rewrite ?length_be_bytes; lia).
  f_equal.
  rewrite (memcpy_at_comm _ (20 + stun_length msg) off)
    by (rewrite ?length_be_bytes; lia).
  reflexivity.
Qed.

End StunFinish.

(** ** address/address.c: comparison, private ranges and socket addresses *)

(** Masking with a mask of high bits keeps the high bits. *)
Lemma land_shiftl (a m n : Z) :
  0 <= n -> Z.land a (Z.shiftl m n) = Z.shiftl (Z.land (Z.shiftr a n) m) n.
Proof.
  intros Hn. apply Z.bits_inj'. intros i Hi. rewrite Z.land_spec.
  destruct (Z.ltb_spec i n) as [Hlt|Hge].
  - rewrite !Z.shiftl_spec_low by lia. apply andb_false_r.
  - rewrite !Z.shiftl_spec by lia. rewrite Z.land_spec, Z.shiftr_spec by lia.
    f_equal. f_equal. lia.
Qed.

Lemma land_prefix_mask (addr n : Z) :
  0 <= n <= 32 -> 0 <= addr < 2 ^ 32 ->
  Z.land addr (Z.shiftl (Z.ones (32 - n)) n) = addr / 2 ^ n * 2 ^ n.
Proof.
  intros Hn Haddr. rewrite land_shiftl by lia.
  rewrite Z.land_ones by lia. rewrite Z.shiftr_div_pow2 by lia.
  rewrite Z.shiftl_mul_pow2 by lia. f_equal.
  apply Z.mod_small. split; [apply Z.div_pos; lia|].
  apply Z.div_lt_upper_bound; [lia|].
  rewrite <- Z.pow_add_r by lia. replace (n + (32 - n)) with 32 by lia. lia.
Qed.

Section AddressValues.
Import Address.
Context `{Host}.

Lemma ipv4_address_is_private_ranges (addr : Z) :
  0 <= addr < 2 ^ 32 ->
  ipv4_address_is_private addr = true <->
  (0x0a000000 <= addr <= 0x0affffff \/ 0xac100000 <= addr <= 0xac1fffff \/
   0xc0a80000 <= addr <= 0xc0a8ffff \/ 0x7f000000 <= addr <= 0x7fffffff).
Proof.
  intros Haddr. unfold ipv4_address_is_private.
  change 0xff000000 with (Z.shiftl (Z.ones (32 - 24)) 24).
  change 0xfff00000 with (Z.shiftl (Z.ones (32 - 20)) 20).
  change 0xffff0000 with (Z.shiftl (Z.ones (32 - 16)) 16).
  rewrite !land_prefix_mask by lia.
  change (2 ^ 32) with 4294967296 in Haddr.
  change (2 ^ 24) with 16777216. change (2 ^ 20) with 1048576.
  change (2 ^ 16) with 65536.
  rewrite !orb_true_iff, !Z.eqb_eq.
  Z.to_euclidean_division_equations. lia.
Qed.

(** X1. [nice_address_is_private] of an IPv4 address whose number is a
    32-bit value returns TRUE exactly when the address lies in 10.0.0.0/8,
    172.16.0.0/12, 192.168.0.0/16 or 127.0.0.0/8; for an address of any
    other type the call aborts. *)
Theorem nice_address_is_private_ranges (a : NiceAddress) :
  0 <= addr_ipv4 a < 2 ^ 32 ->
  (type a = NICE_ADDRESS_TYPE_IPV4 ->
   exists b, nice_address_is_private a = Normal b /\
     (b = true <->
      (0x0a000000 <= addr_ipv4 a <= 0x0affffff \/
       0xac100000 <= addr_ipv4 a <= 0xac1fffff \/
       0xc0a80000 <= addr_ipv4 a <= 0xc0a8ffff \/
       0x7f000000 <= addr_ipv4 a <= 0x7fffffff))) /\
  (type a <> NICE_ADDRESS_TYPE_IPV4 -> nice_address_is_private a = Abort).
Proof.
  intros Haddr. unfold nice_address_is_private. split.
  - intros ->. simpl. eexists. split; [reflexivity|].
    now apply ipv4_address_is_private_ranges.
  - intros Hty. destruct (Z.eqb_spec (type a) NICE_ADDRESS_TYPE_IPV4); congruence.
Qed.

Lemma memcmp_eq_vec (x y : vec byte 16) :
  memcmp_eq (vec_to_list x) (vec_to_list y) INET_ADDRSTRLEN = true <-> x = y.
Proof.
  unfold memcmp_eq. rewrite bool_decide_eq_true.
  rewrite !take_ge by (rewrite length_vec_to_list; unfold INET_ADDRSTRLEN; lia).
  split; [apply vec_to_list_inj2|now intros ->].
Qed.

Lemma nice_address_equal_true (a b : NiceAddress) :
  nice_address_equal a b = Normal true <->
  type a = type b /\ port a = port b /\
  (type a = NICE_ADDRESS_TYPE_IPV4 /\ addr_ipv4 a = addr_ipv4 b \/
   type a = NICE_ADDRESS_TYPE_IPV6 /\ addr_ipv6 a = addr_ipv6 b).
Proof.
  unfold nice_address_equal.
  destruct (Z.eqb_spec (type a) (type b)) as [Et|Et]; simpl.
  - destruct (Z.eqb_spec (type a) NICE_ADDRESS_TYPE_IPV4) as [E4|E4];
      [|destruct (Z.eqb_spec (type a) NICE_ADDRESS_TYPE_IPV6) as [E6|E6]].
    + split.
      * intros E. injection E as E. apply andb_prop in E as [E1 E2].
        apply Z.eqb_eq in E1, E2. auto.
      * intros (_ & Hp & [[_ Ha]|[E6 _]]).
        -- rewrite Ha, Hp, !Z.eqb_refl. reflexivity.
        -- rewrite E4 in E6. discriminate E6.
    + split.
      * intros E. injection E as E. apply andb_prop in E as [E1 E2].
        apply Z.eqb_eq in E2. apply memcmp_eq_vec in E1. auto.
      * intros (_ & Hp & [[E4' _]|[_ Ha]]); [congruence|].
        rewrite Ha, Hp, Z.eqb_refl.
        rewrite (proj2 (memcmp_eq_vec _ _) eq_refl). reflexivity.
    + split; [discriminate|]. intros (_ & _ & [[? _]|[? _]]); congruence.
  - split; [discriminate|]. intros (? & _). congruence.
Qed.

(** X2. [nice_address_equal] returns TRUE exactly when the two addresses
    have the same type, the same port and, for that type, the same IPv4
    number or the same 16 bytes of IPv6 address; it returns FALSE whenever
    the types differ; and it aborts exactly when the types are equal and
    neither IPv4 nor IPv6. *)
Theorem nice_address_equal_spec (a b : NiceAddress) :
  (nice_address_equal a b = Normal true <->
   type a = type b /\ port a = port b /\
   (type a = NICE_ADDRESS_TYPE_IPV4 /\ addr_ipv4 a = addr_ipv4 b \/
    type a = NICE_ADDRESS_TYPE_IPV6 /\ addr_ipv6 a = addr_ipv6 b)) /\
  (type a <> type b -> nice_address_equal a b = Normal false) /\
  (nice_address_equal a b = Abort <->
   type a = type b /\ type a <> NICE_ADDRESS_TYPE_IPV4 /\
   type a <> NICE_ADDRESS_TYPE_IPV6).
Proof.
  split; [apply nice_address_equal_true|]. unfold nice_address_equal.
  destruct (Z.eqb_spec (type a) (type b)) as [Et|Et]; simpl.
  - split; [congruence|].
    destruct (Z.eqb_spec (type a) NICE_ADDRESS_TYPE_IPV4) as [E4|E4];
      [|destruct (Z.eqb_spec (type a) NICE_ADDRESS_TYPE_IPV6) as [E6|E6]].
    + split; [discriminate|]. intros (_ & ? & _). congruence.
    + split; [discriminate|]. intros (_ & _ & ?). congruence.
    + split; auto.
  - split; [reflexivity|]. split; [discriminate|]. intros (? & _). congruence.
Qed.

Lemma memcmp_eq_sym (x y : list byte) (n : Z) : memcmp_eq x y n = memcmp_eq y x n.
Proof. unfold memcmp_eq. apply bool_decide_ext. split; congruence. Qed.

(** X3. [nice_address_equal] gives the same result (abort included) with
    its arguments exchanged, and is transitive; an address of type IPv4 or
    IPv6 is equal to itself and to its [nice_address_dup]; comparing an
    address of another type with itself aborts. *)
Theorem nice_address_equal_equivalence (a b c : NiceAddress) :
  nice_address_equal a b = nice_address_equal b a /\
  (nice_address_equal a b = Normal true ->
   nice_address_equal b c = Normal true ->
   nice_address_equal a c = Normal true) /\
  (type a = NICE_ADDRESS_TYPE_IPV4 \/ type a = NICE_ADDRESS_TYPE_IPV6 ->
   nice_address_equal a a = Normal true /\
   nice_address_equal a (nice_address_dup a) = Normal true) /\
  (type a <> NICE_ADDRESS_TYPE_IPV4 -> type a <> NICE_ADDRESS_TYPE_IPV6 ->
   nice_address_equal a a = Abort).
Proof.
  split; [|split; [|split]].
  - unfold nice_address_equal. rewrite (Z.eqb_sym (type b) (type a)).
    destruct (Z.eqb_spec (type a) (type b)) as [Et|Et]; simpl; [|reflexivity].
    rewrite <- Et.
    rewrite (Z.eqb_sym (addr_ipv4 b)), (Z.eqb_sym (port b)).
    now rewrite (memcmp_eq_sym (vec_to_list (addr_ipv6 b))).
  - intros Hab Hbc.
    apply nice_address_equal_true in Hab as (Et & Ep & Ha).
    apply nice_address_equal_true in Hbc as (Et' & Ep' & Ha').
    apply nice_address_equal_true.
    split; [congruence|]. split; [congruence|].
    destruct Ha as [[E4 Ha]|[E6 Ha]]; destruct Ha' as [[E4' Ha']|[E6' Ha']].
    + left. split; congruence.
    + exfalso. rewrite <- Et, E4 in E6'. discriminate E6'.
    + exfalso. rewrite <- Et, E6 in E4'. discriminate E4'.
    + right. split; congruence.
  - intros Hty. unfold nice_address_dup.
    assert (nice_address_equal a a = Normal true); [|auto].
    apply nice_address_equal_true. tauto.
  - intros H4 H6. unfold nice_address_equal. rewrite Z.eqb_refl. simpl.
    destruct (Z.eqb_spec (type a) NICE_ADDRESS_TYPE_IPV4); [congruence|].
    destruct (Z.eqb_spec (type a) NICE_ADDRESS_TYPE_IPV6); [congruence|].
    reflexivity.
Qed.

Lemma be_bytes_be_value (l : list byte) : be_bytes (length l) (be_value l) = l.
Proof.
  unfold be_bytes, be_value. rewrite <- (length_rev l), le_bytes_le_value.
  apply rev_involutive.
Qed.

Lemma htons_ntohs (x : Z) : 0 <= x < 2 ^ 16 -> htons (ntohs x) = x.
Proof.
  intros Hx. unfold htons, ntohs.
  rewrite <- (length_host_bytes 2 x) at 1. rewrite be_bytes_be_value.
  rewrite host_value_host_bytes. now apply Z.mod_small.
Qed.

Lemma htonl_ntohl (x : Z) : 0 <= x < 2 ^ 32 -> htonl (ntohl x) = x.
Proof.
  intros Hx. unfold htonl, ntohl.
  rewrite <- (length_host_bytes 4 x) at 1. rewrite be_bytes_be_value.
  rewrite host_value_host_bytes. now apply Z.mod_small.
Qed.

(** X4. The way back of C8: a socket address of family AF_INET or AF_INET6
    read with [nice_address_set_from_sockaddr] and written with
    [nice_address_copy_to_sockaddr] gives back the family, the port and the
    address of that family, and leaves the other address member of the
    target as it was; what the NiceAddress held before does not matter to
    [nice_address_equal]. *)
Theorem nice_address_from_sockaddr_roundtrip
    (sin sin0 : sockaddr) (fresh fresh' : NiceAddress) :
  0 <= sin_port sin < 2 ^ 16 -> 0 <= sin_addr sin < 2 ^ 32 ->
  sa_family sin = AF_INET \/ sa_family sin = AF_INET6 ->
  exists a a' sin',
    nice_address_set_from_sockaddr fresh sin = Normal a /\
    nice_address_set_from_sockaddr fresh' sin = Normal a' /\
    nice_address_equal a a' = Normal true /\
    nice_address_copy_to_sockaddr a sin0 = Normal sin' /\
    sa_family sin' = sa_family sin /\ sin_port sin' = sin_port sin /\
    (sa_family sin = AF_INET ->
     sin_addr sin' = sin_addr sin /\ sin6_addr sin' = sin6_addr sin0) /\
    (sa_family sin = AF_INET6 ->
     sin6_addr sin' = sin6_addr sin /\ sin_addr sin' = sin_addr sin0).
Proof.
  intros Hport Haddr Hfam.
  pose proof (ntohs_range (sin_port sin)) as Hp.
  pose proof (ntohl_range (sin_addr sin)) as Ha.
  unfold nice_address_set_from_sockaddr.
  destruct Hfam as [Hfam|Hfam]; rewrite Hfam; simpl.
  - eexists _, _, _. split; [reflexivity|]. split; [reflexivity|].
    split; [apply nice_address_equal_true; simpl; tauto|].
    unfold nice_address_copy_to_sockaddr. simpl.
    split; [reflexivity|]. simpl.
    rewrite (uint32_small (ntohl _)), (uint16_small (ntohs _)) by assumption.
    rewrite htons_ntohs, htonl_ntohl by assumption.
    repeat split; auto; try (intros E; discriminate E); try discriminate.
  - eexists _, _, _. split; [reflexivity|]. split; [reflexivity|].
    split; [apply nice_address_equal_true; simpl; tauto|].
    unfold nice_address_copy_to_sockaddr. simpl.
    split; [reflexivity|]. simpl.
    rewrite (uint16_small (ntohs _)) by assumption.
    rewrite htons_ntohs by assumption.
    repeat split; auto; try (intros E; discriminate E); try discriminate.
Qed.
End AddressValues.

(** ** stun/stunsend.c: the header of requests and responses *)

Section StunHeaders.
Import Stun.
Context `{Host} `{StunEnv}.

Lemma class_bits_nonneg (t : Z) : 0 <= class_bits t.
Proof.
  unfold class_bits. apply Z.lor_nonneg.
  split; apply Z.shiftr_nonneg, Z.land_nonneg; right; lia.
Qed.

Lemma method_bits_nonneg (t : Z) : 0 <= method_bits t.
Proof.
  unfold method_bits. repeat (apply Z.lor_nonneg; split);
    try apply Z.shiftr_nonneg; apply Z.land_nonneg; right; lia.
Qed.

Lemma stun_set_type_abort (c m : Z) (msg : list byte) :
  ~ (0 <= c < 4 /\ 0 <= m < 4096) -> stun_set_type c m msg = Abort.
Proof.
  intros Hno.
  unfold stun_set_type, store, buffer, mbind, M_bind, mret, M_ret.
  unfold assert at 1. destruct (Z.ltb_spec c 4) as [Hc|?]; [|reflexivity].
  unfold assert at 1. change (Z.shiftl 1 12) with 4096.
  destruct (Z.ltb_spec m 4096) as [Hm|?]; [|reflexivity].
  unfold assert at 1.
  destruct (stun_getw _ 0 <? Z.shiftl 1 14); [|reflexivity].
  unfold assert at 1.
  match goal with |- context [stun_get_class ?h =? c] =>
    destruct (Z.eqb_spec (stun_get_class h) c) as [Ec|Ec];
    [|reflexivity];
    unfold assert;
    destruct (Z.eqb_spec (stun_get_method h) m) as [Em|Em];
    [|reflexivity];
    pose proof (class_bits_nonneg (stun_getw h 0)) as H1;
    pose proof (method_bits_nonneg (stun_getw h 0)) as H2;
    unfold stun_get_class in Ec; unfold stun_get_method in Em; lia
  end.
Qed.

Lemma stun_init_abort (c m : Z) (id msg : list byte) :
  ~ (0 <= c < 4 /\ 0 <= m < 4096) -> stun_init c m id msg = Abort.
Proof.
  intros Hno. unfold stun_init.
  unfold mbind at 1, M_bind at 1, store at 1.
  unfold mbind at 1, M_bind at 1.
  now rewrite stun_set_type_abort.
Qed.

Lemma stun_init_frame (c m : Z) (id msg msg' : list byte) :
  stun_init c m id msg = Normal (tt, msg') ->
  length msg' = length msg /\
  forall i, 20 <= i -> load8 msg' i = load8 msg i.
Proof.
  intros E.
  destruct (decide (0 <= c < 4 /\ 0 <= m < 4096)) as [[Hc Hm]|Hno];
    [|now rewrite stun_init_abort in E].
  destruct (decide (2 <= Z.of_nat (length msg))) as [Hlen|Hlen].
  - rewrite stun_init_run in E by assumption. injection E as <-.
    split; [now rewrite !length_memcpy_at|].
    intros i Hi.
    assert (length (take 12 id) <= 12)%nat by (rewrite length_take; lia).
    rewrite !load8_memcpy_at_out by (simpl; lia). reflexivity.
  - (* a buffer too short for the type bytes: the stores are dropped *)
    unfold stun_init in E.
    unfold mbind at 1, M_bind at 1, store at 1 in E.
    unfold mbind at 1, M_bind at 1 in E.
    destruct (stun_set_type c m _) as [[[] msg1]|] eqn:E1; [|discriminate].
    unfold store in E. injection E as <-.
    assert (Hl1 : length msg1 = length msg /\
                  forall i, 20 <= i -> load8 msg1 i = load8 msg i).
    { unfold stun_set_type, store, buffer, mbind, M_bind, mret, M_ret in E1.
      unfold assert at 1 in E1. destruct (c <? 4); [|discriminate].
      unfold assert at 1 in E1. destruct (m <? _); [|discriminate].
      unfold assert at 1 in E1. destruct (_ <? _); [|discriminate].
      unfold assert at 1 in E1. destruct (_ =? _); [|discriminate].
      unfold assert in E1. destruct (_ =? _); [|discriminate].
      injection E1 as <-. split; [now rewrite !length_memcpy_at|].
      intros i Hi. rewrite !load8_memcpy_at_out by (simpl; lia). reflexivity. }
    destruct Hl1 as [Hl1 Hf1].
    split; [rewrite length_memcpy_at; lia|].
    intros i Hi.
    assert (length (take 12 id) <= 12)%nat by (rewrite length_take; lia).
    rewrite load8_memcpy_at_out by lia. auto.
Qed.

(** X5. On a buffer of at least two bytes [stun_init] aborts exactly when
    the class is not below 4 or the method not below 4096 (the assertions
    of [stun_set_type]), and [stun_init_request] exactly when the method is
    not; when they return, the buffer has kept its size and its bytes from
    offset 20 on, and [stun_init_request] has advanced the transaction
    counter by one modulo 2^64. *)
Theorem stun_init_abort_iff (c m store_counter : Z) (id msg : list byte) :
  2 <= Z.of_nat (length msg) ->
  (stun_init c m id msg = Abort <-> ~ (0 <= c < 4 /\ 0 <= m < 4096)) /\
  (stun_init_request store_counter m msg = Abort <-> ~ (0 <= m < 4096)) /\
  (forall msg', stun_init c m id msg = Normal (tt, msg') ->
     length msg' = length msg /\
     forall i, 20 <= i -> load8 msg' i = load8 msg i) /\
  (forall store_counter' msg',
     stun_init_request store_counter m msg = Normal (store_counter', msg') ->
     store_counter' = uint64 (store_counter + 1) /\
     length msg' = length msg /\
     forall i, 20 <= i -> load8 msg' i = load8 msg i).
Proof.
  intros Hlen. split; [|split; [|split]].
  - split; [|apply stun_init_abort].
    intros E [Hc Hm]. rewrite stun_init_run in E by assumption. discriminate E.
  - unfold stun_init_request. simpl. unfold mbind, M_bind. split.
    + intros E Hm.
      rewrite stun_init_run in E by (unfold STUN_REQUEST; lia).
      discriminate E.
    + intros Hm. rewrite stun_init_abort; [reflexivity|].
      intros [_ Hm']. auto.
  - intros msg'. apply stun_init_frame.
  - intros c' msg'. unfold stun_init_request. simpl. unfold mbind, M_bind.
    destruct (stun_init _ _ _ _) as [[[] msg1]|] eqn:E; [|discriminate].
    intros E'. injection E' as <- <-.
    split; [reflexivity|]. eapply stun_init_frame, E.
Qed.

(** X6. [stun_init_response] on a message of class REQUEST returns and
    leaves in the answer buffer, which may be the request itself, a header
    of class RESPONSE with the method and the transaction identifier of the
    request, the magic cookie and a zero length; the buffer keeps its size
    and its bytes from offset 20 on.  On a message of any other class it
    aborts. *)
Theorem stun_init_response_spec (req ans : list byte) :
  20 <= Z.of_nat (length ans) ->
  (stun_get_class req = STUN_REQUEST ->
   exists ans',
     stun_init_response req ans = Normal (tt, ans') /\
     stun_get_class ans' = STUN_RESPONSE /\
     stun_get_method ans' = stun_get_method req /\
     (20 <= Z.of_nat (length req) -> stun_id ans' = stun_id req) /\
     stun_length ans' = 0 /\
     bytes_at ans' 4 4 = [Byte.x21; Byte.x12; Byte.xa4; Byte.x42] /\
     length ans' = length ans /\
     forall i, 20 <= i -> load8 ans' i = load8 ans i) /\
  (stun_get_class req <> STUN_REQUEST ->
   stun_init_response req ans = Abort).
Proof.
  intros Hlen. unfold stun_init_response, mbind, M_bind, assert. split.
  - intros Hcls. rewrite Hcls, Z.eqb_refl.
    pose proof (method_bits_range (stun_getw req 0) (stun_getw_range req 0))
      as Hm. fold (stun_get_method req) in Hm.
    destruct (stun_init_spec STUN_RESPONSE (stun_get_method req) (stun_id req)
                ans)
      as (ans' & E & Hl & _ & _ & Hcl & Hme & _ & Hl0 & Hck & Hid);
      [unfold STUN_RESPONSE; lia|lia|exact Hlen|].
    exists ans'. split; [exact E|].
    split; [exact Hcl|]. split; [exact Hme|].
    split.
    { intros Hreq. apply Hid. unfold stun_id, bytes_at.
      rewrite length_take, length_drop. lia. }
    split; [exact Hl0|]. split; [exact Hck|].
    apply (stun_init_frame _ _ _ _ _ E).
  - intros Hcls. destruct (Z.eqb_spec (stun_get_class req) STUN_REQUEST);
      [contradiction|reflexivity].
Qed.
End StunHeaders.

(** ** stun/stunsend.c: the payloads of the appenders *)

Section StunPayloads.
Import Stun.
Context `{Host} `{StunEnv}.

Lemma reserved_payload_slot (msg : list byte) (type len : Z) (d : list byte) :
  0 <= len -> Z.of_nat (length d) <= len ->
  let msg' := memcpy_at (reserved msg type len) (24 + stun_length msg) d in
  (24 + stun_length msg + Z.of_nat (length d) <= Z.of_nat (length msg) ->
   bytes_at msg' (24 + stun_length msg) (Z.of_nat (length d)) = d) /\
  (forall i, 24 + stun_length msg + len <= i
               < 24 + stun_length msg + len + stun_padding len ->
             i < Z.of_nat (length msg) -> load8 msg' i = 32) /\
  (forall i, 24 + stun_length msg + len + stun_padding len <= i ->
             load8 msg' i = load8 msg i).
Proof.
  intros Hlen Hd msg'. subst msg'.
  pose proof (stun_length_range msg) as HL.
  pose proof (stun_padding_range len) as Hp.
  split; [|split].
  - intros Hfit. apply bytes_at_memcpy_at; rewrite ?length_reserved; lia.
  - intros i Hi Hin.
    rewrite load8_memcpy_at_out by lia. unfold reserved.
    rewrite load8_memcpy_at_out by (rewrite ?length_be_bytes; lia).
    rewrite load8_memcpy_at_in
      by (rewrite ?length_replicate, ?length_memcpy_at; lia).
    rewrite lookup_replicate_2 by lia. reflexivity.
  - intros i Hi.
    rewrite load8_memcpy_at_out by lia. unfold reserved.
    rewrite !load8_memcpy_at_out
      by (rewrite ?length_be_bytes, ?length_replicate; lia).
    reflexivity.
Qed.

Lemma stun_append_bytes_written (msize type : Z) (data : list byte)
    (len : Z) (msg : list byte) :
  stun_padding (stun_length msg) = 0 -> object_size len ->
  STUN_MAXMSG <= 65552 -> msize <= Z.of_nat (length msg) ->
  len <= Z.of_nat (length data) ->
  stun_length msg + 24 + len <= Z.min msize STUN_MAXMSG ->
  exists msg',
    stun_append_bytes msize type data len msg = Normal (Success, msg') /\
    length msg' = length msg /\
    stun_getw msg' (20 + stun_length msg) = uint16 type /\
    stun_getw msg' (22 + stun_length msg) = len /\
    bytes_at msg' (24 + stun_length msg) len = take (Z.to_nat len) data /\
    stun_length msg' = stun_length msg + 4 + len + stun_padding len /\
    (forall i, 24 + stun_length msg + len <= i
                 < 24 + stun_length msg + len + stun_padding len ->
               i < Z.of_nat (length msg) -> load8 msg' i = 32) /\
    (forall i, 0 <= i < 2 \/ 4 <= i < 20 + stun_length msg \/
               24 + stun_length msg + len + stun_padding len <= i ->
               load8 msg' i = load8 msg i).
Proof.
  intros Hal Hobj Hmax Hsize Hdata Hfit.
  assert (Hlen0 : 0 <= len) by (destruct Hobj; lia).
  destruct (stun_append_bytes_cases msize type data len msg Hal Hobj Hmax Hsize)
    as [[Hno E]|(_ & msg' & Emsg & E & Happ)]; [lia|].
  exists msg'. split; [exact E|].
  destruct Happ as (Hl & HL & Ht & Hn & Hfr).
  assert (Hd : Z.of_nat (length (take (Z.to_nat len) data)) = len)
    by (rewrite length_take; lia).
  destruct (reserved_payload_slot msg type len (take (Z.to_nat len) data)
              Hlen0 ltac:(lia)) as (Hpay & Hpad & Haft).
  rewrite <- Emsg in Hpay, Hpad, Haft. rewrite Hd in Hpay.
  split; [exact Hl|]. split; [exact Ht|].
  split; [rewrite <- Hn; f_equal; lia|].
  split; [apply Hpay; lia|]. split; [exact HL|]. split; [exact Hpad|].
  intros i [Hi|[Hi|Hi]]; [apply Hfr; lia|apply Hfr; lia|apply Haft; lia].
Qed.

(** X7. [stun_append_bytes] with [len] bytes of data on an aligned message:
    if [stun_length + 24 + len] exceeds the smaller of [msize] and
    STUN_MAXMSG it returns ENOBUFS and the buffer is unchanged; otherwise
    it returns 0, the attribute header holds the type and [len], the
    payload holds the data, the padding bytes inside the buffer are 0x20,
    the length field has advanced by [4 + len + padding], and every byte
    outside the length field and the new attribute is as before. *)
Theorem stun_append_bytes_payload (msize type : Z) (data : list byte)
    (len : Z) (msg : list byte) :
  stun_padding (stun_length msg) = 0 -> object_size len ->
  STUN_MAXMSG <= 65552 -> msize <= Z.of_nat (length msg) ->
  len <= Z.of_nat (length data) ->
  (stun_length msg + 24 + len > Z.min msize STUN_MAXMSG ->
   stun_append_bytes msize type data len msg = Normal (ENOBUFS, msg)) /\
  (stun_length msg + 24 + len <= Z.min msize STUN_MAXMSG ->
   exists msg',
     stun_append_bytes msize type data len msg = Normal (Success, msg') /\
     length msg' = length msg /\
     stun_getw msg' (20 + stun_length msg) = uint16 type /\
     stun_getw msg' (22 + stun_length msg) = len /\
     bytes_at msg' (24 + stun_length msg) len = take (Z.to_nat len) data /\
     stun_length msg' = stun_length msg + 4 + len + stun_padding len /\
     (forall i, 24 + stun_length msg + len <= i
                  < 24 + stun_length msg + len + stun_padding len ->
                i < Z.of_nat (length msg) -> load8 msg' i = 32) /\
     (forall i, 0 <= i < 2 \/ 4 <= i < 20 + stun_length msg \/
                24 + stun_length msg + len + stun_padding len <= i ->
                load8 msg' i = load8 msg i)).
Proof.
  intros Hal Hobj Hmax Hsize Hdata. split.
  - intros Hno.
    destruct (stun_append_bytes_cases msize type data len msg Hal Hobj Hmax
                Hsize) as [[_ E]|(Hfit & _)]; [exact E|lia].
  - now apply stun_append_bytes_written.
Qed.

Lemma le_bytes_mod (n : nat) (v : Z) :
  le_bytes n (v mod 256 ^ Z.of_nat n) = le_bytes n v.
Proof.
  apply le_value_inj; [now rewrite !length_le_bytes|].
  rewrite !le_value_le_bytes. apply Z.mod_mod. lia.
Qed.

Lemma le_bytes_app (n m : nat) (v : Z) :
  le_bytes (n + m) v = le_bytes n v ++ le_bytes m (v / 256 ^ Z.of_nat n).
Proof.
  revert v. induction n as [|n IH]; intros v.
  - simpl. now rewrite Z.div_1_r.
  - change (S n + m)%nat with (S (n + m)). simpl le_bytes. rewrite IH.
    simpl. do 3 f_equal. rewrite Nat2Z.inj_succ, Z.pow_succ_r by lia.
    rewrite Z.div_div by lia. reflexivity.
Qed.

Lemma be_value_be_bytes (n : nat) (v : Z) :
  be_value (be_bytes n v) = v mod 256 ^ Z.of_nat n.
Proof.
  unfold be_value, be_bytes. rewrite rev_involutive. apply le_value_le_bytes.
Qed.

Lemma be_bytes_uint32 (v : Z) : be_bytes 4 (uint32 v) = be_bytes 4 v.
Proof. unfold be_bytes, uint32. f_equal. apply (le_bytes_mod 4). Qed.

Lemma be_bytes_uint64_halves (v : Z) :
  be_bytes 4 (uint32 (Z.shiftr (uint64 v) 32)) ++ be_bytes 4 (uint32 (uint64 v))
  = be_bytes 8 v.
Proof.
  rewrite !be_bytes_uint32. unfold be_bytes.
  rewrite <- rev_app_distr. f_equal.
  rewrite Z.shiftr_div_pow2 by lia.
  rewrite <- (le_bytes_mod 8 v). change (256 ^ Z.of_nat 8) with (2 ^ 64).
  unfold uint64. apply eq_sym, (le_bytes_app 4 4).
Qed.

(** X8. [stun_append32] and [stun_append64] store the value most
    significant byte first whatever the byte order of the host: the 4 (8)
    payload bytes are the big-endian bytes of the value and read back as
    the value modulo 2^32 (2^64); the attribute has length 4 (8) and the
    length field advances by 8 (12). *)
Theorem stun_append32_64_big_endian (msize type value : Z) (msg : list byte) :
  stun_padding (stun_length msg) = 0 ->
  STUN_MAXMSG <= 65552 -> msize <= Z.of_nat (length msg) ->
  (stun_length msg + 28 <= Z.min msize STUN_MAXMSG ->
   exists msg',
     stun_append32 msize type value msg = Normal (Success, msg') /\
     stun_getw msg' (20 + stun_length msg) = uint16 type /\
     stun_getw msg' (22 + stun_length msg) = 4 /\
     bytes_at msg' (24 + stun_length msg) 4 = be_bytes 4 value /\
     be_value (bytes_at msg' (24 + stun_length msg) 4) = uint32 value /\
     stun_length msg' = stun_length msg + 8) /\
  (stun_length msg + 32 <= Z.min msize STUN_MAXMSG ->
   exists msg',
     stun_append64 msize type value msg = Normal (Success, msg') /\
     stun_getw msg' (20 + stun_length msg) = uint16 type /\
     stun_getw msg' (22 + stun_length msg) = 8 /\
     bytes_at msg' (24 + stun_length msg) 8 = be_bytes 8 value /\
     be_value (bytes_at msg' (24 + stun_length msg) 8) = uint64 value /\
     stun_length msg' = stun_length msg + 12).
Proof.
  intros Hal Hmax Hsize.
  assert (H32 : stun_append32 msize type value msg
                = stun_append_bytes msize type (be_bytes 4 value) 4 msg).
  { unfold stun_append32. now rewrite host_bytes_htonl, be_bytes_uint32. }
  assert (H64 : stun_append64 msize type value msg
                = stun_append_bytes msize type (be_bytes 8 value) 8 msg).
  { unfold stun_append64. cbv zeta.
    now rewrite !host_bytes_htonl, be_bytes_uint64_halves. }
  rewrite H32, H64. split; intros Hfit.
  - destruct (stun_append_bytes_written msize type (be_bytes 4 value) 4 msg
                Hal (small_object 4 eq_refl) Hmax Hsize
                ltac:(rewrite length_be_bytes; lia) ltac:(lia))
      as (msg' & E & _ & Ht & Hn & Hpay & HL & _).
    exists msg'. split; [exact E|]. split; [exact Ht|]. split; [exact Hn|].
    rewrite Hpay, HL. change (take (Z.to_nat 4) (be_bytes 4 value))
      with (take 4 (be_bytes 4 value)).
    rewrite firstn_all2 by (rewrite length_be_bytes; lia).
    split; [reflexivity|]. split; [apply (be_value_be_bytes 4)|].
    change (stun_padding 4) with 0. lia.
  - destruct (stun_append_bytes_written msize type (be_bytes 8 value) 8 msg
                Hal (small_object 8 eq_refl) Hmax Hsize
                ltac:(rewrite length_be_bytes; lia) ltac:(lia))
      as (msg' & E & _ & Ht & Hn & Hpay & HL & _).
    exists msg'. split; [exact E|]. split; [exact Ht|]. split; [exact Hn|].
    rewrite Hpay, HL. change (take (Z.to_nat 8) (be_bytes 8 value))
      with (take 8 (be_bytes 8 value)).
    rewrite firstn_all2 by (rewrite length_be_bytes; lia).
    split; [reflexivity|]. split; [apply (be_value_be_bytes 8)|].
    change (stun_padding 8) with 0. lia.
Qed.

Lemma strlen_spec (str : list byte) :
  (Byte.x00 ∉ take (Z.to_nat (strlen str)) str) /\
  (strlen str < Z.of_nat (length str) ->
   str !! Z.to_nat (strlen str) = Some Byte.x00).
Proof.
  induction str as [|c str [IH1 IH2]]; simpl strlen.
  - split; [simpl; apply not_elem_of_nil|simpl; lia].
  - pose proof (strlen_range str) as Hr.
    destruct (decide (c = Byte.x00)) as [->|Hc].
    + split; [simpl; apply not_elem_of_nil|reflexivity].
    + replace (Z.to_nat (1 + strlen str)) with (S (Z.to_nat (strlen str)))
        by lia.
      split.
      * simpl. rewrite not_elem_of_cons. split; [congruence|exact IH1].
      * intros Hlt. simpl. apply IH2. simpl length in Hlt. lia.
Qed.

(** X9. [stun_append_string] appends the bytes of the string before its
    terminating NUL: the payload holds no NUL byte and is [strlen] bytes
    long, the NUL itself is not stored.  [stun_append_flag] appends an
    attribute with an empty payload, 4 bytes in all. *)
Theorem stun_append_string_payload (msize type : Z) (str msg : list byte) :
  stun_padding (stun_length msg) = 0 -> object_size (strlen str) ->
  STUN_MAXMSG <= 65552 -> msize <= Z.of_nat (length msg) ->
  let text := take (Z.to_nat (strlen str)) str in
  (Byte.x00 ∉ text) /\
  (strlen str < Z.of_nat (length str) -> str !! length text = Some Byte.x00) /\
  (stun_length msg + 24 + strlen str <= Z.min msize STUN_MAXMSG ->
   exists msg',
     stun_append_string msize type str msg = Normal (Success, msg') /\
     stun_getw msg' (20 + stun_length msg) = uint16 type /\
     stun_getw msg' (22 + stun_length msg) = Z.of_nat (length text) /\
     bytes_at msg' (24 + stun_length msg) (Z.of_nat (length text)) = text /\
     stun_length msg'
       = stun_length msg + 4 + strlen str + stun_padding (strlen str)) /\
  (stun_length msg + 24 <= Z.min msize STUN_MAXMSG ->
   exists msg',
     stun_append_flag msize type msg = Normal (Success, msg') /\
     stun_getw msg' (20 + stun_length msg) = uint16 type /\
     stun_getw msg' (22 + stun_length msg) = 0 /\
     stun_length msg' = stun_length msg + 4).
Proof.
  intros Hal Hobj Hmax Hsize text.
  pose proof (strlen_range str) as Hr.
  destruct (strlen_spec str) as [Hnul Hend].
  assert (Htext : Z.of_nat (length text) = strlen str)
    by (unfold text; rewrite length_take; lia).
  split; [exact Hnul|]. split.
  { intros Hlt. replace (length text) with (Z.to_nat (strlen str)) by lia.
    auto. }
  split; intros Hfit.
  - destruct (stun_append_bytes_written msize type str (strlen str) msg
                Hal Hobj Hmax Hsize ltac:(lia) Hfit)
      as (msg' & E & _ & Ht & Hn & Hpay & HL & _).
    exists msg'. rewrite Htext. auto.
  - destruct (stun_append_bytes_written msize type [] 0 msg
                Hal (small_object 0 eq_refl) Hmax Hsize
                ltac:(simpl; lia) ltac:(lia))
      as (msg' & E & _ & Ht & Hn & _ & HL & _).
    exists msg'. split; [exact E|]. split; [exact Ht|]. split; [exact Hn|].
    rewrite HL. change (stun_padding 0) with 0. lia.
Qed.

(** X10. [stun_append] on an aligned message always returns, NULL or the
    offset of the payload, and changes no byte outside the length field and
    the new attribute; NULL leaves the buffer as it was.  With [cap] the
    smaller of [msize] and STUN_MAXMSG, no byte at or after [cap + 3] is
    written, and none at or after [cap] when [cap] is a multiple of 4: only
    the padding of the new attribute can go beyond [cap]. *)
Theorem stun_append_bounds (msize type len : Z) (msg : list byte) :
  stun_padding (stun_length msg) = 0 -> object_size len ->
  STUN_MAXMSG <= 65552 ->
  let cap := Z.min msize STUN_MAXMSG in
  exists ptr msg',
    stun_append msize type len msg = Normal (ptr, msg') /\
    length msg' = length msg /\
    (ptr = None -> msg' = msg) /\
    (forall i, 0 <= i < 2 \/ 4 <= i < 20 + stun_length msg \/
               24 + stun_length msg + len + stun_padding len <= i ->
               load8 msg' i = load8 msg i) /\
    (forall i, cap + 3 <= i -> load8 msg' i = load8 msg i) /\
    (cap mod 4 = 0 -> forall i, cap <= i -> load8 msg' i = load8 msg i).
Proof.
  intros Hal Hobj Hmax cap.
  assert (Hlen0 : 0 <= len) by (destruct Hobj; lia).
  pose proof (stun_length_range msg) as HL.
  pose proof (stun_padding_range len) as Hp.
  destruct (Z_le_gt_dec (stun_length msg + 24 + len) cap) as [Hfit|Hno].
  - exists (Some (24 + stun_length msg)), (reserved msg type len).
    split; [now apply stun_append_success|].
    split; [apply length_reserved|]. split; [discriminate|].
    destruct (reserved_payload_slot msg type len [] Hlen0 ltac:(simpl; lia))
      as (_ & _ & Haft).
    change (memcpy_at (reserved msg type len) (24 + stun_length msg) [])
      with (reserved msg type len) in Haft.
    split; [|split].
    + intros i [Hi|[Hi|Hi]]; [apply load8_reserved; lia
                              |apply load8_reserved; lia|now apply Haft].
    + intros i Hi. apply Haft. lia.
    + intros Hcap i Hi. apply Haft.
      pose proof (stun_padding_aligns len) as Hpa.
      pose proof (proj1 (stun_padding_0 _) Hal) as Hal'.
      clearbody cap. generalize dependent (stun_padding len).
      generalize dependent (stun_length msg). intros.
      Z.to_euclidean_division_equations; lia.
  - exists None, msg. split; [now apply stun_append_nospace|]. auto.
Qed.

(** The attribute that a payload stored in the reserved slot makes. *)
Lemma reserved_written (msg : list byte) (type : Z) (d : list byte) :
  let len := Z.of_nat (length d) in
  let msg' := memcpy_at (reserved msg type len) (24 + stun_length msg) d in
  24 + stun_length msg + len <= Z.of_nat (length msg) ->
  stun_length msg + 4 + len + stun_padding len < 65536 ->
  length msg' = length msg /\
  stun_getw msg' (20 + stun_length msg) = uint16 type /\
  stun_getw msg' (22 + stun_length msg) = len /\
  bytes_at msg' (24 + stun_length msg) len = d /\
  stun_length msg' = stun_length msg + 4 + len + stun_padding len.
Proof.
  intros len msg' Hin Hsmall.
  pose proof (stun_length_range msg) as HL.
  assert (Hlen0 : 0 <= len) by (unfold len; lia).
  assert (Happ : appended msg msg' type len).
  { apply appended_store; [|lia]. apply appended_reserved; lia. }
  destruct Happ as (Hl & HL' & Ht & Hn & _).
  destruct (reserved_payload_slot msg type len d Hlen0 ltac:(unfold len; lia))
    as (Hpay & _ & _).
  split; [exact Hl|]. split; [exact Ht|].
  split; [rewrite <- Hn; f_equal; lia|].
  split; [apply Hpay; unfold len in Hin; lia|exact HL'].
Qed.
End StunPayloads.

(** ** stun/stunsend.c: address attributes *)

Section StunAddresses.
Import Stun.
Context `{Host} `{StunEnv}.

Lemma stun_append_addr_run (msize type : Z) (addr : sockaddr) (addrlen : Z)
    (msg : list byte) :
  stun_padding (stun_length msg) = 0 -> STUN_MAXMSG <= 65552 ->
  sizeof_sockaddr <= addrlen ->
  (sa_family addr = AF_INET ->
   stun_length msg + 32 <= Z.min msize STUN_MAXMSG ->
   stun_append_addr msize type addr addrlen msg
   = Normal (Success,
       memcpy_at (reserved msg type 8) (24 + stun_length msg)
         ([Byte.x00; Byte.x01] ++ host_bytes 2 (sin_port addr)
            ++ host_bytes 4 (sin_addr addr)))) /\
  (sa_family addr = AF_INET6 -> sizeof_sockaddr_in6 <= addrlen ->
   stun_length msg + 44 <= Z.min msize STUN_MAXMSG ->
   stun_append_addr msize type addr addrlen msg
   = Normal (Success,
       memcpy_at (reserved msg type 20) (24 + stun_length msg)
         ([Byte.x00; Byte.x02] ++ host_bytes 2 (sin_port addr)
            ++ vec_to_list (sin6_addr addr)))).
Proof.
  intros Hal Hmax Hlen.
  pose proof (stun_length_range msg) as HL.
  unfold stun_append_addr.
  destruct (Z.ltb_spec addrlen sizeof_sockaddr) as [?|_]; [lia|].
  split.
  - intros Hfam Hfit. rewrite Hfam, Z.eqb_refl.
    unfold assert at 1.
    destruct (Z.geb_spec addrlen sizeof_sockaddr_in) as [_|Hbad];
      [|unfold sizeof_sockaddr, sizeof_sockaddr_in in *; lia].
    unfold mbind at 1, M_bind at 1.
    rewrite (bind_run _ _ _ _ _
      (stun_append_success msize type (4 + 4) msg Hal
         (small_object (4 + 4) eq_refl) Hmax ltac:(lia))).
    unfold store, mbind, M_bind, mret, M_ret.
    rewrite firstn_all2 by (rewrite length_host_bytes; lia).
    rewrite !memcpy_at_app' by (simpl; rewrite ?length_host_bytes; lia).
    reflexivity.
  - intros Hfam Hlen6 Hfit. rewrite Hfam.
    change (AF_INET6 =? AF_INET) with false. cbv iota. rewrite Z.eqb_refl.
    destruct (Z.ltb_spec addrlen sizeof_sockaddr_in6) as [?|_]; [lia|].
    rewrite (bind_run _ _ _ _ _
      (stun_append_success msize type (4 + 16) msg Hal
         (small_object (4 + 16) eq_refl) Hmax ltac:(lia))).
    unfold store, mbind, M_bind, mret, M_ret.
    rewrite firstn_all2 by (rewrite length_vec_to_list; lia).
    rewrite !memcpy_at_app' by (simpl; rewrite ?length_host_bytes; lia).
    reflexivity.
Qed.

(** X11. A NiceAddress of type IPv4 or IPv6 copied to a socket address by
    [nice_address_copy_to_sockaddr] and appended by [stun_append_addr]
    gives, on any host, the payload: a zero byte, the family byte 1 (IPv4)
    or 2 (IPv6), the port in big-endian order, and the IPv4 number in
    big-endian order or the 16 bytes of the IPv6 address; the attribute
    length is 8 or 20. *)
Theorem nice_address_stun_attribute (na : Address.NiceAddress)
    (sin0 : sockaddr) (msize type addrlen : Z) (msg : list byte) :
  stun_padding (stun_length msg) = 0 -> STUN_MAXMSG <= 65552 ->
  msize <= Z.of_nat (length msg) -> sizeof_sockaddr_in6 <= addrlen ->
  Address.type na = Address.NICE_ADDRESS_TYPE_IPV4 \/
  Address.type na = Address.NICE_ADDRESS_TYPE_IPV6 ->
  let v4 := Address.type na =? Address.NICE_ADDRESS_TYPE_IPV4 in
  let alen := if v4 then 4 else 16 in
  stun_length msg + 24 + (4 + alen) <= Z.min msize STUN_MAXMSG ->
  exists sin msg',
    Address.nice_address_copy_to_sockaddr na sin0 = Normal sin /\
    stun_append_addr msize type sin addrlen msg = Normal (Success, msg') /\
    stun_getw msg' (20 + stun_length msg) = uint16 type /\
    stun_getw msg' (22 + stun_length msg) = 4 + alen /\
    bytes_at msg' (24 + stun_length msg) (4 + alen)
    = [Byte.x00; if v4 then Byte.x01 else Byte.x02]
        ++ be_bytes 2 (Address.port na)
        ++ (if v4 then be_bytes 4 (Address.addr_ipv4 na)
            else vec_to_list (Address.addr_ipv6 na)) /\
    stun_length msg' = stun_length msg + 4 + (4 + alen).
Proof.
  intros Hal Hmax Hsize Hlen Hty v4 alen Hfit.
  pose proof (stun_length_range msg) as HL.
  unfold Address.nice_address_copy_to_sockaddr.
  destruct Hty as [Hty|Hty]; subst v4 alen; rewrite Hty in *; simpl in Hfit |- *.
  - eexists _, _. split; [reflexivity|].
    destruct (stun_append_addr_run msize type
                (mk_sockaddr AF_INET (htons (Address.port na))
                   (htonl (Address.addr_ipv4 na)) (sin6_addr sin0))
                addrlen msg Hal Hmax
                ltac:(unfold sizeof_sockaddr, sizeof_sockaddr_in6 in *; lia))
      as [E _].
    specialize (E eq_refl ltac:(lia)). simpl in E.
    rewrite host_bytes_htons, host_bytes_htonl in E.
    split; [exact E|].
    set (d := Byte.x00 :: Byte.x01 :: be_bytes 2 (Address.port na)
                 ++ be_bytes 4 (Address.addr_ipv4 na)) in *.
    assert (Hd : Z.of_nat (length d) = 8)
      by (unfold d; cbn [length]; rewrite length_app, !length_be_bytes;
          reflexivity).
    pose proof (reserved_written msg type d) as Hw.
    cbv zeta in Hw. rewrite Hd in Hw.
    change (stun_padding 8) with 0 in Hw.
    destruct Hw as (_ & Ht & Hn & Hpay & HL'); [lia|lia|].
    split; [exact Ht|]. split; [exact Hn|]. split; [exact Hpay|]. lia.
  - eexists _, _. split; [reflexivity|].
    destruct (stun_append_addr_run msize type
                (mk_sockaddr AF_INET6 (htons (Address.port na))
                   (sin_addr sin0) (Address.addr_ipv6 na))
                addrlen msg Hal Hmax
                ltac:(unfold sizeof_sockaddr, sizeof_sockaddr_in6 in *; lia))
      as [_ E].
    specialize (E eq_refl Hlen ltac:(lia)). simpl in E.
    rewrite host_bytes_htons in E.
    split; [exact E|].
    set (d := Byte.x00 :: Byte.x02 :: be_bytes 2 (Address.port na)
                 ++ vec_to_list (Address.addr_ipv6 na)) in *.
    assert (Hd : Z.of_nat (length d) = 20)
      by (unfold d; cbn [length];
          rewrite length_app, length_be_bytes, length_vec_to_list;
          reflexivity).
    pose proof (reserved_written msg type d) as Hw.
    cbv zeta in Hw. rewrite Hd in Hw.
    change (stun_padding 20) with 0 in Hw.
    destruct Hw as (_ & Ht & Hn & Hpay & HL'); [lia|lia|].
    split; [exact Ht|]. split; [exact Hn|]. split; [exact Hpay|]. lia.
Qed.

(** X12. What [stun_append_addr] rejects, whatever the state of the
    message: EINVAL when [addrlen] is below [sizeof (struct sockaddr)],
    EAFNOSUPPORT for a family other than AF_INET and AF_INET6, EINVAL for
    AF_INET6 with [addrlen] below [sizeof (struct sockaddr_in6)]; the
    buffer is unchanged.  [stun_append_xor_addr] returns the error of
    [stun_xor_address] without touching the buffer, and is otherwise
    [stun_append_addr] on the transformed address. *)
Theorem stun_append_addr_rejects (msize type : Z) (addr : sockaddr)
    (addrlen : Z) (msg : list byte) :
  (addrlen < sizeof_sockaddr ->
   stun_append_addr msize type addr addrlen msg = Normal (EINVAL, msg)) /\
  (sizeof_sockaddr <= addrlen -> sa_family addr <> AF_INET ->
   sa_family addr <> AF_INET6 ->
   stun_append_addr msize type addr addrlen msg = Normal (EAFNOSUPPORT, msg)) /\
  (sizeof_sockaddr <= addrlen < sizeof_sockaddr_in6 ->
   sa_family addr = AF_INET6 ->
   stun_append_addr msize type addr addrlen msg = Normal (EINVAL, msg)) /\
  (forall val xor, stun_xor_address msg addr addrlen = (val, xor) ->
     (val <> Success ->
      stun_append_xor_addr msize type addr addrlen msg = Normal (val, msg)) /\
     (val = Success ->
      stun_append_xor_addr msize type addr addrlen msg
      = stun_append_addr msize type xor addrlen msg)).
Proof.
  unfold stun_append_addr.
  split; [|split; [|split]].
  - intros Hshort.
    destruct (Z.ltb_spec addrlen sizeof_sockaddr) as [_|?]; [reflexivity|lia].
  - intros Hlen H4 H6.
    destruct (Z.ltb_spec addrlen sizeof_sockaddr) as [?|_]; [lia|].
    destruct (Z.eqb_spec (sa_family addr) AF_INET); [contradiction|].
    destruct (Z.eqb_spec (sa_family addr) AF_INET6); [contradiction|].
    reflexivity.
  - intros Hlen Hfam.
    destruct (Z.ltb_spec addrlen sizeof_sockaddr) as [?|_]; [lia|].
    rewrite Hfam. change (AF_INET6 =? AF_INET) with false. cbv iota.
    rewrite Z.eqb_refl.
    destruct (Z.ltb_spec addrlen sizeof_sockaddr_in6) as [_|?];
      [reflexivity|lia].
  - intros val xor E. unfold stun_append_xor_addr, buffer, mbind, M_bind.
    rewrite E. split.
    + intros Hval. destruct val; [contradiction|reflexivity..].
    + intros ->. reflexivity.
Qed.
End StunAddresses.

(** ** stun/stunsend.c: error responses *)

Section StunErrorResponses.
Import Stun.
Context `{Host} `{StunEnv}.

Lemma bytes_at_frame (msg msg' : list byte) (p n : Z) :
  length msg' = length msg -> 0 <= p ->
  (forall i, p <= i < p + n -> load8 msg' i = load8 msg i) ->
  bytes_at msg' p n = bytes_at msg p n.
Proof.
  intros Hlen Hp Hfr. unfold bytes_at. apply list_eq. intros k.
  destruct (decide (k < Z.to_nat n)%nat) as [Hk|Hk].
  - rewrite !lookup_take_lt by lia. rewrite !lookup_drop.
    specialize (Hfr (p + Z.of_nat k) ltac:(lia)). unfold load8 in Hfr.
    replace (Z.to_nat (p + Z.of_nat k)) with (Z.to_nat p + k)%nat in Hfr by lia.
    destruct (msg' !! (Z.to_nat p + k)%nat) as [b'|] eqn:E';
      destruct (msg !! (Z.to_nat p + k)%nat) as [b|] eqn:E; simpl in Hfr.
    + f_equal. now apply Z_of_byte_inj.
    + apply lookup_lt_Some in E'. apply lookup_ge_None in E. lia.
    + apply lookup_lt_Some in E. apply lookup_ge_None in E'. lia.
    + reflexivity.
  - rewrite !lookup_take_ge by lia. reflexivity.
Qed.

Lemma take_bytes_at (msg : list byte) (p m n : Z) :
  0 <= m <= n -> take (Z.to_nat m) (bytes_at msg p n) = bytes_at msg p m.
Proof.
  intros Hm. unfold bytes_at. rewrite take_take. f_equal. lia.
Qed.

Lemma length_stun_id (req : list byte) :
  20 <= Z.of_nat (length req) -> length (stun_id req) = 12%nat.
Proof.
  intros Hreq. unfold stun_id, bytes_at. rewrite length_take, length_drop. lia.
Qed.

(** The header of an answer to [req] of class [c], before its attributes. *)
Lemma stun_init_answer (c : Z) (req ans : list byte) :
  0 <= c < 4 -> 20 <= Z.of_nat (length ans) ->
  exists ans1,
    stun_init c (stun_get_method req) (stun_id req) ans = Normal (tt, ans1) /\
    length ans1 = length ans /\ stun_length ans1 = 0 /\
    stun_get_class ans1 = c /\ stun_get_method ans1 = stun_get_method req /\
    (20 <= Z.of_nat (length req) -> stun_id ans1 = stun_id req).
Proof.
  intros Hc Hlen.
  pose proof (method_bits_range (stun_getw req 0) (stun_getw_range req 0))
    as Hm. fold (stun_get_method req) in Hm.
  destruct (stun_init_spec c (stun_get_method req) (stun_id req) ans)
    as (ans1 & E & Hl & _ & _ & Hcl & Hme & _ & Hl0 & _ & Hid);
    [lia|lia|exact Hlen|].
  exists ans1. repeat split; auto.
  intros Hreq. apply Hid. now apply length_stun_id.
Qed.

(** What the attributes appended after the header leave of it. *)
Lemma header_frame (msg msg' : list byte) :
  length msg' = length msg ->
  (forall i, 0 <= i < 2 \/ 4 <= i < 20 -> load8 msg' i = load8 msg i) ->
  stun_get_class msg' = stun_get_class msg /\
  stun_get_method msg' = stun_get_method msg /\
  stun_id msg' = stun_id msg /\
  bytes_at msg' 4 4 = bytes_at msg 4 4.
Proof.
  intros Hl Hfr.
  assert (Hw : stun_getw msg' 0 = stun_getw msg 0)
    by (apply stun_getw_frame; apply Hfr; lia).
  unfold stun_get_class, stun_get_method, stun_id. rewrite Hw.
  repeat split; apply bytes_at_frame; auto; try lia; intros i Hi; apply Hfr; lia.
Qed.

(** The assertion of [stun_append_error], on the code as [div] takes it. *)
Lemma stun_append_error_assert (msize code : Z) (msg : list byte) :
  stun_padding (stun_length msg) = 0 -> STUN_MAXMSG <= 65552 ->
  msize <= Z.of_nat (length msg) ->
  let len := 4 + strlen (stun_strerror code) in
  stun_length msg + 24 + len <= Z.min msize STUN_MAXMSG ->
  (Z.quot (to_int code) 100 <= 7 ->
   exists msg', stun_append_error msize code msg = Normal (Success, msg') /\
                appended msg msg' STUN_ERROR_CODE len) /\
  (7 < Z.quot (to_int code) 100 -> stun_append_error msize code msg = Abort).
Proof.
  intros Hal Hmax Hreal len Hfit.
  destruct (stun_strerror_length code) as [Hlen Hshort]. fold len in Hfit.
  pose proof (stun_length_range msg) as HL.
  assert (Hsz : object_size len) by (apply object_size_small; unfold len; lia).
  unfold stun_append_error.
  rewrite size_t_small
    by (change (2 ^ 64) with 18446744073709551616; lia).
  fold len.
  destruct (stun_append_cases msize STUN_ERROR_CODE len msg Hal Hsz Hmax Hreal)
    as [[Hgt E]|(Hle & E & Happ)]; [lia|]. rewrite (bind_run _ _ _ _ _ E).
  unfold memset, store, assert, mbind, M_bind, mret, M_ret.
  split; intros Hq.
  - destruct (Z.leb_spec (Z.quot (to_int code) 100) 7) as [_|Hbad]; [|lia].
    eexists. split; [reflexivity|].
    do 4 (apply appended_store; [|lia]). exact Happ.
  - destruct (Z.leb_spec (Z.quot (to_int code) 100) 7) as [?|_];
      [lia|reflexivity].
Qed.

(** X13. When the smaller of [msize] and STUN_MAXMSG is at least 59,
    [stun_init_error] does not fail for lack of space.  For every code
    below 800 it returns 0 and leaves a header of class ERROR with the
    method and the transaction identifier of the request, followed by 12 to
    40 bytes of attributes; for a code from 800 to 2^31 - 1 it aborts, on
    the assertion that the error class is at most 7.  A code of the
    unsigned type from 2^31 on is negative once [div] has taken it as an
    [int]: the assertion holds and the call returns 0 as for a code below
    800. *)
Theorem stun_init_error_fits (msize code : Z) (req ans : list byte) :
  STUN_MAXMSG <= 65552 -> msize <= Z.of_nat (length ans) ->
  59 <= Z.min msize STUN_MAXMSG ->
  (code < 800 \/ 2 ^ 31 <= code < 2 ^ 32 ->
   exists ans',
     stun_init_error msize req code ans = Normal (Success, ans') /\
     length ans' = length ans /\
     stun_get_class ans' = STUN_ERROR /\
     stun_get_method ans' = stun_get_method req /\
     (20 <= Z.of_nat (length req) -> stun_id ans' = stun_id req) /\
     12 <= stun_length ans' <= 40 /\ stun_length ans' mod 4 = 0) /\
  (800 <= code < 2 ^ 31 -> stun_init_error msize req code ans = Abort).
Proof.
  intros Hmax Hsize Hcap.
  destruct (stun_strerror_length code) as [Hlen Hshort].
  destruct (stun_init_answer STUN_ERROR req ans)
    as (ans1 & E1 & Hl1 & HL1 & Hcl & Hme & Hid);
    [unfold STUN_ERROR; lia|lia|].
  assert (Hal1 : stun_padding (stun_length ans1) = 0)
    by (rewrite HL1; reflexivity).
  assert (Hfit : stun_length ans1 + 24 + (4 + strlen (stun_strerror code))
                 <= Z.min msize STUN_MAXMSG) by lia.
  destruct (stun_append_error_assert msize code ans1 Hal1 Hmax ltac:(lia) Hfit)
    as [Hok Hbad].
  unfold stun_init_error. rewrite (bind_run _ _ _ _ _ E1).
  change (2 ^ 31) with 2147483648. change (2 ^ 32) with 4294967296.
  split.
  - intros Hcode.
    assert (Hq : Z.quot (to_int code) 100 <= 7).
    { unfold to_int. change (2 ^ 31) with 2147483648.
      change (2 ^ 32) with 4294967296.
      destruct (Z.ltb_spec code 2147483648);
        Z.to_euclidean_division_equations; lia. }
    destruct (Hok Hq) as (ans' & E & Happ).
    exists ans'. split; [exact E|].
    destruct (appended_contract _ _ _ _ Hal1 Happ) as [HL' Hmod].
    destruct Happ as (Hl & _ & _ & _ & Hfr).
    destruct (header_frame ans1 ans' Hl) as (Hc' & Hm' & Hi' & _).
    { intros i Hi. apply Hfr. lia. }
    split; [lia|]. split; [congruence|]. split; [congruence|].
    split; [intros Hreq; rewrite Hi'; auto|].
    split; [|exact Hmod].
    pose proof (stun_padding_range (4 + strlen (stun_strerror code))) as Hp.
    pose proof (stun_padding_aligns (4 + strlen (stun_strerror code))) as Hpa.
    rewrite HL1 in HL'.
    Z.to_euclidean_division_equations; lia.
  - intros Hcode. apply Hbad.
    unfold to_int. change (2 ^ 31) with 2147483648.
    destruct (Z.ltb_spec code 2147483648); [|lia].
    Z.to_euclidean_division_equations; lia.
Qed.
End StunErrorResponses.

Section StunUnknownAttributes.
Import Stun.
Context `{Host} `{StunEnv} `{StunParser}.

Lemma flat_map_htons (ids : list Z) :
  flat_map (host_bytes 2) (map (fun id => htons (uint16 id)) ids)
  = flat_map (be_bytes 2) ids.
Proof.
  induction ids as [|id ids IH]; [reflexivity|]. cbn [map flat_map].
  rewrite IH, host_bytes_htons. f_equal.
  unfold be_bytes, uint16. f_equal. apply (le_bytes_mod 2).
Qed.

Lemma length_flat_map_be_bytes (n : nat) (ids : list Z) :
  length (flat_map (be_bytes n) ids) = (n * length ids)%nat.
Proof.
  induction ids as [|id ids IH]; cbn [flat_map length]; [lia|].
  rewrite length_app, length_be_bytes, IH. lia.
Qed.

(** X14. [stun_init_error_unknown] aborts when the request is not of class
    REQUEST or when the parser finds no unknown attribute in it.
    Otherwise, [n] being the number of identifiers found (at most
    [stun_length (req) / 4]), it returns ENOBUFS when [52 + 2n] exceeds the
    smaller of [msize] and STUN_MAXMSG, and else returns 0 and leaves an
    ERROR response with the method and transaction identifier of the
    request that holds ERROR-CODE 420 and then an UNKNOWN-ATTRIBUTES
    attribute of length [2n] whose payload is the identifiers, each in
    big-endian order. *)
Theorem stun_init_error_unknown_spec (msize : Z) (req ans : list byte) :
  STUN_MAXMSG <= 65552 -> msize <= Z.of_nat (length ans) ->
  20 <= Z.of_nat (length ans) ->
  let ids := stun_find_unknown req (stun_length req / 4) in
  let n := Z.of_nat (length ids) in
  (stun_get_class req <> STUN_REQUEST ->
   stun_init_error_unknown msize req ans = Abort) /\
  (ids = [] -> stun_init_error_unknown msize req ans = Abort) /\
  (stun_get_class req = STUN_REQUEST -> 0 < n <= stun_length req / 4 ->
   (Z.min msize STUN_MAXMSG < 52 + 2 * n ->
    exists ans', stun_init_error_unknown msize req ans
                 = Normal (ENOBUFS, ans')) /\
   (52 + 2 * n <= Z.min msize STUN_MAXMSG ->
    exists ans',
      stun_init_error_unknown msize req ans = Normal (Success, ans') /\
      stun_get_class ans' = STUN_ERROR /\
      stun_get_method ans' = stun_get_method req /\
      (20 <= Z.of_nat (length req) -> stun_id ans' = stun_id req) /\
      stun_getw ans' 20 = STUN_ERROR_CODE /\
      bytes_at ans' 24 4 = [Byte.x00; Byte.x00; Byte.x04; Byte.x14] /\
      stun_getw ans' 48 = STUN_UNKNOWN_ATTRIBUTES /\
      stun_getw ans' 50 = 2 * n /\
      bytes_at ans' 52 (2 * n) = flat_map (be_bytes 2) ids /\
      stun_length ans' = 32 + 2 * n + stun_padding (2 * n))).
Proof.
  intros Hmax Hsize Hlen ids n.
  unfold stun_init_error_unknown. fold ids.
  unfold mbind at 1, M_bind at 1. unfold assert at 1.
  split; [|split].
  - intros Hcls.
    destruct (Z.eqb_spec (stun_get_class req) STUN_REQUEST);
      [contradiction|reflexivity].
  - intros Hids. rewrite Hids.
    destruct (_ =? _); [|reflexivity].
    unfold mbind at 1, M_bind at 1. reflexivity.
  - intros Hcls Hn. rewrite Hcls, Z.eqb_refl.
    pose proof (stun_length_range req) as HLr.
    assert (Hn' : n < 16384) by (Z.to_euclidean_division_equations; lia).
    fold n. rewrite (uint32_small n) by lia.
    rewrite (uint32_small (n * 2)) by lia.
    destruct (Z.gtb_spec n 0) as [_|?]; [|lia].
    rewrite ?(bind_run (assert true) _ ans ans tt eq_refl).
    rewrite flat_map_htons.
    (* the header and the ERROR-CODE attribute *)
    destruct (stun_init_answer STUN_ERROR req ans)
      as (ans1 & E1 & Hl1 & HL1 & Hcl & Hme & Hid);
      [unfold STUN_ERROR; lia|lia|].
    assert (Hal1 : stun_padding (stun_length ans1) = 0)
      by (rewrite HL1; reflexivity).
    pose proof (stun_append_error_cases msize STUN_UNKNOWN_ATTRIBUTE ans1 Hal1
                  ltac:(vm_compute; discriminate) Hmax ltac:(lia)) as Hc.
    cbv zeta in Hc.
    change (strlen (stun_strerror STUN_UNKNOWN_ATTRIBUTE)) with 17 in Hc.
    rewrite HL1 in Hc. change (0 + 24 + (4 + 17)) with 45 in Hc.
    assert (Eie : stun_init_error msize req STUN_UNKNOWN_ATTRIBUTE ans
                  = stun_append_error msize STUN_UNKNOWN_ATTRIBUTE ans1)
      by (unfold stun_init_error; now rewrite (bind_run _ _ _ _ _ E1)).
    split.
    + intros Hno.
      destruct Hc as [[Hgt E2]|(Hfit & ans2 & Eans2 & E2 & Happ)].
      * rewrite E2 in Eie. rewrite (bind_run _ _ _ _ _ Eie).
        exists ans1. reflexivity.
      * rewrite E2 in Eie. rewrite (bind_run _ _ _ _ _ Eie).
        destruct (appended_contract _ _ _ _ Hal1 Happ) as [HL2 Hmod2].
        rewrite HL1 in HL2. change (0 + 4 + (4 + 17) + stun_padding (4 + 17))
          with 28 in HL2.
        destruct Happ as (Hl2 & _).
        assert (Hal2 : stun_padding (stun_length ans2) = 0)
          by (rewrite HL2; reflexivity).
        assert (Hobj2 : object_size (n * 2)) by (apply object_size_small; lia).
        assert (Hsz2 : msize <= Z.of_nat (length ans2)) by lia.
        destruct (stun_append_bytes_cases msize STUN_UNKNOWN_ATTRIBUTES
                    (flat_map (be_bytes 2) ids) (n * 2) ans2
                    Hal2 Hobj2 Hmax Hsz2)
          as [[_ E3]|[Hfit3 _]]; [|lia].
        exists ans2. exact E3.
    + intros Hfit.
      destruct Hc as [[Hgt _]|(_ & ans2 & Eans2 & E2 & Happ)]; [lia|].
      rewrite E2 in Eie. rewrite (bind_run _ _ _ _ _ Eie).
      destruct (appended_contract _ _ _ _ Hal1 Happ) as [HL2 Hmod2].
      rewrite HL1 in HL2. change (0 + 4 + (4 + 17) + stun_padding (4 + 17))
        with 28 in HL2.
      (* the ERROR-CODE attribute *)
      set (payload := [Byte.x00; Byte.x00;
                       byte_of_Z (Z.quot STUN_UNKNOWN_ATTRIBUTE 100);
                       byte_of_Z (Z.rem STUN_UNKNOWN_ATTRIBUTE 100)]
                      ++ stun_strerror STUN_UNKNOWN_ATTRIBUTE) in *.
      pose proof (reserved_written ans1 STUN_ERROR_CODE payload) as Hw.
      cbv zeta in Hw. change (Z.of_nat (length payload)) with 21 in Hw.
      change (4 + 17) with 21 in Eans2. rewrite HL1 in Hw.
      rewrite <- Eans2 in Hw.
      destruct Hw as (Hl2 & Ht2 & _ & Hpay2 & _); [lia|vm_compute; reflexivity|].
      destruct Happ as (_ & _ & _ & _ & Hfr2). rewrite HL1 in Hfr2.
      (* the UNKNOWN-ATTRIBUTES attribute *)
      assert (Hdata : Z.of_nat (length (flat_map (be_bytes 2) ids)) = n * 2)
        by (rewrite length_flat_map_be_bytes; unfold n; lia).
      assert (Hal2 : stun_padding (stun_length ans2) = 0)
        by (rewrite HL2; reflexivity).
      assert (Hobj2 : object_size (n * 2)) by (apply object_size_small; lia).
      assert (Hsz2 : msize <= Z.of_nat (length ans2)) by lia.
      destruct (stun_append_bytes_written msize STUN_UNKNOWN_ATTRIBUTES
                  (flat_map (be_bytes 2) ids) (n * 2) ans2
                  Hal2 Hobj2 Hmax Hsz2 ltac:(lia) ltac:(lia))
        as (ans3 & E3 & Hl3 & Ht3 & Hn3 & Hpay3 & HL3 & _ & Hfr3).
      rewrite HL2 in Ht3, Hn3, Hpay3, HL3, Hfr3.
      exists ans3. split; [exact E3|].
      destruct (header_frame ans1 ans2 Hl2) as (Hc2 & Hm2 & Hi2 & _).
      { intros i Hi. apply Hfr2. lia. }
      destruct (header_frame ans2 ans3 Hl3) as (Hc3 & Hm3 & Hi3 & _).
      { intros i Hi. apply Hfr3. lia. }
      split; [congruence|]. split; [congruence|].
      split; [intros Hreq; rewrite Hi3, Hi2; auto|].
      split.
      { transitivity (stun_getw ans2 20); [|exact Ht2].
        apply stun_getw_frame; apply Hfr3; lia. }
      split.
      { transitivity (bytes_at ans2 24 4).
        - apply bytes_at_frame; [exact Hl3|lia|].
          intros i Hi. apply Hfr3. lia.
        - rewrite <- (take_bytes_at ans2 24 4 21) by lia.
          change 24 with (24 + 0) at 1. rewrite Hpay2. reflexivity. }
      change (20 + 28) with 48 in Ht3. change (22 + 28) with 50 in Hn3.
      change (24 + 28) with 52 in Hpay3.
      split; [exact Ht3|].
      split; [rewrite Hn3; lia|].
      split.
      { replace (2 * n) with (n * 2) by lia. rewrite Hpay3.
        apply firstn_all2. lia. }
      rewrite HL3. replace (n * 2) with (2 * n) by lia. lia.
Qed.
End StunUnknownAttributes.

(** ** stun/stunsend.c: [stun_finish_long] and the finished message *)

Section StunFinished.
Import Stun.
Context `{Host} `{StunEnv}.

Lemma attrs_size_app (l k : list (Z * Z)) :
  attrs_size (l ++ k) = attrs_size l + attrs_size k.
Proof.
  induction l as [|a l IH]; simpl; [reflexivity|].
  unfold attrs_size in *. simpl. rewrite IH. lia.
Qed.

Lemma attrs_between_size (msg : list byte) (a b : Z) (l : list (Z * Z)) :
  attrs_between msg a b l -> b = a + attrs_size l.
Proof.
  induction 1 as [off|off stop type len l Hoff Ht Hn Hl IH].
  - unfold attrs_size. simpl. lia.
  - unfold attrs_size in *. simpl. unfold attr_size at 1. lia.
Qed.

Lemma grown_length (msg0 msg : list byte) (l : list (Z * Z)) :
  grown msg0 msg l ->
  stun_length msg = stun_length msg0 + attrs_size l /\
  length msg = length msg0 /\ stun_padding (stun_length msg) = 0.
Proof.
  intros [(Hlen & Hal & Hl) _]. apply attrs_between_size in Hl.
  repeat split; auto. lia.
Qed.

Lemma grown_refl (msg0 : list byte) :
  stun_padding (stun_length msg0) = 0 -> grown msg0 msg0 [].
Proof. intros Hal. split; [now apply built_refl|auto]. Qed.

Lemma grown_step (msg0 msg msg' : list byte) (l : list (Z * Z))
    (type len : Z) :
  grown msg0 msg l -> appended msg msg' type len -> uint16 type = type ->
  grown msg0 msg' (l ++ [(type, len)]).
Proof.
  intros [Hb Hfr] Happ Hty. split; [eapply built_step; eauto|].
  pose proof (built_le _ _ _ Hb) as Hle.
  destruct Happ as (_ & _ & _ & _ & Hfr').
  intros i Hi. rewrite Hfr' by lia. now apply Hfr.
Qed.

Lemma take_memcpy_at_out (msg : list byte) (off : Z) (src : list byte)
    (n : Z) :
  0 <= n <= off -> take (Z.to_nat n) (memcpy_at msg off src)
                   = take (Z.to_nat n) msg.
Proof.
  intros Hn. unfold memcpy_at. apply list_eq. intros i.
  destruct (decide (i < Z.to_nat n)%nat) as [Hi|Hi].
  - rewrite !lookup_take_lt by lia. apply list_lookup_inserts_lt. lia.
  - rewrite !lookup_take_ge by lia. reflexivity.
Qed.

(** The reservations after those that have succeeded. *)
Lemma reserved_attrs_app (cap mlen : Z) (l k : list (Z * Z)) :
  reserved_attrs cap mlen l = l ->
  reserved_attrs cap mlen (l ++ k)
  = l ++ reserved_attrs cap (mlen + attrs_size l) k.
Proof.
  revert mlen. induction l as [|[type len] l IH]; intros mlen Hl.
  - simpl. f_equal. change (attrs_size []) with 0. lia.
  - simpl in Hl |- *.
    destruct (mlen + 24 + len <=? cap); [|discriminate Hl].
    injection Hl as Hl. rewrite (IH _ Hl). do 3 f_equal.
    change (attrs_size ((type, len) :: l)) with (attr_size len + attrs_size l).
    lia.
Qed.

Lemma reserved_attrs_snoc (cap mlen type len : Z) (l : list (Z * Z)) :
  reserved_attrs cap mlen l = l ->
  mlen + attrs_size l + 24 + len <= cap ->
  reserved_attrs cap mlen (l ++ [(type, len)]) = l ++ [(type, len)].
Proof.
  intros Hl Hfit. rewrite reserved_attrs_app by exact Hl. simpl.
  destruct (Z.leb_spec (mlen + attrs_size l + 24 + len) cap); [reflexivity|lia].
Qed.


Lemma finish_result_stop (msg0 msg : list byte) (plen : Z)
    (l rest : list (Z * Z)) (type len : Z) (Q : list byte -> Prop) :
  grown msg0 msg l ->
  reserved_attrs (Z.min plen STUN_MAXMSG) (stun_length msg0) l = l ->
  0 <= attrs_size rest ->
  stun_length msg + 24 + len > Z.min plen STUN_MAXMSG ->
  finish_result msg0 plen (l ++ (type, len) :: rest) Q
    (Normal ((ENOBUFS, plen), msg)).
Proof.
  intros Hg Hall Hrest Hno. exists ENOBUFS, plen, msg, l.
  split; [reflexivity|]. split; [exact Hg|].
  destruct (grown_length _ _ _ Hg) as (HL & _ & _).
  split.
  { rewrite reserved_attrs_app by exact Hall. simpl. rewrite <- HL.
    destruct (Z.leb_spec (stun_length msg + 24 + len)
                (Z.min plen STUN_MAXMSG)); [lia|].
    now rewrite app_nil_r. }
  right.
  pose proof (stun_padding_range len) as Hp.
  split.
  - rewrite attrs_size_app. unfold attrs_size at 2. simpl foldr.
    fold (attrs_size rest). unfold attr_size. simpl snd. lia.
  - split; [reflexivity|]. split; [reflexivity|]. apply proper_prefix.
Qed.

(** One optional attribute of [stun_finish_long] and what follows it. *)
Lemma finish_result_step (msg0 msg : list byte) (plen : Z)
    (c : M status) (k : M (status * Z)) (attr rest : list (Z * Z))
    (l : list (Z * Z)) (Q : list byte -> Prop) :
  grown msg0 msg l ->
  reserved_attrs (Z.min plen STUN_MAXMSG) (stun_length msg0) l = l ->
  0 <= attrs_size rest ->
  (attr = [] /\ c msg = Normal (Success, msg) \/
   exists type len, attr = [(type, len)] /\ uint16 type = type /\
     (stun_length msg + 24 + len > Z.min plen STUN_MAXMSG /\
      c msg = Normal (ENOBUFS, msg) \/
      stun_length msg + 24 + len <= Z.min plen STUN_MAXMSG /\
      exists msg', c msg = Normal (Success, msg') /\
                   appended msg msg' type len)) ->
  (forall msg' l', grown msg0 msg' l' ->
     reserved_attrs (Z.min plen STUN_MAXMSG) (stun_length msg0) l' = l' ->
     finish_result msg0 plen (l' ++ rest) Q (k msg')) ->
  finish_result msg0 plen (l ++ attr ++ rest) Q (or_return plen c k msg).
Proof.
  intros Hg Hall Hrest Hc Hk.
  destruct (grown_length _ _ _ Hg) as (HL & _ & _).
  destruct Hc
    as [[-> E]|(type & len & -> & Hty & [[Hno E]|(Hfit & msg' & E & Happ)])].
  - rewrite (or_return_success _ _ _ _ _ E). simpl. now apply Hk.
  - rewrite (or_return_failure _ _ _ _ _ E). simpl.
    now apply finish_result_stop.
  - rewrite (or_return_success _ _ _ _ _ E).
    rewrite app_assoc. apply Hk; [eapply grown_step; eauto|].
    apply reserved_attrs_snoc; [exact Hall|lia].
Qed.

(** An optional byte-string attribute, as a step of [stun_finish_long]. *)
Lemma append_bytes_grows (msg0 msg : list byte) (l : list (Z * Z))
    (plen type len : Z) (data : list byte) :
  grown msg0 msg l -> object_size len -> STUN_MAXMSG <= 65552 ->
  plen <= Z.of_nat (length msg0) ->
  stun_length msg + 24 + len > Z.min plen STUN_MAXMSG /\
  stun_append_bytes plen type data len msg = Normal (ENOBUFS, msg) \/
  stun_length msg + 24 + len <= Z.min plen STUN_MAXMSG /\
  exists msg', stun_append_bytes plen type data len msg = Normal (Success, msg')
               /\ appended msg msg' type len.
Proof.
  intros Hg Hsz Hmax Hreal.
  destruct (grown_length _ _ _ Hg) as (_ & Hlen & Hal).
  rewrite <- Hlen in Hreal.
  destruct (stun_append_bytes_cases plen type data len msg Hal Hsz Hmax Hreal)
    as [[Hno E]|(Hfit & msg' & _ & E & Happ)]; [left|right]; eauto.
Qed.

Lemma append_grows (msg0 msg : list byte) (l : list (Z * Z))
    (plen type len : Z) :
  grown msg0 msg l -> object_size len -> STUN_MAXMSG <= 65552 ->
  plen <= Z.of_nat (length msg0) ->
  stun_length msg + 24 + len > Z.min plen STUN_MAXMSG /\
  stun_append plen type len msg = Normal (None, msg) \/
  stun_length msg + 24 + len <= Z.min plen STUN_MAXMSG /\
  stun_append plen type len msg
    = Normal (Some (24 + stun_length msg), reserved msg type len) /\
  appended msg (reserved msg type len) type len.
Proof.
  intros Hg Hsz Hmax Hreal.
  destruct (grown_length _ _ _ Hg) as (_ & Hlen & Hal).
  rewrite <- Hlen in Hreal.
  apply (stun_append_cases plen type len msg Hal Hsz Hmax Hreal).
Qed.

Lemma finish_result_done (msg0 msg : list byte) (plen : Z) (l : list (Z * Z))
    (Q : list byte -> Prop) :
  grown msg0 msg l ->
  reserved_attrs (Z.min plen STUN_MAXMSG) (stun_length msg0) l = l ->
  Q msg ->
  20 + stun_length msg <= Z.min plen STUN_MAXMSG ->
  finish_result msg0 plen l Q
    (Normal ((Success, size_t (20 + stun_length msg)), msg)).
Proof.
  intros Hg Hall HQ Hfit. pose proof (stun_length_range msg) as HL.
  destruct (grown_length _ _ _ Hg) as (HL' & _ & _).
  exists Success, (size_t (20 + stun_length msg)), msg, l.
  split; [reflexivity|]. split; [exact Hg|]. split; [now symmetry|]. left.
  split; [lia|]. split; [reflexivity|]. split; [reflexivity|].
  split; [|exact HQ].
  apply size_t_small. change (2 ^ 64) with 18446744073709551616. lia.
Qed.

Lemma attrs_size_nonneg (l : list (Z * Z)) :
  Forall (fun a => 0 <= a.2) l -> 0 <= attrs_size l.
Proof.
  induction 1 as [|a l Ha Hl IH]; [reflexivity|].
  change (attrs_size (a :: l)) with (attr_size a.2 + attrs_size l).
  pose proof (stun_padding_range a.2). unfold attr_size. lia.
Qed.

(** The run of [stun_finish_long]. *)
Lemma stun_finish_long_run (plen : Z)
    (realm username key : option (list byte)) (keylen : Z)
    (nonce : option (list byte)) (noncelen : Z) (msg : list byte) :
  stun_padding (stun_length msg) = 0 -> STUN_MAXMSG <= 65552 ->
  plen <= Z.of_nat (length msg) ->
  (forall r, realm = Some r -> object_size (strlen r)) ->
  (forall u, username = Some u -> object_size (strlen u)) ->
  (nonce <> None -> object_size noncelen) ->
  finish_result msg plen (finish_attrs realm username key nonce noncelen)
    (sealed key keylen)
    (stun_finish_long plen realm username key keylen nonce noncelen msg).
Proof.
  intros Hal Hmax Hreal Hrealm Huser Hnonce.
  assert (Hkey : 0 <= attrs_size
            (match key with Some _ => [(STUN_MESSAGE_INTEGRITY, 20)] | None => [] end
             ++ [(STUN_FINGERPRINT, 4)]))
    by (destruct key; vm_compute; discriminate).
  assert (Hn : 0 <= attrs_size
            (match nonce with Some _ => [(STUN_NONCE, noncelen)] | None => [] end
             ++ match key with Some _ => [(STUN_MESSAGE_INTEGRITY, 20)] | None => [] end
             ++ [(STUN_FINGERPRINT, 4)])).
  { rewrite attrs_size_app. destruct nonce as [n|]; [|simpl; lia].
    assert (0 <= attrs_size [(STUN_NONCE, noncelen)]); [|lia].
    apply attrs_size_nonneg. constructor; [|constructor].
    destruct Hnonce as [Hn _]; [discriminate|exact Hn]. }
  assert (Hu : 0 <= attrs_size
            (match username with Some u => [(STUN_USERNAME, strlen u)] | None => [] end
             ++ match nonce with Some _ => [(STUN_NONCE, noncelen)] | None => [] end
             ++ match key with Some _ => [(STUN_MESSAGE_INTEGRITY, 20)] | None => [] end
             ++ [(STUN_FINGERPRINT, 4)])).
  { rewrite attrs_size_app. destruct username as [u|]; [|simpl; lia].
    assert (0 <= attrs_size [(STUN_USERNAME, strlen u)]); [|lia].
    apply attrs_size_nonneg. constructor; [|constructor].
    simpl. pose proof (strlen_range u). lia. }
  unfold stun_finish_long, finish_attrs. cbv zeta.
  apply (finish_result_step msg msg plen _ _ _ _ []);
    [now apply grown_refl|reflexivity|exact Hu| |].
  { destruct realm as [r|]; [right|left; split; reflexivity].
    exists STUN_REALM, (strlen r). split; [reflexivity|].
    split; [reflexivity|].
    eapply append_bytes_grows; eauto using grown_refl. }
  intros msg1 l1 Hg1 Hr1.
  apply finish_result_step; [exact Hg1|exact Hr1|exact Hn| |].
  { destruct username as [u|]; [right|left; split; reflexivity].
    exists STUN_USERNAME, (strlen u). split; [reflexivity|].
    split; [reflexivity|]. eapply append_bytes_grows; eauto. }
  intros msg2 l2 Hg2 Hr2.
  apply finish_result_step; [exact Hg2|exact Hr2|exact Hkey| |].
  { destruct nonce as [n|]; [right|left; split; reflexivity].
    exists STUN_NONCE, noncelen. split; [reflexivity|].
    split; [reflexivity|].
    eapply append_bytes_grows; eauto. }
  intros msg3 l3 Hg3 Hr3.
  pose proof (stun_length_range msg3) as HL3.
  destruct (grown_length _ _ _ Hg3) as (HL3' & Hlen3 & Hal3).
  destruct key as [k|].
  - (* MESSAGE-INTEGRITY and FINGERPRINT *)
    destruct (append_grows msg msg3 l3 plen STUN_MESSAGE_INTEGRITY 20 Hg3
                (small_object 20 eq_refl) Hmax Hreal)
      as [[Hno E]|(Hfit & E & Happ)]; rewrite (bind_run _ _ _ _ _ E).
    { apply finish_result_stop;
        [exact Hg3|exact Hr3|vm_compute; discriminate|exact Hno]. }
    set (sha := 24 + stun_length msg3).
    set (m1 := reserved msg3 STUN_MESSAGE_INTEGRITY 20) in *.
    assert (Hg : grown msg m1 (l3 ++ [(STUN_MESSAGE_INTEGRITY, 20)]))
      by (eapply grown_step; eauto).
    assert (Hr : reserved_attrs (Z.min plen STUN_MAXMSG) (stun_length msg)
                   (l3 ++ [(STUN_MESSAGE_INTEGRITY, 20)])
                 = l3 ++ [(STUN_MESSAGE_INTEGRITY, 20)])
      by (apply reserved_attrs_snoc; [exact Hr3|lia]).
    assert (HL1 : stun_length m1 = stun_length msg3 + 24).
    { destruct Happ as (_ & HL & _). rewrite HL.
      change (stun_padding 20) with 0. lia. }
    destruct (append_grows msg m1 _ plen STUN_FINGERPRINT 4 Hg
                (small_object 4 eq_refl) Hmax Hreal)
      as [[Hno' E']|(Hfit' & E' & Happ')]; rewrite (bind_run _ _ _ _ _ E').
    { rewrite (app_assoc l3 [_] [_]).
      rewrite <- (app_nil_r ((l3 ++ [_]) ++ [_])), <- app_assoc.
      apply finish_result_stop;
        [exact Hg|exact Hr|vm_compute; discriminate|exact Hno']. }
    set (m2 := reserved m1 STUN_FINGERPRINT 4) in *.
    assert (HL2 : stun_length m2 = stun_length msg3 + 32).
    { destruct Happ' as (_ & HL & _). rewrite HL, HL1.
      change (stun_padding 4) with 0. lia. }
    assert (Hlen2 : length m2 = length msg)
      by (unfold m2, m1; rewrite !length_reserved; lia).
    unfold buffer, lift, store, mbind, M_bind, mret, M_ret.
    rewrite stun_sha1_run by lia.
    simpl default.
    set (digest := HMAC_SHA1 (take (Z.to_nat keylen) k)
                     (take (Z.to_nat (stun_length m2 - 12)) m2)).
    set (m3 := memcpy_at m2 sha (vec_to_list digest)).
    rewrite host_bytes_htonl, be_bytes_uint32.
    set (m4 := memcpy_at m3 (24 + stun_length m1)
                 (be_bytes 4 (stun_fingerprint m3))).
    (* the same buffer, as two attributes appended one after the other *)
    set (m1' := memcpy_at m1 sha (vec_to_list digest)).
    assert (E3 : m3 = reserved m1' STUN_FINGERPRINT 4).
    { unfold m3, m2, m1'. apply reserved_store_comm;
        rewrite ?length_vec_to_list; unfold sha; lia. }
    assert (Happ1 : appended msg3 m1' STUN_MESSAGE_INTEGRITY 20)
      by (apply appended_store; [exact Happ|unfold sha; lia]).
    assert (Hg' : grown msg m1' (l3 ++ [(STUN_MESSAGE_INTEGRITY, 20)]))
      by (eapply grown_step; eauto).
    assert (HL1' : stun_length m1' = stun_length m1).
    { unfold m1', stun_length. apply stun_getw_memcpy_at_out; unfold sha; lia. }
    destruct (grown_length _ _ _ Hg') as (_ & Hlen1' & Hal1').
    assert (Happ3 : appended m1' m3 STUN_FINGERPRINT 4).
    { rewrite E3. change (stun_padding 4) with 0.
      apply appended_reserved; [lia| |]; rewrite HL1';
        change (stun_padding 4) with 0; lia. }
    assert (Happ4 : appended m1' m4 STUN_FINGERPRINT 4)
      by (apply appended_store; [exact Happ3|rewrite HL1'; lia]).
    assert (HL3m : stun_length m3 = stun_length msg3 + 32).
    { destruct Happ3 as (_ & HL & _). rewrite HL, HL1', HL1.
      change (stun_padding 4) with 0. lia. }
    assert (HL4 : stun_length m4 = stun_length msg3 + 32).
    { destruct Happ4 as (_ & HL & _). rewrite HL, HL1', HL1.
      change (stun_padding 4) with 0. lia. }
    assert (Hlen3m : length m3 = length msg)
      by (unfold m3; rewrite length_memcpy_at; exact Hlen2).
    rewrite (app_assoc l3 [_] [_]).
    apply finish_result_done; [eapply grown_step; eauto| | |lia].
    { apply reserved_attrs_snoc; [exact Hr|].
      destruct (grown_length _ _ _ Hg) as (HLg & _ & _). lia. }
    unfold sealed. cbv zeta. rewrite HL4. split.
    + intros k' Ek. injection Ek as <-.
      replace (stun_length msg3 + 32 - 8) with sha by (unfold sha; lia).
      unfold m4.
      rewrite bytes_at_memcpy_at_out by (unfold sha; lia).
      unfold m3.
      replace 20 with (Z.of_nat (length (vec_to_list digest))) at 1
        by (rewrite length_vec_to_list; reflexivity).
      rewrite bytes_at_memcpy_at
        by (rewrite ?length_vec_to_list; unfold sha; lia).
      unfold digest. do 2 f_equal. rewrite HL2.
      rewrite !take_memcpy_at_out by (unfold sha; lia). reflexivity.
    + exists m3. unfold m4. rewrite HL1.
      replace (24 + (stun_length msg3 + 24)) with (stun_length msg3 + 32 + 16)
        by lia.
      split; [reflexivity|]. split; [exact HL3m|].
      replace 4 with (Z.of_nat (length (be_bytes 4 (stun_fingerprint m3)))) at 2
        by (rewrite length_be_bytes; reflexivity).
      apply bytes_at_memcpy_at; rewrite ?length_be_bytes; lia.
  - (* FINGERPRINT alone *)
    destruct (append_grows msg msg3 l3 plen STUN_FINGERPRINT 4 Hg3
                (small_object 4 eq_refl) Hmax Hreal)
      as [[Hno E]|(Hfit & E & Happ)]; rewrite (bind_run _ _ _ _ _ E).
    { apply finish_result_stop;
        [exact Hg3|exact Hr3|vm_compute; discriminate|exact Hno]. }
    unfold buffer, store, mbind, M_bind, mret, M_ret.
    rewrite host_bytes_htonl, be_bytes_uint32.
    set (m2 := reserved msg3 STUN_FINGERPRINT 4) in *.
    set (m4 := memcpy_at m2 (24 + stun_length msg3)
                 (be_bytes 4 (stun_fingerprint m2))).
    assert (Happ4 : appended msg3 m4 STUN_FINGERPRINT 4)
      by (apply appended_store; [exact Happ|lia]).
    assert (HL2 : stun_length m2 = stun_length msg3 + 8).
    { destruct Happ as (_ & HL & _). rewrite HL.
      change (stun_padding 4) with 0. lia. }
    assert (HL4 : stun_length m4 = stun_length msg3 + 8).
    { destruct Happ4 as (_ & HL & _). rewrite HL.
      change (stun_padding 4) with 0. lia. }
    assert (Hlen2 : length m2 = length msg)
      by (unfold m2; rewrite !length_reserved; lia).
    apply finish_result_done; [eapply grown_step; eauto| | |lia].
    { apply reserved_attrs_snoc; [exact Hr3|lia]. }
    unfold sealed. cbv zeta. rewrite HL4. split; [discriminate|].
    exists m2. unfold m4.
    replace (stun_length msg3 + 8 + 16) with (24 + stun_length msg3) by lia.
    split; [reflexivity|]. split; [exact HL2|].
    replace 4 with (Z.of_nat (length (be_bytes 4 (stun_fingerprint m2)))) at 2
      by (rewrite length_be_bytes; reflexivity).
    apply bytes_at_memcpy_at; rewrite ?length_be_bytes; lia.
Qed.


Lemma attrs_size_prefix (l full : list (Z * Z)) :
  Forall (fun a => 0 <= a.2) full -> l `prefix_of` full -> l <> full ->
  attrs_size l < attrs_size full.
Proof.
  intros Hall [k ->] Hne. destruct k as [|a k]; [now rewrite app_nil_r in Hne|].
  apply Forall_app in Hall as [_ Hall]. apply Forall_cons in Hall as [Ha Hk].
  rewrite attrs_size_app.
  change (attrs_size (a :: k)) with (attr_size a.2 + attrs_size k).
  pose proof (attrs_size_nonneg k Hk). pose proof (stun_padding_range a.2).
  unfold attr_size. lia.
Qed.

Lemma finish_attrs_nonneg (realm username key nonce : option (list byte))
    (noncelen : Z) :
  (nonce <> None -> object_size noncelen) ->
  Forall (fun a => 0 <= a.2) (finish_attrs realm username key nonce noncelen).
Proof.
  intros Hnonce. unfold finish_attrs. repeat apply Forall_app_2.
  - destruct realm as [r|]; constructor; [|constructor].
    simpl. pose proof (strlen_range r). lia.
  - destruct username as [u|]; constructor; [|constructor].
    simpl. pose proof (strlen_range u). lia.
  - destruct nonce as [n|]; constructor; [|constructor].
    simpl. destruct Hnonce as [Hn _]; [discriminate|exact Hn].
  - destruct key; constructor; [|constructor]. simpl. lia.
  - constructor; [|constructor]. simpl. lia.
Qed.

(** X15. The size law of [stun_finish_long]: it returns 0 exactly when the
    message with everything it is to append, each attribute counted with
    its 4-byte header and its padding, is within the smaller of [*plen]
    and STUN_MAXMSG; [*plen] is then the size of that message.  Otherwise
    it returns ENOBUFS, [*plen] is as it was and the message has stayed
    shorter than that. *)
Theorem stun_finish_long_size (plen : Z)
    (realm username key : option (list byte)) (keylen : Z)
    (nonce : option (list byte)) (noncelen : Z) (msg : list byte) :
  stun_padding (stun_length msg) = 0 -> STUN_MAXMSG <= 65552 ->
  plen <= Z.of_nat (length msg) ->
  (forall r, realm = Some r -> object_size (strlen r)) ->
  (forall u, username = Some u -> object_size (strlen u)) ->
  (nonce <> None -> object_size noncelen) ->
  let need := 20 + stun_length msg
              + attrs_size (finish_attrs realm username key nonce noncelen) in
  exists ret plen' msg',
    stun_finish_long plen realm username key keylen nonce noncelen msg
    = Normal ((ret, plen'), msg') /\
    (ret = Success <-> need <= Z.min plen STUN_MAXMSG) /\
    (ret = Success ->
     plen' = need /\ 20 + stun_length msg' = need /\ plen' <= plen) /\
    (ret <> Success ->
     ret = ENOBUFS /\ plen' = plen /\ 20 + stun_length msg' < need).
Proof.
  intros Hal Hmax Hreal Hrealm Huser Hnonce need.
  destruct (stun_finish_long_run plen realm username key keylen nonce noncelen
              msg Hal Hmax Hreal Hrealm Huser Hnonce)
    as (ret & plen' & msg' & l & E & Hg & _ & Hcase).
  exists ret, plen', msg'. split; [exact E|].
  destruct (grown_length _ _ _ Hg) as (HL & _ & _).
  destruct Hcase as [(Hfit & -> & -> & -> & _)|(Hno & -> & -> & Hne & Hpre)].
  - fold need in Hfit. split; [tauto|]. split; [|congruence].
    intros _. unfold need. lia.
  - fold need in Hno. split; [split; [discriminate|lia]|].
    split; [discriminate|]. intros _.
    split; [reflexivity|]. split; [reflexivity|].
    pose proof (attrs_size_prefix l _
                  (finish_attrs_nonneg realm username key nonce noncelen Hnonce)
                  Hpre Hne).
    unfold need. lia.
Qed.

(** X16. [stun_finish_long], whether it succeeds or not, keeps the size of
    the buffer, the class, the method, the magic cookie and the
    transaction identifier of the message, and the attributes the message
    had; the length field does not decrease and stays a multiple of 4. *)
Theorem stun_finish_long_keeps (plen : Z)
    (realm username key : option (list byte)) (keylen : Z)
    (nonce : option (list byte)) (noncelen : Z) (msg : list byte) :
  stun_padding (stun_length msg) = 0 -> STUN_MAXMSG <= 65552 ->
  plen <= Z.of_nat (length msg) ->
  (forall r, realm = Some r -> object_size (strlen r)) ->
  (forall u, username = Some u -> object_size (strlen u)) ->
  (nonce <> None -> object_size noncelen) ->
  exists ret plen' msg',
    stun_finish_long plen realm username key keylen nonce noncelen msg
    = Normal ((ret, plen'), msg') /\
    length msg' = length msg /\
    stun_get_class msg' = stun_get_class msg /\
    stun_get_method msg' = stun_get_method msg /\
    stun_id msg' = stun_id msg /\
    bytes_at msg' 4 4 = bytes_at msg 4 4 /\
    bytes_at msg' 20 (stun_length msg) = bytes_at msg 20 (stun_length msg) /\
    stun_length msg <= stun_length msg' /\
    stun_padding (stun_length msg') = 0.
Proof.
  intros Hal Hmax Hreal Hrealm Huser Hnonce.
  destruct (stun_finish_long_run plen realm username key keylen nonce noncelen
              msg Hal Hmax Hreal Hrealm Huser Hnonce)
    as (ret & plen' & msg' & l & E & Hg & _ & _).
  exists ret, plen', msg'. split; [exact E|].
  destruct (grown_length _ _ _ Hg) as (HL & Hlen & Hal').
  destruct Hg as [Hb Hfr]. pose proof (built_le _ _ _ Hb) as Hle.
  pose proof (stun_length_range msg) as HL0.
  destruct (header_frame msg msg' Hlen) as (Hc & Hm & Hid & Hk).
  { intros i Hi. apply Hfr. lia. }
  repeat split; auto.
  apply bytes_at_frame; [exact Hlen|lia|]. intros i Hi. apply Hfr. lia.
Qed.

Lemma attrs_between_app_inv (msg : list byte) (a b : Z) (l k : list (Z * Z)) :
  attrs_between msg a b (l ++ k) ->
  exists m, attrs_between msg a m l /\ attrs_between msg m b k.
Proof.
  revert a. induction l as [|[t n] l IH]; intros a Hab.
  - exists a. split; [constructor|exact Hab].
  - simpl in Hab. inversion Hab as [|? ? ? ? ? Hoff Ht Hn Hrest]; subst.
    destruct (IH _ Hrest) as (m & Hl & Hk).
    exists m. split; [now constructor|exact Hk].
Qed.

(** Where the last attributes of a message are. *)
Lemma attrs_between_last (msg : list byte) (a b t n : Z) (l : list (Z * Z)) :
  attrs_between msg a b (l ++ [(t, n)]) ->
  stun_getw msg (b - attr_size n) = t /\
  stun_getw msg (b - attr_size n + 2) = n.
Proof.
  intros Hab. apply attrs_between_app_inv in Hab as (m & _ & Hk).
  inversion Hk as [|? ? ? ? ? Hoff Ht Hn Hrest]; subst.
  inversion Hrest; subst. unfold attr_size.
  replace (m + 4 + stun_getw msg (m + 2)
           + stun_padding (stun_getw msg (m + 2))
           - (4 + stun_getw msg (m + 2)
              + stun_padding (stun_getw msg (m + 2)))) with m by lia.
  auto.
Qed.

(** X17. When everything fits, the message that [stun_finish_long] leaves
    ends with a FINGERPRINT attribute whose payload is the big-endian
    [stun_fingerprint] of the message as it stood before these 4 bytes were
    stored; and if a key is given, the attribute before it is
    MESSAGE-INTEGRITY, whose payload is the HMAC-SHA1, under the first
    [keylen] bytes of the key, of the final message up to this attribute,
    the length field counting every attribute, FINGERPRINT included. *)
Theorem stun_finish_long_sealed (plen : Z)
    (realm username key : option (list byte)) (keylen : Z)
    (nonce : option (list byte)) (noncelen : Z) (msg : list byte) :
  stun_padding (stun_length msg) = 0 -> STUN_MAXMSG <= 65552 ->
  plen <= Z.of_nat (length msg) ->
  (forall r, realm = Some r -> object_size (strlen r)) ->
  (forall u, username = Some u -> object_size (strlen u)) ->
  (nonce <> None -> object_size noncelen) ->
  20 + stun_length msg
    + attrs_size (finish_attrs realm username key nonce noncelen)
    <= Z.min plen STUN_MAXMSG ->
  exists msg',
    stun_finish_long plen realm username key keylen nonce noncelen msg
    = Normal ((Success, 20 + stun_length msg'), msg') /\
    let L := stun_length msg' in
    (forall k, key = Some k ->
       stun_getw msg' (L - 12) = STUN_MESSAGE_INTEGRITY /\
       bytes_at msg' (L - 8) 20
       = vec_to_list (HMAC_SHA1 (take (Z.to_nat keylen) k)
                                (take (Z.to_nat (L - 12)) msg'))) /\
    stun_getw msg' (L + 12) = STUN_FINGERPRINT /\
    exists before,
      msg' = memcpy_at before (L + 16) (be_bytes 4 (stun_fingerprint before)) /\
      stun_length before = L /\
      bytes_at msg' (L + 16) 4 = be_bytes 4 (stun_fingerprint before).
Proof.
  intros Hal Hmax Hreal Hrealm Huser Hnonce Hfit.
  destruct (stun_finish_long_run plen realm username key keylen nonce noncelen
              msg Hal Hmax Hreal Hrealm Huser Hnonce)
    as (ret & plen' & msg' & l & E & Hg & _ & Hcase).
  destruct Hcase as [(_ & -> & -> & -> & Hseal)|(Hno & _)]; [|lia].
  exists msg'. split; [exact E|]. intros L.
  destruct Hseal as [Hsha Hfpr]. fold L in Hsha, Hfpr.
  destruct Hg as [(_ & _ & Hattrs) _]. fold L in Hattrs.
  unfold finish_attrs in Hattrs. rewrite !app_assoc in Hattrs.
  split; [|split; [|exact Hfpr]].
  - intros k ->. split; [|now apply Hsha].
    apply attrs_between_app_inv in Hattrs as (m & Hattrs & Hfp).
    inversion Hfp as [|? ? ? ? ? Hoff Hty Hn Hrest]; subst.
    inversion Hrest as [? Hend|]; subst.
    cbv iota in Hattrs.
    apply attrs_between_last in Hattrs as [Ht _].
    change (attr_size 20) with 24 in Ht.
    match goal with
    | Hend : _ + stun_padding 4 = _ |- _ =>
        change (stun_padding 4) with 0 in Hend
    end.
    replace (L - 12) with (m - 24) by lia. exact Ht.
  - apply attrs_between_last in Hattrs as [Ht _].
    change (attr_size 4) with 8 in Ht.
    rewrite <- Ht. f_equal. lia.
Qed.

(** X18. [stun_finish] appends a FINGERPRINT attribute and nothing else:
    when [stun_length + 28] exceeds the smaller of [*plen] and STUN_MAXMSG
    it returns ENOBUFS and changes nothing; otherwise it returns 0, sets
    [*plen] to [stun_length + 28], and the message has grown by the 8
    bytes of the attribute, every other byte but the length field being
    as before.  [stun_finish_short] with a password keys the
    MESSAGE-INTEGRITY digest with the bytes of the password before its
    NUL. *)
Theorem stun_finish_fingerprint (plen : Z) (msg : list byte) :
  stun_padding (stun_length msg) = 0 -> STUN_MAXMSG <= 65552 ->
  plen <= Z.of_nat (length msg) ->
  let L0 := stun_length msg in
  (L0 + 28 > Z.min plen STUN_MAXMSG ->
   stun_finish plen msg = Normal ((ENOBUFS, plen), msg)) /\
  (L0 + 28 <= Z.min plen STUN_MAXMSG ->
   let before := reserved msg STUN_FINGERPRINT 4 in
   let msg' := memcpy_at before (24 + L0)
                 (be_bytes 4 (stun_fingerprint before)) in
   stun_finish plen msg = Normal ((Success, L0 + 28), msg') /\
   stun_length msg' = L0 + 8 /\ stun_length before = L0 + 8 /\
   stun_getw msg' (20 + L0) = STUN_FINGERPRINT /\
   stun_getw msg' (22 + L0) = 4 /\
   bytes_at msg' (24 + L0) 4 = be_bytes 4 (stun_fingerprint before) /\
   forall i, 0 <= i < 2 \/ 4 <= i < 20 + L0 \/ 28 + L0 <= i ->
             load8 msg' i = load8 msg i) /\
  (forall username password nonce noncelen plen' msg',
     (forall u, username = Some u -> object_size (strlen u)) ->
     (nonce <> None -> object_size noncelen) ->
     stun_finish_short plen username (Some password) nonce noncelen msg
     = Normal ((Success, plen'), msg') ->
     bytes_at msg' (stun_length msg' - 8) 20
     = vec_to_list
         (HMAC_SHA1 (take (Z.to_nat (strlen password)) password)
                    (take (Z.to_nat (stun_length msg' - 12)) msg'))).
Proof.
  intros Hal Hmax Hreal L0. subst L0.
  pose proof (stun_length_range msg) as HL.
  assert (Erun : stun_finish plen msg
                 = (crc ← stun_append plen STUN_FINGERPRINT 4;
                    match crc with
                    | None => mret (ENOBUFS, plen)
                    | Some crc =>
                        mret tt;;
                        m ← buffer;
                        store crc (host_bytes 4
                                     (htonl (uint32 (stun_fingerprint m))));;
                        m ← buffer;
                        mret (Success, size_t (20 + stun_length m))
                    end) msg) by reflexivity.
  split; [|split].
  - intros Hno. rewrite Erun.
    assert (Hno' : stun_length msg + 24 + 4 > Z.min plen STUN_MAXMSG) by lia.
    rewrite (bind_run _ _ _ _ _
      (stun_append_nospace plen STUN_FINGERPRINT 4 msg Hal
         (small_object 4 eq_refl) Hno')).
    reflexivity.
  - intros Hfit before msg'. rewrite Erun.
    assert (Hfit' : stun_length msg + 24 + 4 <= Z.min plen STUN_MAXMSG) by lia.
    rewrite (bind_run _ _ _ _ _
      (stun_append_success plen STUN_FINGERPRINT 4 msg Hal
         (small_object 4 eq_refl) Hmax Hfit')).
    unfold buffer, store, mbind, M_bind, mret, M_ret.
    rewrite host_bytes_htonl, be_bytes_uint32. fold before. fold msg'.
    pose proof (reserved_written msg STUN_FINGERPRINT
                  (be_bytes 4 (stun_fingerprint before))) as Hw.
    cbv zeta in Hw. rewrite length_be_bytes in Hw.
    change (Z.of_nat 4) with 4 in Hw. change (stun_padding 4) with 0 in Hw.
    fold before in Hw. fold msg' in Hw.
    destruct Hw as (Hl & Ht & Hn & Hpay & HL'); [lia|lia|].
    assert (HLb : stun_length before = stun_length msg + 8).
    { unfold before. rewrite stun_length_reserved;
        change (stun_padding 4) with 0; lia. }
    split.
    { rewrite HL', size_t_small
        by (change (2 ^ 64) with 18446744073709551616; lia).
      do 3 f_equal. lia. }
    split; [lia|]. split; [exact HLb|]. split; [exact Ht|].
    split; [exact Hn|]. split; [exact Hpay|].
    destruct (reserved_payload_slot msg STUN_FINGERPRINT 4
                (be_bytes 4 (stun_fingerprint before)) ltac:(lia)
                ltac:(rewrite length_be_bytes; lia)) as (_ & _ & Haft).
    change (stun_padding 4) with 0 in Haft.
    fold before in Haft. fold msg' in Haft.
    intros i [Hi|[Hi|Hi]].
    + unfold msg'. rewrite load8_memcpy_at_out by lia.
      apply load8_reserved; lia.
    + unfold msg'. rewrite load8_memcpy_at_out by lia.
      apply load8_reserved; lia.
    + apply Haft. lia.
  - intros username password nonce noncelen plen' msg' Huser Hnonce E.
    unfold stun_finish_short in E.
    destruct (stun_finish_long_run plen None username (Some password)
                (strlen password) nonce noncelen msg Hal Hmax Hreal
                ltac:(discriminate) Huser Hnonce)
      as (ret & plen1 & msg1 & l & E1 & _ & _ & Hcase).
    rewrite E in E1. injection E1 as <- <- <-.
    destruct Hcase as [(_ & _ & _ & _ & Hseal)|(_ & Hret & _)];
      [|discriminate Hret].
    destruct Hseal as [Hsha _]. now apply Hsha.
Qed.
End StunFinished.

(** ** stun/stunsend.c: a sequence of attributes *)

Section StunSequence.
Import Stun.
Context `{Host} `{StunEnv}.

Lemma attr_size_pos (n : Z) : 0 <= n -> 4 <= attr_size n.
Proof. intros Hn. pose proof (stun_padding_range n). unfold attr_size. lia. Qed.

Lemma payloads_size_cons (type : Z) (data : list byte)
    (attrs : list (Z * list byte)) :
  payloads_size ((type, data) :: attrs)
  = attr_size (Z.of_nat (length data)) + payloads_size attrs.
Proof. reflexivity. Qed.

Lemma payloads_size_nonneg (attrs : list (Z * list byte)) :
  0 <= payloads_size attrs.
Proof.
  unfold payloads_size. apply attrs_size_nonneg.
  apply Forall_map, Forall_forall. intros a _. simpl. lia.
Qed.

Lemma payloads_between_le (msg : list byte) (a b : Z)
    (l : list (Z * list byte)) :
  payloads_between msg a b l -> a <= b /\ (l <> [] -> a + 4 <= b).
Proof.
  induction 1 as [off|off stop type data l Hoff Ht Hn Hd Hl [IH _]].
  - split; [lia|congruence].
  - pose proof (attr_size_pos (Z.of_nat (length data)) ltac:(lia)). lia.
Qed.

(** A message has one sequence of attributes. *)
Lemma payloads_between_unique (msg : list byte) (a b : Z)
    (l l' : list (Z * list byte)) :
  payloads_between msg a b l -> payloads_between msg a b l' -> l = l'.
Proof.
  intros Hl. revert l'.
  induction Hl as [off|off stop type data l Hoff Ht Hn Hd Hl IH]; intros l' Hl'.
  - destruct l' as [|x l']; [reflexivity|].
    apply payloads_between_le in Hl' as [_ Hl']. specialize (Hl' ltac:(discriminate)).
    lia.
  - inversion Hl' as [off' E|off' stop' type' data' k Hoff' Ht' Hn' Hd' Hk];
      subst.
    + apply payloads_between_le in Hl as [Hl _].
      pose proof (attr_size_pos (Z.of_nat (length data)) ltac:(lia)). lia.
    + assert (Elen : Z.of_nat (length data') = Z.of_nat (length data))
        by congruence.
      assert (data' = data) by (rewrite <- Hd', Elen; exact Hd). subst data'.
      f_equal. now apply IH.
Qed.

Lemma payloads_between_frame (msg msg' : list byte) (a b : Z)
    (l : list (Z * list byte)) :
  payloads_between msg a b l -> length msg' = length msg ->
  (forall i, a <= i < b -> load8 msg' i = load8 msg i) ->
  payloads_between msg' a b l.
Proof.
  induction 1 as [off|off stop type data l Hoff Ht Hn Hd Hl IH];
    intros Hlen Hfr; [constructor|].
  pose proof (payloads_between_le _ _ _ _ Hl) as [Hle _].
  pose proof (stun_padding_range (Z.of_nat (length data))) as Hp.
  unfold attr_size in *.
  constructor; auto.
  - rewrite <- Ht. apply stun_getw_frame; apply Hfr; lia.
  - rewrite <- Hn. apply stun_getw_frame; apply Hfr; lia.
  - rewrite <- Hd at 2. apply bytes_at_frame; [exact Hlen|lia|].
    intros i Hi. apply Hfr. lia.
  - apply IH; [exact Hlen|]. intros i Hi. apply Hfr. lia.
Qed.

(** X19. Attributes appended one after the other with [stun_append_bytes]
    read back: if the message with all of them is within the smaller of
    [msize] and STUN_MAXMSG, every call returns 0, the length field has
    advanced over them, and the attributes between the old and the new end
    of the message are, in order, the given types and payloads, and no
    other sequence; the header and the earlier attributes are as before. *)
Theorem append_all_decodes (msize : Z) (attrs : list (Z * list byte))
    (msg : list byte) :
  stun_padding (stun_length msg) = 0 -> STUN_MAXMSG <= 65552 ->
  msize <= Z.of_nat (length msg) ->
  Forall (fun a => 0 <= a.1 < 65536) attrs ->
  20 + stun_length msg + payloads_size attrs <= Z.min msize STUN_MAXMSG ->
  exists msg',
    append_all msize attrs msg = Normal (Success, msg') /\
    length msg' = length msg /\
    stun_length msg' = stun_length msg + payloads_size attrs /\
    payloads_between msg' (20 + stun_length msg) (20 + stun_length msg') attrs /\
    (forall l, payloads_between msg' (20 + stun_length msg)
                 (20 + stun_length msg') l -> l = attrs) /\
    (forall i, 0 <= i < 2 \/ 4 <= i < 20 + stun_length msg ->
               load8 msg' i = load8 msg i).
Proof.
  intros Hal Hmax Hsize Hty. revert msg Hal Hsize.
  induction Hty as [|[type data] attrs Htype Hty IH]; intros msg Hal Hsize Hfit.
  - exists msg. unfold payloads_size in *. simpl.
    change (attrs_size []) with 0.
    replace (stun_length msg + 0) with (stun_length msg) by lia.
    assert (Hnil : payloads_between msg (20 + stun_length msg)
                     (20 + stun_length msg) []) by constructor.
    repeat split; auto.
    intros l Hl. eapply payloads_between_unique; eauto.
  - rewrite payloads_size_cons in *.
    pose proof (payloads_size_nonneg attrs) as Hrest.
    pose proof (stun_length_range msg) as HL.
    set (n := Z.of_nat (length data)) in *.
    pose proof (stun_padding_range n) as Hp.
    assert (Hobj : object_size n)
      by (apply object_size_small; unfold attr_size in Hfit; lia).
    destruct (stun_append_bytes_written msize type data n msg Hal Hobj Hmax
                Hsize ltac:(lia) ltac:(unfold attr_size in Hfit; lia))
      as (msg1 & E1 & Hl1 & Ht1 & Hn1 & Hpay1 & HL1 & _ & Hfr1).
    assert (Hal1 : stun_padding (stun_length msg1) = 0).
    { apply stun_padding_0. rewrite HL1.
      apply mod4_advance; [now apply stun_padding_0|].
      apply stun_padding_aligns. }
    destruct (IH msg1 Hal1 ltac:(lia)
                ltac:(rewrite HL1; unfold attr_size in Hfit; lia))
      as (msg' & E & Hl' & HL' & Hpl & Huniq & Hfr).
    assert (Hfr' : forall i, 0 <= i < 2 \/ 4 <= i < 20 + stun_length msg1 ->
                             load8 msg' i = load8 msg1 i) by exact Hfr.
    exists msg'. simpl append_all. fold n.
    rewrite (bind_run _ _ _ _ _ E1).
    split; [exact E|]. split; [lia|].
    split; [rewrite HL', HL1; unfold attr_size; lia|].
    assert (Hcons : payloads_between msg' (20 + stun_length msg)
                      (20 + stun_length msg') ((type, data) :: attrs)).
    { constructor; [lia| | | |].
      - transitivity (stun_getw msg1 (20 + stun_length msg)).
        + apply stun_getw_frame; apply Hfr'; rewrite HL1; lia.
        + rewrite Ht1. apply uint16_small. simpl in Htype. lia.
      - fold n. rewrite <- Hn1.
        replace (20 + stun_length msg + 2) with (22 + stun_length msg) by lia.
        apply stun_getw_frame; apply Hfr'; rewrite HL1; lia.
      - fold n.
        replace (20 + stun_length msg + 4) with (24 + stun_length msg) by lia.
        transitivity (bytes_at msg1 (24 + stun_length msg) n).
        + apply bytes_at_frame; [exact Hl'|lia|].
          intros i Hi. apply Hfr'. rewrite HL1. lia.
        + rewrite Hpay1. apply firstn_all2. lia.
      - fold n.
        replace (20 + stun_length msg + attr_size n)
          with (20 + stun_length msg1) by (rewrite HL1; unfold attr_size; lia).
        exact Hpl. }
    split; [exact Hcons|]. split.
    + intros l Hl. eapply payloads_between_unique; eauto.
    + intros i Hi. rewrite Hfr' by (rewrite HL1; lia). apply Hfr1. lia.
Qed.
End StunSequence.

(** * Examples and counterexamples *)

Section Examples.
Import Address Stun.

(** C8 at the IPv4 address 192.168.1.1, port 3478. *)
Lemma nice_address_sockaddr_roundtrip_witness :
  let a := mk_NiceAddress NICE_ADDRESS_TYPE_IPV4 0xC0A80101
                          (vreplicate 16 Byte.x00) 3478 in
  exists sin' a',
    @nice_address_copy_to_sockaddr little_endian_host a
       (mk_sockaddr 0 0 0 (vreplicate 16 Byte.x00)) = Normal sin' /\
    @nice_address_set_from_sockaddr little_endian_host nice_address_new sin'
      = Normal a' /\
    nice_address_equal a a' = Normal true /\
    type a' = type a /\ port a' = port a /\
    (type a = NICE_ADDRESS_TYPE_IPV4 -> addr_ipv4 a' = addr_ipv4 a) /\
    (type a = NICE_ADDRESS_TYPE_IPV6 -> addr_ipv6 a' = addr_ipv6 a).
Proof.
  intros a.
  apply (@nice_address_sockaddr_roundtrip little_endian_host a).
  - unfold NiceAddress_wf. simpl. lia.
  - left. reflexivity.
Defined.

(** C9 as stated fails: the string 0x7f.1 is no dotted quad, and
    [inet_aton] accepts it as 127.0.0.1, so the call returns TRUE. *)
Lemma set_ipv4_from_string_accepts_hex :
  let s := [Byte.x30; Byte.x78; Byte.x37; Byte.x66; Byte.x2e; Byte.x31] in
  (forall le,
     let '(ret, addr') :=
       @nice_address_set_ipv4_from_string (libc_host le) nice_address_new s in
     ret = true /\ type addr' = NICE_ADDRESS_TYPE_IPV4 /\
     addr_ipv4 addr' = 0x7f000001) /\
  ~ valid_dotted_quad s.
Proof.
  intros s. split.
  - intros [|]; vm_compute; repeat split; reflexivity.
  - intros (a & b & c & d & (Ha & _) & E).
    unfold s, dotted_quad, decimal in E.
    destruct (Z.ltb_spec a 10) as [H10|H10];
      [|destruct (Z.ltb_spec a 100) as [H100|H100]]; simpl in E.
    + injection E as _ E _. discriminate E.
    + injection E as _ E _.
      assert (Hd : 0 <= a mod 10 <= 9)
        by (Z.to_euclidean_division_equations; lia).
      destruct (decimal_digit_value _ Hd) as (Ev & _).
      rewrite <- E in Ev. change (Z_of_byte Byte.x78) with 120 in Ev. lia.
    + injection E as _ E _.
      assert (Hd : 0 <= a / 10 mod 10 <= 9)
        by (Z.to_euclidean_division_equations; lia).
      destruct (decimal_digit_value _ Hd) as (Ev & _).
      rewrite <- E in Ev. change (Z_of_byte Byte.x78) with 120 in Ev. lia.
Qed.

(** The dotted quad 192.168.1.1 on a host of either byte order. *)
Example set_ipv4_from_string_dotted :
  forall le,
    @nice_address_set_ipv4_from_string (libc_host le) nice_address_new
      (list_byte_of_string "192.168.1.1")
    = (true, mk_NiceAddress NICE_ADDRESS_TYPE_IPV4 0xC0A80101
               (vreplicate 16 Byte.x00) 0) /\
    dotted_quad 192 168 1 1 = list_byte_of_string "192.168.1.1".
Proof. intros [|]; vm_compute; split; reflexivity. Qed.

(** C3 at a 32-bit attribute appended to an empty message. *)
Lemma run_append_contract_witness :
  @append_contract example_env (zero_buffer 100)
    (op_append32 0x0024 0xDEADBEEF)
    (@run_append little_endian_host example_env 100
       (op_append32 0x0024 0xDEADBEEF) (zero_buffer 100)).
Proof.
  apply (@run_append_contract little_endian_host example_env).
  - vm_compute. reflexivity.
  - simpl. lia.
  - simpl. lia.
  - exact I.
Defined.

(** C3 as stated fails: an address of an unsupported family makes
    [stun_append_addr] fail with EAFNOSUPPORT, which is neither success
    nor no-buffer-space. *)
Lemma append_addr_unsupported_family :
  let msg := zero_buffer 100 in
  let op := op_append_addr 1 (mk_sockaddr 1 0 0 (vreplicate 16 Byte.x00)) 16 in
  (stun_padding (stun_length msg) = 0 /\
   @STUN_MAXMSG example_env <= 65552 /\
   100 <= Z.of_nat (length msg) /\ op_precondition op) /\
  @run_append little_endian_host example_env 100 op msg
    = Normal (EAFNOSUPPORT, msg) /\
  ~ @append_contract_stated example_env msg op
      (@run_append little_endian_host example_env 100 op msg).
Proof.
  intros msg op. split; [|split].
  - vm_compute. repeat split; discriminate.
  - vm_compute. reflexivity.
  - intros (st & msg' & E & Hc).
    assert (Est : st = EAFNOSUPPORT).
    { vm_compute in E. congruence. }
    destruct Hc as [[Hst _]|[Hst _]]; congruence.
Qed.

(** C4 at an empty message in a 100-byte buffer. *)
Lemma stun_append_no_space_iff_witness :
  let msg := zero_buffer 100 in
  ((exists msg', @stun_append example_env 100 0x0024 4 msg
                 = Normal (None, msg')) <->
   stun_length msg + 24 + 4 > Z.min 100 (@STUN_MAXMSG example_env)) /\
  (forall a msg',
     @stun_append example_env 100 0x0024 4 msg = Normal (Some a, msg') ->
     a = 24 + stun_length msg /\
     a + 4 <= Z.min 100 (@STUN_MAXMSG example_env)) /\
  (@STUN_MAXMSG example_env <= 65552 -> 100 <= Z.of_nat (length msg) ->
   forall a msg',
     @stun_append example_env 100 0x0024 4 msg = Normal (Some a, msg') ->
     ((exists msg'',
         @stun_append example_env 100 STUN_MESSAGE_INTEGRITY 20 msg'
         = Normal (None, msg''))
      <-> stun_length msg + 4 + 4 + stun_padding 4 + 44
            > Z.min 100 (@STUN_MAXMSG example_env))).
Proof.
  intros msg.
  apply (@stun_append_no_space_iff example_env).
  - vm_compute. reflexivity.
  - vm_compute. split; [discriminate|reflexivity].
Defined.

(** C4 as stated fails: in a 28-byte buffer a 32-bit attribute is
    appended to an empty message, and then the MESSAGE-INTEGRITY
    reservation of [stun_finish_long] finds no room. *)
Lemma append_leaves_no_room_for_integrity :
  let msg0 := zero_buffer 28 in
  exists msg1,
    @stun_append32 little_endian_host example_env 28 0x0024 0xDEADBEEF msg0
      = Normal (Success, msg1) /\
    @stun_append example_env 28 STUN_MESSAGE_INTEGRITY 20 msg1
      = Normal (None, msg1) /\
    @stun_finish_long little_endian_host example_env 28 None None
       (Some [Byte.x70; Byte.x61; Byte.x73; Byte.x73]) 4 None 0 msg1
      = Normal ((ENOBUFS, 28), msg1).
Proof.
  intros msg0. eexists. split; [vm_compute; reflexivity|].
  split; vm_compute; reflexivity.
Qed.
(** C5 at the Binding method, in a 20-byte buffer. *)
Lemma stun_init_request_header_witness :
  exists store_counter' req',
    @stun_init_request little_endian_host 0 1 (zero_buffer 20)
      = Normal (store_counter', req') /\
    bytes_at req' 4 4 = [Byte.x21; Byte.x12; Byte.xa4; Byte.x42] /\
    bytes_at req' 2 2 = [Byte.x00; Byte.x00] /\ stun_length req' = 0 /\
    load8 req' 0
      = Z.lor (Z.shiftr STUN_REQUEST 1) (Z.land (Z.shiftr 1 6) 0x3E) /\
    load8 req' 1
      = Z.lor (Z.lor (Z.land (Z.shiftl STUN_REQUEST 4) 0x10)
                     (Z.land (Z.shiftl 1 1) 0xE0))
              (Z.land 1 0x0F) /\
    stun_get_class req' = STUN_REQUEST /\ stun_get_method req' = 1 /\
    bytes_at req' 8 12 = (@stun_make_transid little_endian_host 0).1.
Proof.
  apply (@stun_init_request_header little_endian_host 0 1 (zero_buffer 20)).
  - lia.
  - simpl. lia.
Defined.

(** C7 for the first three identifiers of a process. *)
Lemma stun_make_transid_unique_witness :
  (let '(id, store_counter') := @stun_make_transid little_endian_host 0 in
   length id = 12%nat /\
   take 4 id = [Byte.x00; Byte.x00; Byte.x00; Byte.x00] /\
   drop 4 id = @host_bytes little_endian_host 8 0 /\
   (@host_little_endian little_endian_host = false ->
    drop 4 id = be_bytes 8 0) /\
   (@host_little_endian little_endian_host = true ->
    drop 4 id = le_bytes 8 0) /\
   store_counter' = (0 + 1) mod 2 ^ 64) /\
  NoDup (@transids little_endian_host 3 0).
Proof.
  apply (@stun_make_transid_unique little_endian_host 0 3). simpl. lia.
Defined.

(** C7 as stated fails on a little-endian host: the identifier made from
    the counter value 1 has the bytes 01 00 00 00 00 00 00 00 after its four
    zero bytes, not the big-endian 00 00 00 00 00 00 00 01. *)
Lemma transid_little_endian :
  (@stun_make_transid little_endian_host 1).1
    = [Byte.x00; Byte.x00; Byte.x00; Byte.x00;
       Byte.x01; Byte.x00; Byte.x00; Byte.x00;
       Byte.x00; Byte.x00; Byte.x00; Byte.x00] /\
  drop 4 (@stun_make_transid little_endian_host 1).1 <> be_bytes 8 1.
Proof. split; [vm_compute; reflexivity|vm_compute; discriminate]. Qed.
(** C6 at the error 401 in a 100-byte buffer. *)
Lemma stun_append_error_payload_witness :
  let msg := zero_buffer 100 in
  let phrase := stun_strerror 401 in
  let len := Z.of_nat (length phrase) in
  let payload := [Byte.x00; Byte.x00; byte_of_Z (401 / 100);
                  byte_of_Z (401 mod 100)] ++ phrase in
  phrase = list_byte_of_string (catalog_phrase error_catalog 401) /\
  (stun_padding (stun_length msg) = 0 ->
   stun_length msg + 24 + (4 + len) <= Z.min 100 (@STUN_MAXMSG example_env) ->
   exists msg',
     @stun_append_error example_env 100 401 msg = Normal (Success, msg') /\
     stun_getw msg' (20 + stun_length msg) = STUN_ERROR_CODE /\
     stun_getw msg' (20 + stun_length msg + 2) = 4 + len /\
     bytes_at msg' (24 + stun_length msg) (4 + len) = payload) /\
  (24 + (4 + len) <= Z.min 100 (@STUN_MAXMSG example_env) ->
   exists ans',
     @stun_init_error example_env 100 msg 401 msg = Normal (Success, ans') /\
     stun_get_class ans' = STUN_ERROR /\
     stun_get_method ans' = stun_get_method msg /\
     stun_getw ans' 20 = STUN_ERROR_CODE /\
     stun_length ans' = 4 + (4 + len) + stun_padding (4 + len) /\
     bytes_at ans' 24 (4 + len) = payload /\
     (401 = 401 ->
      bytes_at ans' 24 26
        = [Byte.x00; Byte.x00; Byte.x04; Byte.x01]
          ++ list_byte_of_string "Authorization required")).
Proof.
  intros msg.
  apply (@stun_append_error_payload example_env 100 401 msg msg).
  - lia.
  - simpl. lia.
  - simpl. lia.
Defined.

(** C1 at a message of 52 bytes that ends with MESSAGE-INTEGRITY and
    FINGERPRINT. *)
Lemma stun_sha1_prefix_witness :
  exists msg,
    @stun_finish_long little_endian_host example_env 52 None None
       (Some [Byte.x70; Byte.x61; Byte.x73; Byte.x73]) 4 None 0
       (zero_buffer 52) = Normal ((Success, 52), msg) /\
    let key := [Byte.x70; Byte.x61; Byte.x73; Byte.x73] in
    let data := take (Z.to_nat (stun_length msg - 12)) msg in
    @stun_sha1 example_env msg key 4
      = Normal (@HMAC_SHA1 example_env (take (Z.to_nat 4) key) data) /\
    length (vec_to_list (@HMAC_SHA1 example_env (take (Z.to_nat 4) key) data))
      = 20%nat /\
    (stun_length msg - 12 <= Z.of_nat (length msg) ->
     Z.of_nat (length data) = stun_length msg - 12) /\
    (forall start l,
       attrs_between msg start (20 + stun_length msg)
         (l ++ [(STUN_MESSAGE_INTEGRITY, 20); (STUN_FINGERPRINT, 4)]) ->
       attrs_between msg start (stun_length msg - 12) l).
Proof.
  eexists. split; [vm_compute; reflexivity|].
  apply (@stun_sha1_prefix example_env).
  vm_compute. discriminate.
Defined.

(** C1 as stated fails: in the 52-byte message that [stun_finish_long]
    builds from an empty one with a key, the MESSAGE-INTEGRITY attribute
    has its header at bytes 20..23 and its payload from byte 24 on, and the
    digest is taken over the first 20 bytes, not over the 24 bytes that end
    where that payload begins (the digest function here tells inputs of
    different lengths apart, as HMAC-SHA1 does). *)
Lemma sha1_prefix_excludes_integrity_header :
  let key := [Byte.x70; Byte.x61; Byte.x73; Byte.x73] in
  exists msg,
    @stun_finish_long little_endian_host length_env 52 None None (Some key) 4
       None 0 (zero_buffer 52) = Normal ((Success, 52), msg) /\
    stun_getw msg 20 = STUN_MESSAGE_INTEGRITY /\ stun_getw msg 22 = 20 /\
    @stun_sha1 length_env msg key 4
      = Normal (@HMAC_SHA1 length_env key (take 20 msg)) /\
    @stun_sha1 length_env msg key 4
      <> Normal (@HMAC_SHA1 length_env key (take 24 msg)) /\
    ~ (forall env : StunEnv,
         @stun_sha1 env msg key 4
         = Normal (@HMAC_SHA1 env key (take 24 msg))).
Proof.
  intros key. eexists. split; [vm_compute; reflexivity|].
  split; [vm_compute; reflexivity|]. split; [vm_compute; reflexivity|].
  split; [vm_compute; reflexivity|].
  split; [vm_compute; discriminate|].
  intros Hall. specialize (Hall length_env). vm_compute in Hall.
  discriminate Hall.
Qed.


(** The same call with [*plen = 40]: USERNAME is appended, the reservation
    of MESSAGE-INTEGRITY fails, and the call returns ENOBUFS with the
    length field at 8 and [*plen] as it was. *)
Example finish_long_stops_at_integrity :
  let user := [Byte.x75; Byte.x73; Byte.x65; Byte.x72] in
  let pass := [Byte.x70; Byte.x61; Byte.x73; Byte.x73] in
  reserved_attrs (Z.min 40 (@STUN_MAXMSG example_env)) 0
    (finish_attrs None (Some user) (Some pass) None 0)
  = [(STUN_USERNAME, 4)] /\
  exists msg',
    @stun_finish_long little_endian_host example_env 40 None (Some user)
       (Some pass) 4 None 0 (zero_buffer 100)
    = Normal ((ENOBUFS, 40), msg') /\
    stun_length msg' = 8 /\ stun_getw msg' 20 = STUN_USERNAME /\
    bytes_at msg' 24 4 = user.
Proof.
  intros user pass. split; [reflexivity|].
  eexists. split; [vm_compute; reflexivity|].
  vm_compute. repeat split; reflexivity.
Qed.

(** The concrete scenarios of the specification. *)

(** Scenario 1: the header of a Binding request. *)
Example init_request_binding :
  exists store_counter' req,
    @stun_init_request big_endian_host 0 1 (zero_buffer 20)
      = Normal (store_counter', req) /\
    bytes_at req 0 8 = [Byte.x00; Byte.x01; Byte.x00; Byte.x00;
                        Byte.x21; Byte.x12; Byte.xa4; Byte.x42] /\
    stun_length req = 0.
Proof. eexists _, _. repeat split; vm_compute; reflexivity. Qed.

(** Scenario 2: a 32-bit attribute, on a little-endian and on a big-endian
    host. *)
Example append32_deadbeef_le :
  exists msg,
    @stun_append32 little_endian_host example_env 100 0x0024 0xDEADBEEF
       (zero_buffer 100) = Normal (Success, msg) /\
    bytes_at msg 20 8 = [Byte.x00; Byte.x24; Byte.x00; Byte.x04;
                         Byte.xde; Byte.xad; Byte.xbe; Byte.xef] /\
    stun_length msg = 8.
Proof. eexists. repeat split; vm_compute; reflexivity. Qed.

Example append32_deadbeef_be :
  exists msg,
    @stun_append32 big_endian_host example_env 100 0x0024 0xDEADBEEF
       (zero_buffer 100) = Normal (Success, msg) /\
    bytes_at msg 20 8 = [Byte.x00; Byte.x24; Byte.x00; Byte.x04;
                         Byte.xde; Byte.xad; Byte.xbe; Byte.xef] /\
    stun_length msg = 8.
Proof. eexists. repeat split; vm_compute; reflexivity. Qed.

(** Scenario 3: a string of 5 bytes is followed by 3 bytes of padding. *)
Example append_string_hello :
  exists msg,
    @stun_append_string example_env 100 STUN_USERNAME
       (list_byte_of_string "hello") (zero_buffer 100)
      = Normal (Success, msg) /\
    bytes_at msg 24 8 = list_byte_of_string "hello   " /\
    stun_length msg = 12.
Proof. eexists. repeat split; vm_compute; reflexivity. Qed.

(** Scenario 4: finishing a header-only message gives 28 bytes. *)
Example finish_header_only :
  exists msg,
    @stun_finish little_endian_host example_env 28 (zero_buffer 28)
      = Normal ((Success, 28), msg) /\
    stun_getw msg 20 = STUN_FINGERPRINT /\ stun_getw msg 22 = 4.
Proof. eexists. repeat split; vm_compute; reflexivity. Qed.

(** The round trip of an IPv6 address through a socket address. *)
Example roundtrip_ipv6 :
  let a := mk_NiceAddress NICE_ADDRESS_TYPE_IPV6 0
             (vreplicate 16 Byte.xfe) 3478 in
  exists sin a',
    @nice_address_copy_to_sockaddr big_endian_host a
       (mk_sockaddr 0 0 0 (vreplicate 16 Byte.x00)) = Normal sin /\
    @nice_address_set_from_sockaddr big_endian_host nice_address_new sin
      = Normal a' /\
    nice_address_equal a a' = Normal true.
Proof. eexists _, _. repeat split; vm_compute; reflexivity. Qed.
(** The check of [stun_append] counts the attribute header and the payload,
    not the padding: with 45 bytes declared, an attribute of 21 bytes fits
    and its 3 bytes of padding take the message to 48 bytes. *)
Example append_padding_beyond_msize :
  exists msg,
    @stun_append_bytes example_env 45 STUN_NONCE (replicate 21 Byte.x41) 21
       (zero_buffer 48) = Normal (Success, msg) /\
    20 + stun_length msg = 48 /\
    bytes_at msg 45 3 = [Byte.x20; Byte.x20; Byte.x20].
Proof. eexists. repeat split; vm_compute; reflexivity. Qed.
End Examples.

(** * Examples of the further properties *)

Section AddressExamples.
Import Address.
#[local] Existing Instance little_endian_host.

(** X1 at 192.168.1.1. *)
Lemma nice_address_is_private_ranges_witness :
  let a := mk_NiceAddress NICE_ADDRESS_TYPE_IPV4 0xC0A80101
                          (vreplicate 16 Byte.x00) 3478 in
  (type a = NICE_ADDRESS_TYPE_IPV4 ->
   exists b, nice_address_is_private a = Normal b /\
     (b = true <->
      (0x0a000000 <= addr_ipv4 a <= 0x0affffff \/
       0xac100000 <= addr_ipv4 a <= 0xac1fffff \/
       0xc0a80000 <= addr_ipv4 a <= 0xc0a8ffff \/
       0x7f000000 <= addr_ipv4 a <= 0x7fffffff))) /\
  (type a <> NICE_ADDRESS_TYPE_IPV4 -> nice_address_is_private a = Abort).
Proof.
  intros a.
  apply (nice_address_is_private_ranges a).
  simpl. lia.
Defined.

(** X4 at 192.168.1.1, port 3478, as a little-endian host stores them. *)
Lemma nice_address_from_sockaddr_roundtrip_witness :
  let sin := mk_sockaddr AF_INET 0x960D 0x0101A8C0 (vreplicate 16 Byte.x00) in
  let sin0 := mk_sockaddr 0 0 0 (vreplicate 16 Byte.x00) in
  let fresh := nice_address_new in
  let fresh' := mk_NiceAddress NICE_ADDRESS_TYPE_IPV6 7
                               (vreplicate 16 Byte.xff) 9 in
  exists a a' sin',
    nice_address_set_from_sockaddr fresh sin = Normal a /\
    nice_address_set_from_sockaddr fresh' sin = Normal a' /\
    nice_address_equal a a' = Normal true /\
    nice_address_copy_to_sockaddr a sin0 = Normal sin' /\
    sa_family sin' = sa_family sin /\ sin_port sin' = sin_port sin /\
    (sa_family sin = AF_INET ->
     sin_addr sin' = sin_addr sin /\ sin6_addr sin' = sin6_addr sin0) /\
    (sa_family sin = AF_INET6 ->
     sin6_addr sin' = sin6_addr sin /\ sin_addr sin' = sin_addr sin0).
Proof.
  intros sin sin0 fresh fresh'.
  apply (nice_address_from_sockaddr_roundtrip sin sin0 fresh fresh').
  - simpl. lia.
  - simpl. lia.
  - left. reflexivity.
Defined.

End AddressExamples.

Section StunExamples.
Import Stun.
#[local] Existing Instance little_endian_host.
#[local] Existing Instance example_env.
#[local] Existing Instance example_parser.

(** X5 at a binding request in a 20-byte buffer. *)
Lemma stun_init_abort_iff_witness :
  let c := STUN_REQUEST in
  let m := 1 in
  let store_counter := 0 in
  let id := replicate 12 Byte.x00 in
  let msg := zero_buffer 20 in
  (stun_init c m id msg = Abort <-> ~ (0 <= c < 4 /\ 0 <= m < 4096)) /\
  (stun_init_request store_counter m msg = Abort <-> ~ (0 <= m < 4096)) /\
  (forall msg', stun_init c m id msg = Normal (tt, msg') ->
     length msg' = length msg /\
     forall i, 20 <= i -> load8 msg' i = load8 msg i) /\
  (forall store_counter' msg',
     stun_init_request store_counter m msg = Normal (store_counter', msg') ->
     store_counter' = uint64 (store_counter + 1) /\
     length msg' = length msg /\
     forall i, 20 <= i -> load8 msg' i = load8 msg i).
Proof.
  intros c m store_counter id msg.
  apply (stun_init_abort_iff c m store_counter id msg).
  simpl. lia.
Defined.

(** X6 at an answer written over the request. *)
Lemma stun_init_response_spec_witness :
  let req := example_request in
  let ans := example_request in
  (stun_get_class req = STUN_REQUEST ->
   exists ans',
     stun_init_response req ans = Normal (tt, ans') /\
     stun_get_class ans' = STUN_RESPONSE /\
     stun_get_method ans' = stun_get_method req /\
     (20 <= Z.of_nat (length req) -> stun_id ans' = stun_id req) /\
     stun_length ans' = 0 /\
     bytes_at ans' 4 4 = [Byte.x21; Byte.x12; Byte.xa4; Byte.x42] /\
     length ans' = length ans /\
     forall i, 20 <= i -> load8 ans' i = load8 ans i) /\
  (stun_get_class req <> STUN_REQUEST ->
   stun_init_response req ans = Abort).
Proof.
  intros req ans.
  apply (stun_init_response_spec req ans).
  simpl. lia.
Defined.

(** X7 at three bytes appended to an empty message. *)
Lemma stun_append_bytes_payload_witness :
  let msize := 100 in
  let type := 0x0024 in
  let data := [Byte.x01; Byte.x02; Byte.x03] in
  let len := 3 in
  let msg := zero_buffer 100 in
  (stun_length msg + 24 + len > Z.min msize STUN_MAXMSG ->
   stun_append_bytes msize type data len msg = Normal (ENOBUFS, msg)) /\
  (stun_length msg + 24 + len <= Z.min msize STUN_MAXMSG ->
   exists msg',
     stun_append_bytes msize type data len msg = Normal (Success, msg') /\
     length msg' = length msg /\
     stun_getw msg' (20 + stun_length msg) = uint16 type /\
     stun_getw msg' (22 + stun_length msg) = len /\
     bytes_at msg' (24 + stun_length msg) len = take (Z.to_nat len) data /\
     stun_length msg' = stun_length msg + 4 + len + stun_padding len /\
     (forall i, 24 + stun_length msg + len <= i
                  < 24 + stun_length msg + len + stun_padding len ->
                i < Z.of_nat (length msg) -> load8 msg' i = 32) /\
     (forall i, 0 <= i < 2 \/ 4 <= i < 20 + stun_length msg \/
                24 + stun_length msg + len + stun_padding len <= i ->
                load8 msg' i = load8 msg i)).
Proof.
  intros msize type data len msg.
  apply (stun_append_bytes_payload msize type data len msg).
  - vm_compute. reflexivity.
  - vm_compute. split; [discriminate|reflexivity].
  - simpl. lia.
  - simpl. lia.
  - simpl. lia.
Defined.

(** X8 at the value 0xDEADBEEF. *)
Lemma stun_append32_64_big_endian_witness :
  let msize := 100 in
  let type := 0x0024 in
  let value := 0xDEADBEEF in
  let msg := zero_buffer 100 in
  (stun_length msg + 28 <= Z.min msize STUN_MAXMSG ->
   exists msg',
     stun_append32 msize type value msg = Normal (Success, msg') /\
     stun_getw msg' (20 + stun_length msg) = uint16 type /\
     stun_getw msg' (22 + stun_length msg) = 4 /\
     bytes_at msg' (24 + stun_length msg) 4 = be_bytes 4 value /\
     be_value (bytes_at msg' (24 + stun_length msg) 4) = uint32 value /\
     stun_length msg' = stun_length msg + 8) /\
  (stun_length msg + 32 <= Z.min msize STUN_MAXMSG ->
   exists msg',
     stun_append64 msize type value msg = Normal (Success, msg') /\
     stun_getw msg' (20 + stun_length msg) = uint16 type /\
     stun_getw msg' (22 + stun_length msg) = 8 /\
     bytes_at msg' (24 + stun_length msg) 8 = be_bytes 8 value /\
     be_value (bytes_at msg' (24 + stun_length msg) 8) = uint64 value /\
     stun_length msg' = stun_length msg + 12).
Proof.
  intros msize type value msg.
  apply (stun_append32_64_big_endian msize type value msg).
  - vm_compute. reflexivity.
  - simpl. lia.
  - simpl. lia.
Defined.

(** X9 at a string of two characters. *)
Lemma stun_append_string_payload_witness :
  let msize := 100 in
  let type := 0x0006 in
  let str := [Byte.x68; Byte.x69; Byte.x00] in
  let msg := zero_buffer 100 in
  let text := take (Z.to_nat (strlen str)) str in
  (Byte.x00 ∉ text) /\
  (strlen str < Z.of_nat (length str) -> str !! length text = Some Byte.x00) /\
  (stun_length msg + 24 + strlen str <= Z.min msize STUN_MAXMSG ->
   exists msg',
     stun_append_string msize type str msg = Normal (Success, msg') /\
     stun_getw msg' (20 + stun_length msg) = uint16 type /\
     stun_getw msg' (22 + stun_length msg) = Z.of_nat (length text) /\
     bytes_at msg' (24 + stun_length msg) (Z.of_nat (length text)) = text /\
     stun_length msg'
       = stun_length msg + 4 + strlen str + stun_padding (strlen str)) /\
  (stun_length msg + 24 <= Z.min msize STUN_MAXMSG ->
   exists msg',
     stun_append_flag msize type msg = Normal (Success, msg') /\
     stun_getw msg' (20 + stun_length msg) = uint16 type /\
     stun_getw msg' (22 + stun_length msg) = 0 /\
     stun_length msg' = stun_length msg + 4).
Proof.
  intros msize type str msg.
  apply (stun_append_string_payload msize type str msg).
  - vm_compute. reflexivity.
  - vm_compute. split; [discriminate|reflexivity].
  - simpl. lia.
  - simpl. lia.
Defined.

(** X10 at a limit of 30 bytes, which is not a multiple of 4. *)
Lemma stun_append_bounds_witness :
  let msize := 30 in
  let type := 0x0024 in
  let len := 5 in
  let msg := zero_buffer 100 in
  let cap := Z.min msize STUN_MAXMSG in
  exists ptr msg',
    stun_append msize type len msg = Normal (ptr, msg') /\
    length msg' = length msg /\
    (ptr = None -> msg' = msg) /\
    (forall i, 0 <= i < 2 \/ 4 <= i < 20 + stun_length msg \/
               24 + stun_length msg + len + stun_padding len <= i ->
               load8 msg' i = load8 msg i) /\
    (forall i, cap + 3 <= i -> load8 msg' i = load8 msg i) /\
    (cap mod 4 = 0 -> forall i, cap <= i -> load8 msg' i = load8 msg i).
Proof.
  intros msize type len msg.
  apply (stun_append_bounds msize type len msg).
  - vm_compute. reflexivity.
  - vm_compute. split; [discriminate|reflexivity].
  - simpl. lia.
Defined.

(** X11 at 192.168.1.1, port 3478. *)
Lemma nice_address_stun_attribute_witness :
  let na := Address.mk_NiceAddress Address.NICE_ADDRESS_TYPE_IPV4
              0xC0A80101 (vreplicate 16 Byte.x00) 3478 in
  let sin0 := mk_sockaddr 0 0 0 (vreplicate 16 Byte.x00) in
  let msize := 100 in
  let type := 0x0001 in
  let addrlen := 28 in
  let msg := zero_buffer 100 in
  let v4 := Address.type na =? Address.NICE_ADDRESS_TYPE_IPV4 in
  let alen := if v4 then 4 else 16 in
  exists sin msg',
    Address.nice_address_copy_to_sockaddr na sin0 = Normal sin /\
    stun_append_addr msize type sin addrlen msg = Normal (Success, msg') /\
    stun_getw msg' (20 + stun_length msg) = uint16 type /\
    stun_getw msg' (22 + stun_length msg) = 4 + alen /\
    bytes_at msg' (24 + stun_length msg) (4 + alen)
    = [Byte.x00; if v4 then Byte.x01 else Byte.x02]
        ++ be_bytes 2 (Address.port na)
        ++ (if v4 then be_bytes 4 (Address.addr_ipv4 na)
            else vec_to_list (Address.addr_ipv6 na)) /\
    stun_length msg' = stun_length msg + 4 + (4 + alen).
Proof.
  intros na sin0 msize type addrlen msg v4 alen.
  apply (nice_address_stun_attribute na sin0 msize type addrlen msg).
  - vm_compute. reflexivity.
  - simpl. lia.
  - simpl. lia.
  - vm_compute. discriminate.
  - left. reflexivity.
  - vm_compute. discriminate.
Defined.

(** X13 at the code 401 in a 100-byte buffer. *)
Lemma stun_init_error_fits_witness :
  let msize := 100 in
  let code := STUN_UNAUTHORIZED in
  let req := example_request in
  let ans := zero_buffer 100 in
  (code < 800 \/ 2 ^ 31 <= code < 2 ^ 32 ->
   exists ans',
     stun_init_error msize req code ans = Normal (Success, ans') /\
     length ans' = length ans /\
     stun_get_class ans' = STUN_ERROR /\
     stun_get_method ans' = stun_get_method req /\
     (20 <= Z.of_nat (length req) -> stun_id ans' = stun_id req) /\
     12 <= stun_length ans' <= 40 /\ stun_length ans' mod 4 = 0) /\
  (800 <= code < 2 ^ 31 -> stun_init_error msize req code ans = Abort).
Proof.
  intros msize code req ans.
  apply (stun_init_error_fits msize code req ans).
  - simpl. lia.
  - simpl. lia.
  - simpl. lia.
Defined.

(** X14 at a request in which the parser finds two unknown attributes. *)
Lemma stun_init_error_unknown_spec_witness :
  let msize := 100 in
  let req := example_request in
  let ans := zero_buffer 100 in
  let ids := stun_find_unknown req (stun_length req / 4) in
  let n := Z.of_nat (length ids) in
  (stun_get_class req <> STUN_REQUEST ->
   stun_init_error_unknown msize req ans = Abort) /\
  (ids = [] -> stun_init_error_unknown msize req ans = Abort) /\
  (stun_get_class req = STUN_REQUEST -> 0 < n <= stun_length req / 4 ->
   (Z.min msize STUN_MAXMSG < 52 + 2 * n ->
    exists ans', stun_init_error_unknown msize req ans
                 = Normal (ENOBUFS, ans')) /\
   (52 + 2 * n <= Z.min msize STUN_MAXMSG ->
    exists ans',
      stun_init_error_unknown msize req ans = Normal (Success, ans') /\
      stun_get_class ans' = STUN_ERROR /\
      stun_get_method ans' = stun_get_method req /\
      (20 <= Z.of_nat (length req) -> stun_id ans' = stun_id req) /\
      stun_getw ans' 20 = STUN_ERROR_CODE /\
      bytes_at ans' 24 4 = [Byte.x00; Byte.x00; Byte.x04; Byte.x14] /\
      stun_getw ans' 48 = STUN_UNKNOWN_ATTRIBUTES /\
      stun_getw ans' 50 = 2 * n /\
      bytes_at ans' 52 (2 * n) = flat_map (be_bytes 2) ids /\
      stun_length ans' = 32 + 2 * n + stun_padding (2 * n))).
Proof.
  intros msize req ans.
  apply (stun_init_error_unknown_spec msize req ans).
  - simpl. lia.
  - simpl. lia.
  - simpl. lia.
Defined.

(** X15 at a realm, a user name and a key on an empty message. *)
Lemma stun_finish_long_size_witness :
  let plen := 100 in
  let realm := Some [Byte.x72; Byte.x00] in
  let username := Some [Byte.x75; Byte.x00] in
  let key := Some [Byte.x6b] in
  let keylen := 1 in
  let nonce := @None (list byte) in
  let noncelen := 0 in
  let msg := zero_buffer 100 in
  let need := 20 + stun_length msg
              + attrs_size (finish_attrs realm username key nonce noncelen) in
  exists ret plen' msg',
    stun_finish_long plen realm username key keylen nonce noncelen msg
    = Normal ((ret, plen'), msg') /\
    (ret = Success <-> need <= Z.min plen STUN_MAXMSG) /\
    (ret = Success ->
     plen' = need /\ 20 + stun_length msg' = need /\ plen' <= plen) /\
    (ret <> Success ->
     ret = ENOBUFS /\ plen' = plen /\ 20 + stun_length msg' < need).
Proof.
  intros plen realm username key keylen nonce noncelen msg.
  apply (stun_finish_long_size plen realm username key keylen nonce noncelen msg).
  - vm_compute. reflexivity.
  - simpl. lia.
  - simpl. lia.
  - intros r [= <-]. vm_compute. split; [discriminate|reflexivity].
  - intros u [= <-]. vm_compute. split; [discriminate|reflexivity].
  - intros Hn. now destruct Hn.
Defined.

(** X16 at a realm, a user name and a key on an empty message. *)
Lemma stun_finish_long_keeps_witness :
  let plen := 100 in
  let realm := Some [Byte.x72; Byte.x00] in
  let username := Some [Byte.x75; Byte.x00] in
  let key := Some [Byte.x6b] in
  let keylen := 1 in
  let nonce := @None (list byte) in
  let noncelen := 0 in
  let msg := zero_buffer 100 in
  exists ret plen' msg',
    stun_finish_long plen realm username key keylen nonce noncelen msg
    = Normal ((ret, plen'), msg') /\
    length msg' = length msg /\
    stun_get_class msg' = stun_get_class msg /\
    stun_get_method msg' = stun_get_method msg /\
    stun_id msg' = stun_id msg /\
    bytes_at msg' 4 4 = bytes_at msg 4 4 /\
    bytes_at msg' 20 (stun_length msg) = bytes_at msg 20 (stun_length msg) /\
    stun_length msg <= stun_length msg' /\
    stun_padding (stun_length msg') = 0.
Proof.
  intros plen realm username key keylen nonce noncelen msg.
  apply (stun_finish_long_keeps plen realm username key keylen nonce noncelen msg).
  - vm_compute. reflexivity.
  - simpl. lia.
  - simpl. lia.
  - intros r [= <-]. vm_compute. split; [discriminate|reflexivity].
  - intros u [= <-]. vm_compute. split; [discriminate|reflexivity].
  - intros Hn. now destruct Hn.
Defined.

(** X17 at a realm, a user name and a key on an empty message. *)
Lemma stun_finish_long_sealed_witness :
  let plen := 100 in
  let realm := Some [Byte.x72; Byte.x00] in
  let username := Some [Byte.x75; Byte.x00] in
  let key := Some [Byte.x6b] in
  let keylen := 1 in
  let nonce := @None (list byte) in
  let noncelen := 0 in
  let msg := zero_buffer 100 in
  exists msg',
    stun_finish_long plen realm username key keylen nonce noncelen msg
    = Normal ((Success, 20 + stun_length msg'), msg') /\
    let L := stun_length msg' in
    (forall k, key = Some k ->
       stun_getw msg' (L - 12) = STUN_MESSAGE_INTEGRITY /\
       bytes_at msg' (L - 8) 20
       = vec_to_list (HMAC_SHA1 (take (Z.to_nat keylen) k)
                                (take (Z.to_nat (L - 12)) msg'))) /\
    stun_getw msg' (L + 12) = STUN_FINGERPRINT /\
    exists before,
      msg' = memcpy_at before (L + 16) (be_bytes 4 (stun_fingerprint before)) /\
      stun_length before = L /\
      bytes_at msg' (L + 16) 4 = be_bytes 4 (stun_fingerprint before).
Proof.
  intros plen realm username key keylen nonce noncelen msg.
  apply (stun_finish_long_sealed plen realm username key keylen nonce noncelen msg).
  - vm_compute. reflexivity.
  - simpl. lia.
  - simpl. lia.
  - intros r [= <-]. vm_compute. split; [discriminate|reflexivity].
  - intros u [= <-]. vm_compute. split; [discriminate|reflexivity].
  - intros Hn. now destruct Hn.
  - vm_compute. discriminate.
Defined.

(** X18 at an empty message in a 100-byte buffer. *)
Lemma stun_finish_fingerprint_witness :
  let plen := 100 in
  let msg := zero_buffer 100 in
  let L0 := stun_length msg in
  (L0 + 28 > Z.min plen STUN_MAXMSG ->
   stun_finish plen msg = Normal ((ENOBUFS, plen), msg)) /\
  (L0 + 28 <= Z.min plen STUN_MAXMSG ->
   let before := reserved msg STUN_FINGERPRINT 4 in
   let msg' := memcpy_at before (24 + L0)
                 (be_bytes 4 (stun_fingerprint before)) in
   stun_finish plen msg = Normal ((Success, L0 + 28), msg') /\
   stun_length msg' = L0 + 8 /\ stun_length before = L0 + 8 /\
   stun_getw msg' (20 + L0) = STUN_FINGERPRINT /\
   stun_getw msg' (22 + L0) = 4 /\
   bytes_at msg' (24 + L0) 4 = be_bytes 4 (stun_fingerprint before) /\
   forall i, 0 <= i < 2 \/ 4 <= i < 20 + L0 \/ 28 + L0 <= i ->
             load8 msg' i = load8 msg i) /\
  (forall username password nonce noncelen plen' msg',
     (forall u, username = Some u -> object_size (strlen u)) ->
     (nonce <> None -> object_size noncelen) ->
     stun_finish_short plen username (Some password) nonce noncelen msg
     = Normal ((Success, plen'), msg') ->
     bytes_at msg' (stun_length msg' - 8) 20
     = vec_to_list
         (HMAC_SHA1 (take (Z.to_nat (strlen password)) password)
                    (take (Z.to_nat (stun_length msg' - 12)) msg'))).
Proof.
  intros plen msg.
  apply (stun_finish_fingerprint plen msg).
  - vm_compute. reflexivity.
  - simpl. lia.
  - simpl. lia.
Defined.

(** X19 at two attributes appended to an empty message. *)
Lemma append_all_decodes_witness :
  let msize := 100 in
  let attrs := [(0x0006, [Byte.x75]);
                (0x0024, [Byte.x01; Byte.x02; Byte.x03; Byte.x04])] in
  let msg := zero_buffer 100 in
  exists msg',
    append_all msize attrs msg = Normal (Success, msg') /\
    length msg' = length msg /\
    stun_length msg' = stun_length msg + payloads_size attrs /\
    payloads_between msg' (20 + stun_length msg) (20 + stun_length msg') attrs /\
    (forall l, payloads_between msg' (20 + stun_length msg)
                 (20 + stun_length msg') l -> l = attrs) /\
    (forall i, 0 <= i < 2 \/ 4 <= i < 20 + stun_length msg ->
               load8 msg' i = load8 msg i).
Proof.
  intros msize attrs msg.
  apply (append_all_decodes msize attrs msg).
  - vm_compute. reflexivity.
  - simpl. lia.
  - simpl. lia.
  - repeat constructor; simpl; lia.
  - vm_compute. discriminate.
Defined.

(** An error code of the unsigned type above 2^31 - 1 passes the assertion
    of [stun_append_error], [div] taking it as the [int] -1: the call
    returns 0 and the attribute holds the class byte 0, the number byte
    255 and the phrase for an unknown code. *)
Example init_error_code_wraps :
  exists ans',
    stun_init_error 100 example_request 4294967295 (zero_buffer 100)
    = Normal (Success, ans') /\
    bytes_at ans' 24 4 = [Byte.x00; Byte.x00; Byte.x00; Byte.xff] /\
    bytes_at ans' 28 13 = list_byte_of_string "Unknown error".
Proof.
  eexists. split; [vm_compute; reflexivity|].
  vm_compute. split; reflexivity.
Qed.

End StunExamples.
